(** * spnix-web: the session worker ([backend/worker.py]) and its callers

    A shallow embedding of [WorkerManager] and of the websocket endpoint of
    [backend/main.py] that drives the onboarding flow.

    - Python text is a [string]; the string methods the worker uses are
      modelled on the ASCII range (case mapping, white space and digits of
      other scripts are outside the model).
    - Coroutines are computations in a state-and-exception monad over a
      [World]: the manager's [clients] dictionary, the document store, the
      state of the remote service and the trace of calls made so far.
    - The Telegram client library and the websocket are an interface
      ([Remote]): every call is recorded in the trace and its outcome is
      decided by the remote state, so any call may succeed or raise.  The
      remote state stands for the service as a whole; a call does not record
      which client handle issued it.
    - The document store is a value of the world: reads and writes of the
      collections succeed (a lost database connection is outside the
      model), and building a client object from a stored session text
      succeeds.
    - Background tasks ([asyncio.create_task]) are recorded as spawned and
      studied as computations of their own. *)

From Stdlib Require Import ZArith Ascii String.
From stdpp Require Import gmap strings list sorting pretty.

Local Open Scope Z_scope.
Local Open Scope string_scope.

(** ** Python built-ins used by the worker *)

Module Py.

Definition is_space (c : ascii) : bool :=
  let n := nat_of_ascii c in
  (((9 <=? n) && (n <=? 13)) || ((28 <=? n) && (n <=? 32)))%nat.

Definition is_digit (c : ascii) : bool :=
  let n := nat_of_ascii c in ((48 <=? n) && (n <=? 57))%nat.

Definition is_upper (c : ascii) : bool :=
  let n := nat_of_ascii c in ((65 <=? n) && (n <=? 90))%nat.

Definition lower_char (c : ascii) : ascii :=
  if is_upper c then ascii_of_nat (nat_of_ascii c + 32) else c.

(** [s.lower()] *)
Fixpoint lower (s : string) : string :=
  match s with
  | EmptyString => EmptyString
  | String c s' => String (lower_char c) (lower s')
  end.

Fixpoint lstrip_by (p : ascii -> bool) (s : string) : string :=
  match s with
  | EmptyString => EmptyString
  | String c s' => if p c then lstrip_by p s' else s
  end.

Definition rstrip_by (p : ascii -> bool) (s : string) : string :=
  String.rev (lstrip_by p (String.rev s)).

(** [s.strip()], [s.lstrip(c)], [s.rstrip(c)] *)
Definition strip (s : string) : string :=
  rstrip_by is_space (lstrip_by is_space s).
Definition lstrip_char (c : ascii) (s : string) : string :=
  lstrip_by (Ascii.eqb c) s.
Definition rstrip_char (c : ascii) (s : string) : string :=
  rstrip_by (Ascii.eqb c) s.

(** [s.split(sep)] for a one-character separator: never the empty list *)
Fixpoint split (sep : ascii) (s : string) : list string :=
  match s with
  | EmptyString => [EmptyString]
  | String c s' =>
      if Ascii.eqb c sep then EmptyString :: split sep s'
      else match split sep s' with
           | [] => [String c EmptyString]
           | h :: t => String c h :: t
           end
  end.

(** [s.startswith(p)] *)
Definition startswith (s p : string) : bool := String.prefix p s.

(** [k in s] on strings *)
Fixpoint contains (k s : string) : bool :=
  String.prefix k s ||
  match s with
  | EmptyString => false
  | String _ s' => contains k s'
  end.

(** [s.isdigit()] *)
Fixpoint all_digits (s : string) : bool :=
  match s with
  | EmptyString => true
  | String c s' => is_digit c && all_digits s'
  end.
Definition isdigit (s : string) : bool :=
  match s with EmptyString => false | _ => all_digits s end.

(** truth value of a string, of an optional string ([None] is falsy) *)
Definition truthy (s : string) : bool :=
  match s with EmptyString => false | _ => true end.
Definition truthy_opt (o : option string) : bool :=
  match o with Some s => truthy s | None => false end.

(** [o or <empty text>] *)
Definition or_empty (o : option string) : string :=
  match o with Some s => if truthy s then s else EmptyString | None => EmptyString end.

Definition digit_val (c : ascii) : Z := Z.of_nat (nat_of_ascii c) - 48.

(** The digit part of an integer literal: decimal digits, single
    underscores allowed between two digits. *)
Fixpoint int_digits (acc : Z) (after_digit : bool) (s : string) : option Z :=
  match s with
  | EmptyString => if after_digit then Some acc else None
  | String c s' =>
      if is_digit c then int_digits (10 * acc + digit_val c) true s'
      else if Ascii.eqb c "_" then
        if after_digit then int_digits acc false s' else None
      else None
  end.

(** the characters [int] skips around a literal: tab to carriage return
    and the blank; the separators 28 to 31, which [strip] drops, are not
    among them *)
Definition is_int_space (c : ascii) : bool :=
  let n := nat_of_ascii c in
  (((9 <=? n) && (n <=? 13)) || (n =? 32))%nat.

(** [int(s)]: surrounding white space, one optional sign, digits.
    [None] is [ValueError].  (The interpreter's cap on the number of digits
    of a literal is outside the model.) *)
Definition int (s : string) : option Z :=
  match rstrip_by is_int_space (lstrip_by is_int_space s) with
  | String "-" r => Z.opp <$> int_digits 0 false r
  | String "+" r => int_digits 0 false r
  | t => int_digits 0 false t
  end.

End Py.

(** ** Exceptions, effects and the coroutine monad *)

(** The exceptions the modelled code can see; all derive from [Exception]. *)
Inductive exn :=
| ValueError (msg : string)
| IndexError                      (* list index out of range *)
| TypeError (msg : string)
| UserAlreadyParticipantError
| SessionPasswordNeededError
| WebSocketDisconnect
| RPCError (msg : string).        (* any other failure of a remote call *)

(** [str(e)] *)
Definition exn_str (e : exn) : string :=
  match e with
  | ValueError m => m
  | IndexError => "list index out of range"
  | TypeError m => m
  | UserAlreadyParticipantError =>
      "The authenticated user is already a participant of the chat"
  | SessionPasswordNeededError =>
      "Two-steps verification is enabled and a password is required"
  | WebSocketDisconnect => EmptyString
  | RPCError m => m
  end.

Inductive result (A : Type) :=
| Ok (a : A)
| Raise (e : exn).
Arguments Ok {A} a.
Arguments Raise {A} e.

(** An f-string: literal text and formatted values, in order. *)
Inductive fragment :=
| Lit (s : string)
| FInt (z : Z)
| FStr (s : string)
| FExn (e : exn).

(** An inbound [events.NewMessage] event, as far as the handlers read it. *)
Record NewMessage := {
  chat_id : Z;
  sender_id : Z;
  raw_text : string;
  is_private : bool;
  out : bool
}.

(** A fetched message ([client.get_messages], [client.iter_messages]). *)
Record Message := { text : option string }.

(** The identity returned by [client.get_me()]. *)
Record Me := { me_phone : string }.

Record AccountDoc := {
  session_string : string;
  status : string;
  owner : option string
}.

(** What the code does to the outside, one constructor per call site kind. *)
Inductive effect :=
| Log (parts : list fragment)                          (* logger.log *)
| DbSetStatus (phone st : string)                      (* accounts.update_one *)
| DbUpsertAccount (phone : string) (doc : AccountDoc)
| Start (phone : string)                               (* client.start *)
| ForwardTo (ev : NewMessage) (dest : Z)               (* event.forward_to *)
| Reply (ev : NewMessage) (msg : string)               (* event.reply *)
| RunUntilDisconnected
| JoinChannel (link : string)                          (* JoinChannelRequest *)
| Sleep (seconds : Z)                                  (* asyncio.sleep *)
| IterMessages (channel : string) (limit : Z)
| GetMessages (chat : string) (id : Z)
| SendMessage (target : string) (m : Message)
| ForwardMessages (target : string) (id : Z) (from_peer : string)
| Connect
| Disconnect
| SendCodeRequest (phone : option string)
| SignInCode (phone code : option string)
| SignInPassword (password : option string)
| GetMe
| SessionSave
| WsAccept
| WsSendJson (type message : string)
| WsReceiveJson
| Spawn (task : string) (arg : string).                (* asyncio.create_task *)

(** The remote service and the websocket peer: each call maps the remote
    state to an outcome and a new state. *)
Class Remote (R : Type) := {
  r_start : string -> R -> result unit * R;
  r_forward_to : NewMessage -> Z -> R -> result unit * R;
  r_reply : NewMessage -> string -> R -> result unit * R;
  r_inbound : R -> list NewMessage;
  r_in_chats : gset Z -> NewMessage -> bool;
  r_run_until_disconnected : R -> result unit * R;
  r_join : string -> R -> result unit * R;
  r_iter_messages : string -> Z -> R -> result (list Message) * R;
  r_get_messages : string -> Z -> R -> result (option Message) * R;
  r_send_message : string -> Message -> R -> result unit * R;
  r_forward_messages : string -> Z -> string -> R -> result unit * R;
  r_connect : R -> result unit * R;
  r_is_connected : R -> bool;
  r_disconnect : R -> result unit * R;
  r_send_code_request : option string -> R -> result string * R;
  r_sign_in_code : option string -> option string -> string -> R -> result unit * R;
  r_sign_in_password : option string -> R -> result unit * R;
  r_get_me : R -> result Me * R;
  r_session_save : R -> string;
  r_ws_accept : R -> result unit * R;
  r_ws_send_json : string -> string -> R -> result unit * R;
  r_ws_receive_json : R -> result (option string) * R
}.

Record ForwardingRule := {
  account_phone : string;
  source_chat : string;
  destination_chat : string;
  rule_status : string
}.

Record AutoReplySettings := {
  ar_message : option string;
  ar_keywords : option string
}.

Record SmartSellingSettings := {
  ss_enabled : bool;
  ss_message : option string;
  ss_must_contain : option string;
  ss_maybe_contain : option string
}.

(** The document store: one account document per phone, the rule collection
    in storage order, one settings document per account. *)
Record Db := {
  accounts : gmap string AccountDoc;
  forwarding_rules : list ForwardingRule;
  auto_reply_settings : gmap string AutoReplySettings;
  smart_selling_settings : gmap string SmartSellingSettings
}.

(** A client handle, as stored in [WorkerManager.clients]. *)
Record Client := { client_session : string }.

Record World (R : Type) := {
  clients : gmap string Client;
  db : Db;
  remote : R;
  trace : list effect
}.
Arguments clients {R} w.
Arguments db {R} w.
Arguments remote {R} w.
Arguments trace {R} w.

Definition M (R A : Type) : Type := World R -> result A * World R.

Definition ret {R A} (a : A) : M R A := fun w => (Ok a, w).
Definition raise {R A} (e : exn) : M R A := fun w => (Raise e, w).
Definition bind {R A B} (m : M R A) (k : A -> M R B) : M R B :=
  fun w => match m w with
           | (Ok a, w') => k a w'
           | (Raise e, w') => (Raise e, w')
           end.

Notation "x <- m ;; k" := (bind m (fun x => k))
  (at level 100, m at next level, right associativity).
Notation "m ;;; k" := (bind m (fun _ => k))
  (at level 100, right associativity).

(** [try: body except <sel> as e: handler]; [sel e = None] lets [e] through *)
Definition try_except {R A B} (body : M R A) (sel : exn -> option B)
    (handler : B -> M R A) : M R A :=
  fun w => match body w with
           | (Ok a, w') => (Ok a, w')
           | (Raise e, w') =>
               match sel e with
               | Some b => handler b w'
               | None => (Raise e, w')
               end
           end.

(** [try: body finally: fin] *)
Definition try_finally {R A} (body : M R A) (fin : M R unit) : M R A :=
  fun w => match body w with
           | (r, w') =>
               match fin w' with
               | (Ok _, w'') => (r, w'')
               | (Raise e, w'') => (Raise e, w'')
               end
           end.

(** [except Exception as e] *)
Definition any_exception (e : exn) : option exn := Some e.

Definition emit {R} (e : effect) : M R unit :=
  fun w => (Ok tt, {| clients := clients w; db := db w; remote := remote w;
                      trace := trace w ++ [e] |}).

(** A remote call: recorded, then answered by the remote state. *)
Definition call {R A} (e : effect) (f : R -> result A * R) : M R A :=
  fun w => let '(r, s) := f (remote w) in
           (r, {| clients := clients w; db := db w; remote := s;
                  trace := trace w ++ [e] |}).

(** [logger.log] gathers its sends with [return_exceptions=True]: it never
    raises. *)
Definition log {R} (parts : list fragment) : M R unit := emit (Log parts).

Definition sleep {R} (seconds : Z) : M R unit := emit (Sleep seconds).

(** [for x in xs: body] *)
Fixpoint for_each {R A} (xs : list A) (body : A -> M R unit) : M R unit :=
  match xs with
  | [] => ret tt
  | x :: xs' => body x ;;; for_each xs' body
  end.

(** [int(s)] as a statement that may raise; the message quotes the literal
    as [repr] does for a text without quotes, backslashes or control
    characters. *)
Definition int_error (s : string) : string :=
  "invalid literal for int() with base 10: '" +:+ s +:+ "'".

Definition int_ {R} (s : string) : M R Z :=
  match Py.int s with
  | Some z => ret z
  | None => raise (ValueError (int_error s))
  end.

Definition get_clients {R} : M R (gmap string Client) :=
  fun w => (Ok (clients w), w).

(** [self.clients[phone] = client], [del self.clients[phone]] *)
Definition set_client {R} (phone : string) (c : Client) : M R unit :=
  fun w => (Ok tt, {| clients := <[phone := c]> (clients w); db := db w;
                      remote := remote w; trace := trace w |}).
Definition del_client {R} (phone : string) : M R unit :=
  fun w => (Ok tt, {| clients := delete phone (clients w); db := db w;
                      remote := remote w; trace := trace w |}).

Definition get_db {R} : M R Db := fun w => (Ok (db w), w).

Definition with_status (st : string) (d : AccountDoc) : AccountDoc :=
  {| session_string := session_string d; status := st; owner := owner d |}.

Definition put_accounts (a : gmap string AccountDoc) (d : Db) : Db :=
  {| accounts := a; forwarding_rules := forwarding_rules d;
     auto_reply_settings := auto_reply_settings d;
     smart_selling_settings := smart_selling_settings d |}.

(** [accounts_collection.update_one({"phone": phone}, {"$set": {"status": st}})]:
    no upsert, so an unknown phone is left unknown.  The store is taken to
    be reachable: the update itself does not raise. *)
Definition db_set_status {R} (phone st : string) : M R unit :=
  fun w => (Ok tt,
            {| clients := clients w;
               db := put_accounts (alter (with_status st) phone (accounts (db w))) (db w);
               remote := remote w;
               trace := trace w ++ [DbSetStatus phone st] |}).

(** [accounts_collection.update_one(..., {"$set": doc}, upsert=True)] *)
Definition db_upsert_account {R} (phone : string) (doc : AccountDoc) : M R unit :=
  fun w => (Ok tt,
            {| clients := clients w;
               db := put_accounts (<[phone := doc]> (accounts (db w))) (db w);
               remote := remote w;
               trace := trace w ++ [DbUpsertAccount phone doc] |}).

(** ** The rule engine: the three handlers of [_run_client] *)

Section RuleEngine.
Context {R : Type} `{Remote R}.

(** the comprehension of lines 112-116: [k.strip().lower()] for every piece
    [k] of the comma-split field with [k.strip()] truthy; a missing field
    counts as the empty text *)
Definition parse_keywords (field : option string) : list string :=
  map (fun k => Py.lower (Py.strip k))
      (filter (fun k => Py.truthy (Py.strip k) = true)
              (Py.split "," (Py.or_empty field))).

(** [handler], lines 89-104: the forwarding handler of one client *)
Definition handler (phone : string) (rules : list ForwardingRule)
    (event : NewMessage) : M R unit :=
  log [Lit "   -> New message in "; FInt (chat_id event);
       Lit " for client "; FStr phone] ;;;
  log [Lit "[FORWARD] New message in "; FInt (chat_id event);
       Lit " for client "; FStr phone] ;;;
  for_each rules (fun rule =>
    src <- int_ (source_chat rule) ;;
    if Z.eqb src (chat_id event) then
      try_except
        (dest_id <- int_ (destination_chat rule) ;;
         call (ForwardTo event dest_id) (r_forward_to event dest_id) ;;;
         log [Lit "      -> Forwarded from "; FInt (chat_id event);
              Lit " to "; FInt dest_id] ;;;
         log [Lit "   -> Forwarded from "; FInt (chat_id event);
              Lit " to "; FInt dest_id])
        any_exception
        (fun e => match e with
                  | ValueError _ =>
                      log [Lit "      -> Invalid destination chat ID: ";
                           FStr (destination_chat rule)]
                  | _ => log [Lit "      -> Error forwarding: "; FExn e]
                  end)
    else ret tt).

(** [settings['message']] of a document whose message was found truthy *)
Definition ar_reply_text (settings : AutoReplySettings) : string :=
  default EmptyString (ar_message settings).
Definition ss_reply_text (settings : SmartSellingSettings) : string :=
  default EmptyString (ss_message settings).

(** [auto_reply_handler], lines 119-133 *)
Definition auto_reply_handler (settings : AutoReplySettings)
    (keywords : list string) (event : NewMessage) : M R unit :=
  if is_private event && negb (out event) then
    let message_text := Py.lower (raw_text event) in
    match keywords with
    | _ :: _ =>
        if existsb (fun k => Py.contains k message_text) keywords then
          call (Reply event (ar_reply_text settings))
               (r_reply event (ar_reply_text settings)) ;;;
          log [Lit "      -> Auto-replied to "; FInt (sender_id event);
               Lit " (keyword matched)"] ;;;
          log [Lit "   -> Auto-replied to "; FInt (sender_id event)]
        else ret tt
    | [] =>
        call (Reply event (ar_reply_text settings))
             (r_reply event (ar_reply_text settings)) ;;;
        log [Lit "      -> Auto-replied to "; FInt (sender_id event)] ;;;
        log [Lit "   -> Auto-replied to "; FInt (sender_id event)]
    end
  else ret tt.

Definition nonempty {A} (l : list A) : bool :=
  match l with [] => false | _ :: _ => true end.

(** The decision of [smart_selling_handler], lines 158-171 *)
Definition should_reply (must_contain maybe_contain : list string)
    (message_text : string) : bool :=
  let must_pass :=
    if nonempty must_contain
    then forallb (fun k => Py.contains k message_text) must_contain
    else true in
  let maybe_pass :=
    if nonempty maybe_contain
    then existsb (fun k => Py.contains k message_text) maybe_contain
    else false in
  if nonempty must_contain && nonempty maybe_contain then
    if must_pass && maybe_pass then true else false
  else if nonempty must_contain then
    if must_pass then true else false
  else if nonempty maybe_contain then
    if maybe_pass then true else false
  else false.

(** [smart_selling_handler], lines 153-175 *)
Definition smart_selling_handler (smart_settings : SmartSellingSettings)
    (must_contain maybe_contain : list string) (event : NewMessage) : M R unit :=
  if is_private event && negb (out event) then
    let message_text := Py.lower (raw_text event) in
    if should_reply must_contain maybe_contain message_text then
      call (Reply event (ss_reply_text smart_settings))
           (r_reply event (ss_reply_text smart_settings)) ;;;
      log [Lit "      -> Smart reply sent to "; FInt (sender_id event)]
    else ret tt
  else ret tt.

End RuleEngine.

(** ** The session supervisor *)

Section Supervisor.
Context {R : Type} `{Remote R}.

(** A registered event handler: the filter of its [events.NewMessage]
    builder and the callback. *)
Record Handler := {
  h_filter : NewMessage -> bool;
  h_callback : NewMessage -> M R unit
}.

(** The client library's dispatcher: handlers run in registration order
    on every update their filter admits; an exception escaping a callback
    is recorded by the library and goes no further. *)
Definition dispatch (handlers : list Handler) (event : NewMessage) : M R unit :=
  for_each handlers (fun h =>
    if h_filter h event then
      try_except (h_callback h event) any_exception (fun _ => ret tt)
    else ret tt).

(** [client.run_until_disconnected()]: the updates that arrive are
    dispatched, then the wait ends, normally or with an error. *)
Definition run_until_disconnected (handlers : list Handler) : M R unit :=
  updates <- (fun w => (Ok (r_inbound (remote w)), w)) ;;
  emit RunUntilDisconnected ;;;
  for_each updates (dispatch handlers) ;;;
  (fun w => let '(r, s) := r_run_until_disconnected (remote w) in
            (r, {| clients := clients w; db := db w; remote := s;
                   trace := trace w |})).

(** [forwarding_rules_collection.find({"account_phone": phone,
    "status": {"$in": ["Active", "active"]}})] *)
Definition is_active (rule : ForwardingRule) : bool :=
  String.eqb (rule_status rule) "Active" || String.eqb (rule_status rule) "active".

Definition active_rules (phone : string) (d : Db) : list ForwardingRule :=
  filter (fun rule => String.eqb (account_phone rule) phone && is_active rule = true)
         (forwarding_rules d).

(** The set comprehension of lines 81-85; [int] may raise on a source
    that passes the digit test (two leading dashes). *)
Fixpoint source_chat_ids (rules : list ForwardingRule) : M R (gset Z) :=
  match rules with
  | [] => ret ∅
  | rule :: rules' =>
      if Py.isdigit (Py.lstrip_char "-" (source_chat rule)) then
        z <- int_ (source_chat rule) ;;
        ids <- source_chat_ids rules' ;;
        ret ({[ z ]} ∪ ids)
      else source_chat_ids rules'
  end.

(** [_run_client], lines 54-186.  The client of line 58 is the record
    [client]: building it is taken to succeed, so the run is described
    from [client.start] on, and a session text that the client library
    refuses is outside the model. *)
Definition _run_client (phone session_string : string) : M R unit :=
  let client := {| client_session := session_string |} in
  try_finally
    (try_except
       (call (Start phone) (r_start phone) ;;;
        set_client phone client ;;;
        db_set_status phone "Online" ;;;
        log [Lit "✅ Client for "; FStr phone;
             Lit " connected and status set to Online."] ;;;
        d <- get_db ;;
        let rules := active_rules phone d in
        h1 <- match rules with
              | [] =>
                  log [Lit "   -> No active rules for "; FStr phone; Lit "."] ;;;
                  ret []
              | _ :: _ =>
                  ids <- source_chat_ids rules ;;
                  log [Lit "   -> "; FStr phone; Lit " is listening to ";
                       FInt (Z.of_nat (size ids)); Lit " source chats."] ;;;
                  ret [ {| h_filter := r_in_chats ids;
                           h_callback := handler phone rules |} ]
              end ;;
        h2 <- match auto_reply_settings d !! phone with
              | Some settings =>
                  if Py.truthy_opt (ar_message settings) then
                    log [Lit "   -> Auto-reply enabled for "; FStr phone; Lit "."] ;;;
                    log [Lit "[INFO] Auto-reply enabled for "; FStr phone; Lit "."] ;;;
                    let keywords := parse_keywords (ar_keywords settings) in
                    ret [ {| h_filter := fun ev => negb (out ev);
                             h_callback := auto_reply_handler settings keywords |} ]
                  else ret []
              | None => ret []
              end ;;
        h3 <- match smart_selling_settings d !! phone with
              | Some smart_settings =>
                  if ss_enabled smart_settings
                     && Py.truthy_opt (ss_message smart_settings) then
                    log [Lit "   -> Smart Selling enabled for "; FStr phone; Lit "."] ;;;
                    let must_contain := parse_keywords (ss_must_contain smart_settings) in
                    let maybe_contain := parse_keywords (ss_maybe_contain smart_settings) in
                    ret [ {| h_filter := fun ev => negb (out ev);
                             h_callback :=
                               smart_selling_handler smart_settings
                                 must_contain maybe_contain |} ]
                  else ret []
              | None => ret []
              end ;;
        run_until_disconnected (h1 ++ h2 ++ h3))
       any_exception
       (fun e =>
          db_set_status phone "Error" ;;;
          log [Lit "[ERROR] Client "; FStr phone;
               Lit " failed to connect: "; FExn e]))
    (cs <- get_clients ;;
     (if decide (is_Some (cs !! phone)) then del_client phone else ret tt) ;;;
     db_set_status phone "Offline" ;;;
     log [Lit "[INFO] Client for "; FStr phone; Lit " disconnected."]).

End Supervisor.

(** ** Group joining *)

Record JoinResult := {
  jr_link : string;
  jr_status : string;
  jr_reason : string
}.

Section GroupJoin.
Context {R : Type} `{Remote R}.

(** One iteration of the loop of lines 200-217 for a non-blank link:
    the attempt, its classification, the pacing sleep. *)
Definition join_one (phone link : string) : M R JoinResult :=
  r <- try_except
         (log [Lit "   -> Client "; FStr phone; Lit " attempting to join ";
               FStr link; Lit "..."] ;;;
          call (JoinChannel link) (r_join link) ;;;
          log [Lit "      -> Success."] ;;;
          ret {| jr_link := link; jr_status := "success";
                 jr_reason := "Successfully joined" |})
         any_exception
         (fun e => match e with
                   | UserAlreadyParticipantError =>
                       log [Lit "      -> Skipped (already a member)."] ;;;
                       ret {| jr_link := link; jr_status := "skipped";
                              jr_reason := "Already a member" |}
                   | _ =>
                       let error_reason := exn_str e in
                       log [Lit "      -> Error: "; FStr error_reason] ;;;
                       ret {| jr_link := link; jr_status := "error";
                              jr_reason := error_reason |}
                   end) ;;
  sleep 5 ;;;
  ret r.

Fixpoint join_loop (phone : string) (group_links : list string)
    (results : list JoinResult) : M R (list JoinResult) :=
  match group_links with
  | [] => ret results
  | link :: rest =>
      if negb (Py.truthy (Py.strip link)) then join_loop phone rest results
      else r <- join_one phone link ;;
           join_loop phone rest (results ++ [r])
  end.

(** [join_groups_for_account], lines 189-219 *)
Definition join_groups_for_account (phone : string)
    (group_links : list string) : M R (list JoinResult) :=
  cs <- get_clients ;;
  match cs !! phone with
  | None =>
      ret (map (fun link => {| jr_link := link; jr_status := "error";
                               jr_reason := "Account is not online" |})
               group_links)
  | Some client => join_loop phone group_links []
  end.

End GroupJoin.

(** ** The fragment of [re] the extractor uses

    The three patterns are sequences of quantified character classes, at
    most one of them a capture group.  Matching is leftmost and greedy with
    backtracking on the repetition counts, as in [re]. *)

Module Re.

Record item := {
  cls : ascii -> bool;
  rmin : nat;
  rmax : option nat;     (* [None]: unbounded *)
  captured : bool
}.

Definition pattern := list item.

Fixpoint take (n : nat) (s : string) : string :=
  match n, s with
  | S n', String c s' => String c (take n' s')
  | _, _ => EmptyString
  end.

Fixpoint drop (n : nat) (s : string) : string :=
  match n, s with
  | S n', String _ s' => drop n' s'
  | _, _ => s
  end.

(** how many leading characters are in the class, up to the bound *)
Fixpoint span (p : ascii -> bool) (bound : option nat) (s : string) : nat :=
  match s with
  | EmptyString => O
  | String c s' =>
      if p c then
        match bound with
        | Some O => O
        | Some (S b) => S (span p (Some b) s')
        | None => S (span p None s')
        end
      else O
  end.

(** try the counts [lo + extra], ..., [lo], longest first *)
Fixpoint backtrack {A} (lo extra : nat) (k : nat -> option A) : option A :=
  match k (lo + extra)%nat with
  | Some a => Some a
  | None =>
      match extra with
      | O => None
      | S extra' => backtrack lo extra' k
      end
  end.

(** the text consumed by each item, when the pattern matches a prefix *)
Fixpoint match_here (p : pattern) (s : string) : option (list string) :=
  match p with
  | [] => Some []
  | it :: p' =>
      let n := span (cls it) (rmax it) s in
      if (n <? rmin it)%nat then None
      else backtrack (rmin it) (n - rmin it)
             (fun k => match match_here p' (drop k s) with
                       | Some pieces => Some (take k s :: pieces)
                       | None => None
                       end)
  end.

Definition concat_pieces (pieces : list string) : string :=
  foldr String.append EmptyString pieces.

(** what [findall] reports for one match: the group if the pattern has
    one, the whole match otherwise *)
Definition report (p : pattern) (pieces : list string) : string :=
  if existsb captured p
  then concat_pieces (map snd (filter (fun ip => captured (fst ip) = true)
                                      (zip p pieces)))
  else concat_pieces pieces.

(** scan left to right; after a match, resume behind it ([skip] counts
    the characters of the match still to pass) *)
Fixpoint findall_from (p : pattern) (skip : nat) (s : string) : list string :=
  match skip with
  | S k =>
      match s with
      | EmptyString => []
      | String _ s' => findall_from p k s'
      end
  | O =>
      match match_here p s with
      | Some pieces =>
          report p pieces ::
          match s with
          | EmptyString => []
          | String _ s' =>
              findall_from p (String.length (concat_pieces pieces) - 1) s'
          end
      | None =>
          match s with
          | EmptyString => []
          | String _ s' => findall_from p O s'
          end
      end
  end.

(** [regex.findall(text)] *)
Definition findall (p : pattern) (s : string) : list string :=
  findall_from p O s.

Definition lit (c : ascii) : item :=
  {| cls := Ascii.eqb c; rmin := 1; rmax := Some 1%nat; captured := false |}.

Definition is_alpha (c : ascii) : bool :=
  let n := nat_of_ascii c in
  (((65 <=? n) && (n <=? 90)) || ((97 <=? n) && (n <=? 122)))%nat.

(** [[a-zA-Z0-9_]] *)
Definition word_char (c : ascii) : bool :=
  is_alpha c || Py.is_digit c || Ascii.eqb c "_".

(** [[a-zA-Z0-9_+/]] *)
Definition link_char (c : ascii) : bool :=
  word_char c || Ascii.eqb c "+" || Ascii.eqb c "/".

(** [[0-9\s\-\(\)]] *)
Definition phone_char (c : ascii) : bool :=
  Py.is_digit c || Py.is_space c || Ascii.eqb c "-"
  || Ascii.eqb c "(" || Ascii.eqb c ")".

(** [@([a-zA-Z0-9_]{5,32})] *)
Definition usernames : pattern :=
  [ lit "@";
    {| cls := word_char; rmin := 5; rmax := Some 32%nat; captured := true |} ].

(** [t\.me/([a-zA-Z0-9_+/]+)] *)
Definition links : pattern :=
  [ lit "t"; lit "."; lit "m"; lit "e"; lit "/";
    {| cls := link_char; rmin := 1; rmax := None; captured := true |} ].

(** [\+?[0-9\s\-\(\)]{8,}] *)
Definition phones : pattern :=
  [ {| cls := Ascii.eqb "+"; rmin := 0; rmax := Some 1%nat; captured := false |};
    {| cls := phone_char; rmin := 8; rmax := None; captured := false |} ].

End Re.

(** ** Extraction *)

Inductive ExtractData :=
| DataText (s : string)
| DataItems (items : list string).

Record ExtractResult := {
  er_status : string;
  er_data : ExtractData
}.

Section Extractor.
Context {R : Type} `{Remote R}.

(** the [patterns] dictionary of lines 319-323 *)
Definition patterns (extract_type : string) : option Re.pattern :=
  if String.eqb extract_type "usernames" then Some Re.usernames
  else if String.eqb extract_type "links" then Some Re.links
  else if String.eqb extract_type "phones" then Some Re.phones
  else None.

(** lines 336-344: what one match adds to the result set *)
Definition normalise (extract_type match_ : string) : string :=
  if String.eqb extract_type "usernames" && negb (Py.startswith match_ "@")
  then "@" +:+ match_
  else if String.eqb extract_type "links" && negb (Py.startswith match_ "t.me/")
  then "t.me/" +:+ match_
  else match_.

(** lines 333-344: the set built from the scanned messages *)
Definition scan_message (extract_type : string) (regex : Re.pattern)
    (results : gset string) (message : Message) : gset string :=
  if Py.truthy_opt (text message) then
    foldl (fun acc match_ => acc ∪ {[ normalise extract_type match_ ]})
          results (Re.findall regex (default EmptyString (text message)))
  else results.

Definition scan_messages (extract_type : string) (regex : Re.pattern)
    (messages : list Message) : gset string :=
  foldl (scan_message extract_type regex) ∅ messages.

(** [sorted(list(results))] *)
Definition sorted (results : gset string) : list string :=
  merge_sort String.le (elements results).

(** [extract_from_channel], lines 308-352 *)
Definition extract_from_channel (phone channel_link extract_type : string)
    (limit : Z) : M R ExtractResult :=
  cs <- get_clients ;;
  match cs !! phone with
  | None => ret {| er_status := "error"; er_data := DataText "Account is not online." |}
  | Some client =>
      match patterns extract_type with
      | None =>
          ret {| er_status := "error"; er_data := DataText "Invalid extraction type." |}
      | Some regex =>
          try_except
            (log [Lit "   -> Client "; FStr phone; Lit " starting extraction from ";
                  FStr channel_link; Lit "..."] ;;;
             messages <- call (IterMessages channel_link limit)
                              (r_iter_messages channel_link limit) ;;
             let results := scan_messages extract_type regex messages in
             log [Lit "   -> Extraction complete. Found ";
                  FInt (Z.of_nat (size results)); Lit " unique items."] ;;;
             ret {| er_status := "success"; er_data := DataItems (sorted results) |})
            any_exception
            (fun e =>
               let error_message := "An error occurred: " +:+ exn_str e in
               log [Lit "   -> Extraction failed: "; FStr error_message] ;;;
               ret {| er_status := "error"; er_data := DataText error_message |})
      end
  end.

End Extractor.

(** ** Broadcast jobs *)

Record JobAck := {
  ack_status : string;
  ack_message : string
}.

Section Broadcast.
Context {R : Type} `{Remote R}.

(** [parts[-k]] for [k >= 1] *)
Definition index_from_end {A} (parts : list A) (k : nat) : M R A :=
  if (k <=? length parts)%nat then
    match parts !! (length parts - k)%nat with
    | Some a => ret a
    | None => raise IndexError
    end
  else raise IndexError.

(** lines 386-393: the delivery to one target *)
Definition deliver (chat : string) (message_id : Z) (hide_sender : bool)
    (target : string) : M R unit :=
  if hide_sender then
    message_to_send <- call (GetMessages chat message_id)
                            (r_get_messages chat message_id) ;;
    match message_to_send with
    | Some m => call (SendMessage target m) (r_send_message target m)
    | None => ret tt
    end
  else
    call (ForwardMessages target message_id chat)
         (r_forward_messages target message_id chat).

(** lines 384-399: the body of the loop over the targets *)
Definition forward_one (chat : string) (message_id cycle_delay : Z)
    (hide_sender : bool) (target : string) : M R unit :=
  try_except
    (log [Lit "      -> Forwarding to "; FStr target; Lit "..."] ;;;
     deliver chat message_id hide_sender target ;;;
     log [Lit "      -> Success. Waiting for cycle delay of ";
          FInt cycle_delay; Lit "s."] ;;;
     sleep cycle_delay)
    any_exception
    (fun e => log [Lit "      -> Failed to forward to "; FStr target;
                   Lit ": "; FExn e]).

(** [_forwarding_job_runner], lines 369-404 *)
Definition _forwarding_job_runner (client : Client) (message_link : string)
    (delay cycle_delay : Z) (targets : list string) (hide_sender : bool)
    : M R unit :=
  try_except
    (let parts := Py.split "/" (Py.rstrip_char "/" message_link) in
     chat <- index_from_end parts 2 ;;
     last_part <- index_from_end parts 1 ;;
     message_id <- int_ last_part ;;
     log [Lit "   -> Starting forwarding job for message "; FInt message_id;
          Lit " from "; FStr chat] ;;;
     sleep delay ;;;
     for_each targets (forward_one chat message_id cycle_delay hide_sender) ;;;
     log [Lit "   -> Forwarding job for "; FInt message_id; Lit " completed."])
    any_exception
    (fun e => log [Lit "❌ Error in forwarding job runner: "; FExn e]).

(** [start_forwarding_job], lines 355-367: the runner becomes a
    background task, the caller gets its acknowledgement at once *)
Definition start_forwarding_job (phone message_link : string)
    (delay cycle_delay : Z) (targets : list string) (hide_sender : bool)
    : M R JobAck :=
  cs <- get_clients ;;
  match cs !! phone with
  | None => ret {| ack_status := "error"; ack_message := "Account is not online." |}
  | Some client =>
      emit (Spawn "_forwarding_job_runner" message_link) ;;;
      ret {| ack_status := "success";
             ack_message := "Forwarding job started successfully in the background." |}
  end.

End Broadcast.

(** ** Onboarding over the websocket *)

Record User := { username : string }.

(** The arguments the repository passes to [start_interactive_session]. *)
Inductive pyval :=
| PWebSocket
| PUser (u : User).

Section Onboarding.
Context {R : Type} `{Remote R}.

(** run a block and hand back how it ended, as a value *)
Definition attempt {A} (m : M R A) : M R (result A) :=
  fun w => let '(r, w') := m w in (Ok r, w').

Definition ws_prompt (message : string) : M R unit :=
  call (WsSendJson "prompt" message) (r_ws_send_json "prompt" message).

(** lines 269-273; [correct_phone_number] is what the [try] block had
    assigned when the exception was raised *)
Definition login_failed (correct_phone_number : string) (e : exn) : M R unit :=
  let error_message := exn_str e in
  let log_identifier :=
    if Py.truthy correct_phone_number then correct_phone_number else "the user" in
  log [Lit "❌ Login failed for "; FStr log_identifier; Lit ": ";
       FStr error_message] ;;;
  call (WsSendJson "error" ("An error occurred: " +:+ error_message))
       (r_ws_send_json "error" ("An error occurred: " +:+ error_message)).

(** lines 228-247, up to the assignment of [correct_phone_number] *)
Definition authenticate : M R (Me * string) :=
  call Connect r_connect ;;;
  ws_prompt "Please enter your phone number (e.g., +15551234567):" ;;;
  phone_input <- call WsReceiveJson r_ws_receive_json ;;
  phone_code_hash <- call (SendCodeRequest phone_input)
                          (r_send_code_request phone_input) ;;
  ws_prompt "Enter the code you received in Telegram:" ;;;
  code <- call WsReceiveJson r_ws_receive_json ;;
  try_except
    (call (SignInCode phone_input code)
          (r_sign_in_code phone_input code phone_code_hash))
    (fun e => match e with SessionPasswordNeededError => Some tt | _ => None end)
    (fun _ =>
       ws_prompt "Two-factor authentication is enabled. Please enter your password:" ;;;
       password <- call WsReceiveJson r_ws_receive_json ;;
       call (SignInPassword password) (r_sign_in_password password)) ;;;
  me <- call GetMe r_get_me ;;
  session <- (fun w => (Ok (r_session_save (remote w)), w)) ;;
  emit SessionSave ;;;
  ret (me, session).

(** lines 250-267 *)
Definition persist (owner_user : User) (correct_phone_number session : string)
    : M R unit :=
  let account_doc := {| session_string := session; status := "Online";
                        owner := Some (username owner_user) |} in
  db_upsert_account correct_phone_number account_doc ;;;
  log [Lit "Login successful for "; FStr correct_phone_number;
       Lit ". Session saved."] ;;;
  emit (Spawn "_run_client" correct_phone_number) ;;;
  call (WsSendJson "success"
          ("Successfully logged in and saved account " +:+ correct_phone_number +:+ "!"))
       (r_ws_send_json "success"
          ("Successfully logged in and saved account " +:+ correct_phone_number +:+ "!")).

(** [start_interactive_session], lines 223-276 *)
Definition start_interactive_session (owner_user : User) : M R unit :=
  try_finally
    (r1 <- attempt authenticate ;;
     match r1 with
     | Raise e => login_failed EmptyString e
     | Ok (me, session) =>
         let correct_phone_number := "+" +:+ me_phone me in
         r2 <- attempt (persist owner_user correct_phone_number session) ;;
         match r2 with
         | Raise e => login_failed correct_phone_number e
         | Ok _ => ret tt
         end
     end)
    (connected <- (fun w => (Ok (r_is_connected (remote w)), w)) ;;
     if connected : bool then call Disconnect r_disconnect else ret tt).

(** *** Calling a method: binding positional arguments *)

Record Method := {
  m_qualname : string;
  m_params : list string;        (* after [self] *)
  m_body : list pyval -> M R unit
}.

Definition quoted (name : string) : string := "'" +:+ name +:+ "'".

Fixpoint name_list (names : list string) : string :=
  match names with
  | [] => EmptyString
  | [a] => quoted a
  | [a; b] => quoted a +:+ ", and " +:+ quoted b
  | a :: rest => quoted a +:+ ", " +:+ name_list rest
  end.

Definition missing_names (names : list string) : string :=
  match names with
  | [a; b] => quoted a +:+ " and " +:+ quoted b
  | _ => name_list names
  end.

Definition plural (n : nat) : string := if (n =? 1)%nat then EmptyString else "s".

(** the interpreter's [TypeError] for a call with too few or too many
    positional arguments; the counts of the second message include [self] *)
Definition arity_error (m : Method) (given : nat) : option exn :=
  let wanted := length (m_params m) in
  if (given <? wanted)%nat then
    let missing := drop given (m_params m) in
    Some (TypeError (m_qualname m +:+ "() missing " +:+ pretty (length missing)
                     +:+ " required positional argument" +:+ plural (length missing)
                     +:+ ": " +:+ missing_names missing))
  else if (wanted <? given)%nat then
    Some (TypeError (m_qualname m +:+ "() takes " +:+ pretty (S wanted)
                     +:+ " positional argument" +:+ plural (S wanted)
                     +:+ " but " +:+ pretty (S given) +:+ " were given"))
  else None.

(** a method call [obj.method(args)]: the arguments are bound before the body runs *)
Definition py_call (m : Method) (args : list pyval) : M R unit :=
  match arity_error m (length args) with
  | Some e => raise e
  | None => m_body m args
  end.

(** the method object [WorkerManager.start_interactive_session]; its body
    is given for arguments of the annotated kinds *)
Definition start_interactive_session_method : Method :=
  {| m_qualname := "WorkerManager.start_interactive_session";
     m_params := ["websocket"; "owner_user"];
     m_body := fun args =>
       match args with
       | [PWebSocket; PUser owner_user] => start_interactive_session owner_user
       | _ => raise (TypeError "argument of an unexpected kind")
       end |}.

(** [websocket_add_account], main.py lines 122-129 *)
Definition websocket_add_account : M R unit :=
  call WsAccept r_ws_accept ;;;
  try_except
    (py_call start_interactive_session_method [PWebSocket])
    (fun e => match e with WebSocketDisconnect => Some tt | _ => None end)
    (fun _ => ret tt).

End Onboarding.

(** ** A scripted remote, for concrete runs

    The answers depend on the arguments of a call only; the onboarding
    calls all succeed. *)

Record Script := {
  on_start : result unit;
  on_forward_to : Z -> result unit;
  on_reply : result unit;
  inbound : list NewMessage;
  on_disconnect : result unit;
  on_join : string -> result unit;
  channel_messages : result (list Message);
  stored_message : result (option Message);
  on_deliver : string -> result unit
}.

#[export] Instance script_remote : Remote Script := {|
  r_start := fun _ s => (on_start s, s);
  r_forward_to := fun _ dest s => (on_forward_to s dest, s);
  r_reply := fun _ _ s => (on_reply s, s);
  r_inbound := inbound;
  r_in_chats := fun ids ev => bool_decide (chat_id ev ∈ ids);
  r_run_until_disconnected := fun s => (on_disconnect s, s);
  r_join := fun link s => (on_join s link, s);
  r_iter_messages := fun _ _ s => (channel_messages s, s);
  r_get_messages := fun _ _ s => (stored_message s, s);
  r_send_message := fun target _ s => (on_deliver s target, s);
  r_forward_messages := fun target _ _ s => (on_deliver s target, s);
  r_connect := fun s => (Ok tt, s);
  r_is_connected := fun _ => true;
  r_disconnect := fun s => (Ok tt, s);
  r_send_code_request := fun _ s => (Ok "hash", s);
  r_sign_in_code := fun _ _ _ s => (Ok tt, s);
  r_sign_in_password := fun _ s => (Ok tt, s);
  r_get_me := fun s => (Ok {| me_phone := "15551234567" |}, s);
  r_session_save := fun _ => "session";
  r_ws_accept := fun s => (Ok tt, s);
  r_ws_send_json := fun _ _ s => (Ok tt, s);
  r_ws_receive_json := fun s => (Ok (Some "input"), s)
|}.

(** everything succeeds, nothing arrives, the channel is empty *)
Definition quiet : Script := {|
  on_start := Ok tt;
  on_forward_to := fun _ => Ok tt;
  on_reply := Ok tt;
  inbound := [];
  on_disconnect := Ok tt;
  on_join := fun _ => Ok tt;
  channel_messages := Ok [];
  stored_message := Ok None;
  on_deliver := fun _ => Ok tt
|}.

Definition empty_db : Db := {|
  accounts := ∅;
  forwarding_rules := [];
  auto_reply_settings := ∅;
  smart_selling_settings := ∅
|}.

Definition world_of {R} (cs : gmap string Client) (d : Db) (s : R) : World R :=
  {| clients := cs; db := d; remote := s; trace := [] |}.

(** ** Reading a trace *)

Definition replies (tr : list effect) : list string :=
  omap (fun e => match e with Reply _ m => Some m | _ => None end) tr.

Definition forwards (tr : list effect) : list Z :=
  omap (fun e => match e with ForwardTo _ d => Some d | _ => None end) tr.

Definition status_writes (phone : string) (tr : list effect) : list string :=
  omap (fun e => match e with
                 | DbSetStatus p st => if String.eqb p phone then Some st else None
                 | _ => None
                 end) tr.

(** the joins and the sleeps of a trace, in order *)
Definition is_pacing (e : effect) : bool :=
  match e with JoinChannel _ | Sleep _ => true | _ => false end.
Definition pacing (tr : list effect) : list effect :=
  filter (fun e => is_pacing e = true) tr.

(** [k] occurs in [s] as a contiguous piece *)
Definition is_substring (k s : string) : Prop :=
  exists pre post, s = pre +:+ k +:+ post.

(** ** Vocabulary of the statements and sample data *)

Definition sample_rule (src dst : string) : ForwardingRule :=
  {| account_phone := "+15550001"; source_chat := src;
     destination_chat := dst; rule_status := "active" |}.

Definition group_message (chat : Z) (txt : string) : NewMessage :=
  {| chat_id := chat; sender_id := 42; raw_text := txt;
     is_private := false; out := false |}.

Definition private_message (txt : string) : NewMessage :=
  {| chat_id := 42; sender_id := 42; raw_text := txt;
     is_private := true; out := false |}.

Definition online_account : AccountDoc :=
  {| session_string := "session"; status := "Online"; owner := Some "alice" |}.

Definition db_with_rules (rules : list ForwardingRule) : Db :=
  {| accounts := {[ "+15550001" := online_account ]};
     forwarding_rules := rules;
     auto_reply_settings := ∅;
     smart_selling_settings := ∅ |}.

(** the destination a rule contributes for an event, if any *)
Definition rule_target (event : NewMessage) (rule : ForwardingRule) : option Z :=
  match Py.int (source_chat rule) with
  | Some src => if Z.eqb src (chat_id event) then Py.int (destination_chat rule) else None
  | None => None
  end.

Definition not_online (link : string) : JoinResult :=
  {| jr_link := link; jr_status := "error"; jr_reason := "Account is not online" |}.

Definition non_blank (link : string) : Prop := Py.truthy (Py.strip link) = true.

(** every sleep of the trace is followed by a later join *)
Definition delay_only_before_next_attempt (tr : list effect) : Prop :=
  forall (i : nat) (seconds : Z),
    tr !! i = Some (Sleep seconds) ->
    exists (j : nat) (link : string), (i < j)%nat /\ tr !! j = Some (JoinChannel link).

Definition one_session : gmap string Client :=
  {[ "+15550001" := {| client_session := "session" |} ]}.

(** the line logged when the runner turns to a target *)
Definition attempt_log (target : string) : effect :=
  Log [Lit "      -> Forwarding to "; FStr target; Lit "..."].

(** the targets the runner turned to, in order *)
Definition attempted (tr : list effect) : list string :=
  omap (fun e => match e with
                 | Log [Lit "      -> Forwarding to "; FStr target; Lit "..."] => Some target
                 | _ => None
                 end) tr.

Definition add_trace {R} (w : World R) (es : list effect) : World R :=
  {| clients := clients w; db := db w; remote := remote w;
     trace := (trace w ++ es)%list |}.


(** the reference has no chat segment, or its last segment is no integer *)
Definition unparsable (message_link : string) : Prop :=
  let parts := Py.split "/" (Py.rstrip_char "/" message_link) in
  (length parts < 2)%nat
  \/ exists last_part, last parts = Some last_part /\ Py.int last_part = None.

(** what one message adds to the result set *)
Definition found_in (extract_type : string) (regex : Re.pattern)
    (message : Message) (x : string) : Prop :=
  exists txt match_,
    text message = Some txt /\ txt <> EmptyString
    /\ match_ ∈ Re.findall regex txt /\ x = normalise extract_type match_.

Definition prompts (tr : list effect) : list string :=
  omap (fun e => match e with WsSendJson _ message => Some message | _ => None end) tr.

(** ** The manager's other operations *)

Section Manager.
Context {R : Type} `{Remote R}.

(** [accounts_collection.find({"status": "Online"})]; the store gives no
    order among the documents *)
Definition online_accounts (d : Db) : list (string * AccountDoc) :=
  filter (fun kv => String.eqb (status kv.2) "Online" = true)
         (map_to_list (accounts d)).

(** [startup], lines 31-41: one background task per account stored Online *)
Definition startup : M R unit :=
  log [Lit "🤖 WorkerManager starting up..."] ;;;
  d <- get_db ;;
  for_each (online_accounts d) (fun account =>
    log [Lit "   -> Launching client for "; FStr account.1] ;;;
    emit (Spawn "_run_client" account.1)).

(** [_update_account_status], lines 43-52: the update with its own
    [try]/[except]; what it prints is not part of the model, and with a
    reachable store the handler is not entered *)
Definition _update_account_status (phone st : string) : M R unit :=
  try_except (db_set_status phone st) any_exception (fun _ => ret tt).

(** [disconnect_client], lines 450-466 *)
Definition disconnect_client (phone : string) : M R bool :=
  cs <- get_clients ;;
  match cs !! phone with
  | None => ret false
  | Some client =>
      try_except
        (call Disconnect r_disconnect ;;;
         del_client phone ;;;
         _update_account_status phone "Offline" ;;;
         log [Lit "[INFO] Client "; FStr phone; Lit " manually disconnected."] ;;;
         ret true)
        any_exception
        (fun e =>
           log [Lit "[ERROR] Failed to disconnect client "; FStr phone;
                Lit ": "; FExn e] ;;;
           ret false)
  end.

End Manager.

(** ** Vocabulary of the further statements *)

(** a computation that leaves the registry and the document store alone *)
Definition keeps_store {R A} (m : M R A) : Prop :=
  forall w : World R, clients (m w).2 = clients w /\ db (m w).2 = db w.

(** the phones for which a run of the supervisor was spawned *)
Definition launched (tr : list effect) : list string :=
  omap (fun e => match e with
                 | Spawn task phone =>
                     if String.eqb task "_run_client" then Some phone else None
                 | _ => None
                 end) tr.

(** a source that passes the digit test of the listen set and is no
    integer literal *)
Definition misread_source (rule : ForwardingRule) : Prop :=
  Py.isdigit (Py.lstrip_char "-" (source_chat rule)) = true
  /\ Py.int (source_chat rule) = None.

Definition stored_offline (phone : string) (d : Db) : Db :=
  put_accounts (alter (with_status "Offline") phone (accounts d)) d.

(** the store [d'] differs from [d] at most in the status of the account
    document of [phone]; no document is created *)
Definition same_but_status (phone : string) (d d' : Db) : Prop :=
  (forall other, other <> phone -> accounts d' !! other = accounts d !! other)
  /\ match accounts d !! phone with
     | Some doc => exists st, accounts d' !! phone = Some (with_status st doc)
     | None => accounts d' !! phone = None
     end
  /\ forwarding_rules d' = forwarding_rules d
     /\ auto_reply_settings d' = auto_reply_settings d
     /\ smart_selling_settings d' = smart_selling_settings d.

(** what a join result can say: joined, already a member, or the text of
    the failure *)
Definition join_result_shape (r : JoinResult) : Prop :=
  (jr_status r = "success" /\ jr_reason r = "Successfully joined")
  \/ (jr_status r = "skipped" /\ jr_reason r = "Already a member")
  \/ (jr_status r = "error"
      /\ exists e, e <> UserAlreadyParticipantError /\ jr_reason r = exn_str e).

(** a remote where one channel is already joined and one does not exist *)
Definition mixed_joins : Script := {|
  on_start := Ok tt;
  on_forward_to := fun _ => Ok tt;
  on_reply := Ok tt;
  inbound := [];
  on_disconnect := Ok tt;
  on_join := fun link =>
    if String.eqb link "@mine" then Raise UserAlreadyParticipantError
    else if String.eqb link "@gone" then Raise (RPCError "USERNAME_INVALID")
    else Ok tt;
  channel_messages := Ok [];
  stored_message := Ok None;
  on_deliver := fun _ => Ok tt
|}.

(** every character of the text is in the class *)
Fixpoint all_chars (p : ascii -> bool) (s : string) : bool :=
  match s with
  | EmptyString => true
  | String c s' => p c && all_chars p s'
  end.

(** a piece of text is an admissible repetition of a pattern item *)
Definition piece_ok (it : Re.item) (piece : string) : Prop :=
  (Re.rmin it <= String.length piece)%nat
  /\ (forall b, Re.rmax it = Some b -> (String.length piece <= b)%nat)
  /\ all_chars (Re.cls it) piece = true.

(** the text occurs in one of the scanned messages *)
Definition occurs_in (messages : list Message) (x : string) : Prop :=
  exists m txt, m ∈ messages /\ text m = Some txt /\ is_substring x txt.

Definition one_text (txt : string) : list Message := [ {| text := Some txt |} ].

(** the text has no slash *)
Definition no_slash (s : string) : Prop :=
  all_chars (fun c => negb (Ascii.eqb c "/")) s = true.

Section HandlerLoop.
Context {R : Type} `{Remote R}.

(** the body of the loop of [handler], lines 94-104, for one rule *)
Definition forward_rule (event : NewMessage) (rule : ForwardingRule) : M R unit :=
  src <- int_ (source_chat rule) ;;
  if Z.eqb src (chat_id event) then
    try_except
      (dest_id <- int_ (destination_chat rule) ;;
       call (ForwardTo event dest_id) (r_forward_to event dest_id) ;;;
       log [Lit "      -> Forwarded from "; FInt (chat_id event);
            Lit " to "; FInt dest_id] ;;;
       log [Lit "   -> Forwarded from "; FInt (chat_id event);
            Lit " to "; FInt dest_id])
      any_exception
      (fun e => match e with
                | ValueError _ =>
                    log [Lit "      -> Invalid destination chat ID: ";
                         FStr (destination_chat rule)]
                | _ => log [Lit "      -> Error forwarding: "; FExn e]
                end)
  else ret tt.

End HandlerLoop.

(** the text has no comma *)
Definition no_comma (s : string) : Prop :=
  all_chars (fun c => negb (Ascii.eqb c ",")) s = true.

Definition four_rules : list ForwardingRule :=
  [sample_rule "100" "200"; sample_rule "7" "300";
   sample_rule "100" "x"; sample_rule "100" "400"].

(** ** The HTTP endpoints of [main.py] that write what the worker reads

    The endpoint bodies, after the authentication dependency has let the
    request through.  Documents are kept as far as the worker reads them
    (no timestamps, identifiers or filters). *)

Inductive http (A : Type) :=
| Respond (a : A)
| HttpError (code : Z) (detail : string).
Arguments Respond {A} a.
Arguments HttpError {A} code detail.

(** the request bodies *)
Record ForwardingRuleIn := {
  in_account_phone : string;
  in_source_chat : string;
  in_destination_chat : string;
  in_filters : option string
}.

Record AutoReplyIn := {
  ari_account_phone : string;
  ari_message : string;
  ari_keywords : option string
}.

Record SmartSellingIn := {
  ssi_account_phone : string;
  ssi_enabled : bool;
  ssi_must_contain : option string;
  ssi_maybe_contain : option string;
  ssi_message : string
}.

Definition put_rules (rules : list ForwardingRule) (d : Db) : Db :=
  {| accounts := accounts d; forwarding_rules := rules;
     auto_reply_settings := auto_reply_settings d;
     smart_selling_settings := smart_selling_settings d |}.

Definition put_auto_reply (m : gmap string AutoReplySettings) (d : Db) : Db :=
  {| accounts := accounts d; forwarding_rules := forwarding_rules d;
     auto_reply_settings := m;
     smart_selling_settings := smart_selling_settings d |}.

Definition put_smart_selling (m : gmap string SmartSellingSettings) (d : Db) : Db :=
  {| accounts := accounts d; forwarding_rules := forwarding_rules d;
     auto_reply_settings := auto_reply_settings d;
     smart_selling_settings := m |}.

Definition set_db {R} (d : Db) : M R unit :=
  fun w => (Ok tt, {| clients := clients w; db := d; remote := remote w;
                      trace := trace w |}).

Section Endpoints.
Context {R : Type} `{Remote R}.

(** [add_forwarding_rule], main.py lines 216-233: the document is inserted
    with status "active" *)
Definition add_forwarding_rule (rule : ForwardingRuleIn) : M R JobAck :=
  d <- get_db ;;
  let rule_doc := {| account_phone := in_account_phone rule;
                     source_chat := in_source_chat rule;
                     destination_chat := in_destination_chat rule;
                     rule_status := "active" |} in
  set_db (put_rules (forwarding_rules d ++ [rule_doc]) d) ;;;
  ret {| ack_status := "success"; ack_message := "Rule added successfully" |}.

(** [set_auto_reply_settings], main.py lines 271-291: [replace_one] with
    [upsert=True] on the account's document *)
Definition set_auto_reply_settings (settings : AutoReplyIn) : M R JobAck :=
  d <- get_db ;;
  let settings_doc := {| ar_message := Some (ari_message settings);
                         ar_keywords := ari_keywords settings |} in
  set_db (put_auto_reply
            (<[ari_account_phone settings := settings_doc]> (auto_reply_settings d)) d) ;;;
  ret {| ack_status := "success"; ack_message := "Settings saved successfully" |}.

(** [set_smart_selling_settings], main.py lines 353-375 *)
Definition set_smart_selling_settings (settings : SmartSellingIn) : M R JobAck :=
  d <- get_db ;;
  let settings_doc := {| ss_enabled := ssi_enabled settings;
                         ss_message := Some (ssi_message settings);
                         ss_must_contain := ssi_must_contain settings;
                         ss_maybe_contain := ssi_maybe_contain settings |} in
  set_db (put_smart_selling
            (<[ssi_account_phone settings := settings_doc]> (smart_selling_settings d)) d) ;;;
  ret {| ack_status := "success"; ack_message := "Configuration saved successfully" |}.

(** [delete_account], main.py lines 145-150: [delete_one] on the account
    document; 404 when nothing was deleted *)
Definition delete_account (phone : string) : M R (http string) :=
  d <- get_db ;;
  match accounts d !! phone with
  | None => ret (HttpError 404 "Account not found")
  | Some _ =>
      set_db (put_accounts (delete phone (accounts d)) d) ;;;
      ret (Respond "success")
  end.

End Endpoints.

(** a computation that sends no reply *)
Definition never_replies {R A} (m : M R A) : Prop :=
  forall w : World R, replies (trace (m w).2) = replies (trace w).

Definition is_reply (e : effect) : bool :=
  match e with Reply _ _ => true | _ => false end.

(** a remote where everything succeeds and the given messages arrive *)
Definition hears (events : list NewMessage) : Script := {|
  on_start := Ok tt;
  on_forward_to := fun _ => Ok tt;
  on_reply := Ok tt;
  inbound := events;
  on_disconnect := Ok tt;
  on_join := fun _ => Ok tt;
  channel_messages := Ok [];
  stored_message := Ok None;
  on_deliver := fun _ => Ok tt
|}.

(** one account with a forwarding rule, an auto-reply document whose
    message is empty and a smart selling document that is switched off *)
Definition db_without_replies : Db := {|
  accounts := {[ "+15550001" := online_account ]};
  forwarding_rules := [sample_rule "100" "200"];
  auto_reply_settings :=
    {[ "+15550001" := {| ar_message := Some EmptyString; ar_keywords := Some "price" |} ]};
  smart_selling_settings :=
    {[ "+15550001" := {| ss_enabled := false; ss_message := Some "offer";
                         ss_must_contain := Some "buy"; ss_maybe_contain := None |} ]}
|}.

(** ** Replies on a session *)

(** what the auto-reply configuration of an account answers to a message
    that arrives on its session: the configured message, or nothing *)
Definition auto_reply_answer (config : option AutoReplySettings)
    (event : NewMessage) : list string :=
  match config with
  | Some settings =>
      let keywords := parse_keywords (ar_keywords settings) in
      if Py.truthy_opt (ar_message settings)
         && is_private event && negb (out event)
         && (negb (nonempty keywords)
             || existsb (fun k => Py.contains k (Py.lower (raw_text event))) keywords)
      then [ar_reply_text settings] else []
  | None => []
  end.

(** what the smart selling configuration of an account answers *)
Definition smart_selling_answer (config : option SmartSellingSettings)
    (event : NewMessage) : list string :=
  match config with
  | Some smart_settings =>
      if ss_enabled smart_settings && Py.truthy_opt (ss_message smart_settings)
         && is_private event && negb (out event)
         && should_reply (parse_keywords (ss_must_contain smart_settings))
                         (parse_keywords (ss_maybe_contain smart_settings))
                         (Py.lower (raw_text event))
      then [ss_reply_text smart_settings] else []
  | None => []
  end.

(** the callback sends the replies [answer event], whatever the outcome of
    its calls *)
Definition answers {R} (callback : NewMessage -> M R unit)
    (answer : NewMessage -> list string) : Prop :=
  forall (event : NewMessage) (w : World R),
    replies (trace (callback event w).2) = (replies (trace w) ++ answer event)%list.

(** the active rules of the account can be turned into a listen set *)
Definition listen_set_readable (phone : string) (d : Db) : Prop :=
  forall rule, rule ∈ active_rules phone d -> ~ misread_source rule.

(** an account with a forwarding rule, an auto-reply configuration with
    keywords and a smart selling configuration *)
Definition db_with_replies : Db := {|
  accounts := {[ "+15550001" := online_account ]};
  forwarding_rules := [sample_rule "100" "200"];
  auto_reply_settings :=
    {[ "+15550001" := {| ar_message := Some "We are open 9-5";
                         ar_keywords := Some "Price, hours ,," |} ]};
  smart_selling_settings :=
    {[ "+15550001" := {| ss_enabled := true;
                         ss_message := Some "Here is our catalogue";
                         ss_must_contain := Some "buy";
                         ss_maybe_contain := Some "phone,laptop" |} ]}
|}.

(** a private message the account sent itself *)
Definition own_message (txt : string) : NewMessage :=
  {| chat_id := 42; sender_id := 7; raw_text := txt;
     is_private := true; out := true |}.

Definition sample_updates : list NewMessage :=
  [private_message "What are your HOURS?";
   group_message 100 "price of a laptop to buy";
   private_message "hello";
   own_message "our hours are 9-5";
   private_message "I want to BUY a Laptop, what is the price?"].

(** ** The items of the three kinds, in the words of the specification *)

Module Kinds.

(** the character is one of the listed ones *)
Definition one_of (chars : string) (c : ascii) : bool :=
  existsb (Ascii.eqb c) (list_ascii_of_string chars).

(** [A-Za-z0-9_] *)
Definition name_char : ascii -> bool :=
  one_of "ABCDEFGHIJKLMNOPQRSTUVWXYZabcdefghijklmnopqrstuvwxyz0123456789_".

(** [A-Za-z0-9_+/] *)
Definition path_char (c : ascii) : bool := name_char c || one_of "+/" c.

(** white space: tab, line feed, vertical tab, form feed, carriage
    return, the separators 28 to 31 and the blank *)
Definition white_space (c : ascii) : bool :=
  existsb (Nat.eqb (nat_of_ascii c)) [9; 10; 11; 12; 13; 28; 29; 30; 31; 32]%nat.

(** [0-9\s\-()] *)
Definition number_char (c : ascii) : bool :=
  one_of "0123456789" c || white_space c || one_of "-()" c.

(** the text begins with a character of the class *)
Definition begins_in (cls : ascii -> bool) (s : string) : Prop :=
  exists c rest, s = String c rest /\ cls c = true.

(** [m] is the user name at the head of [s]: an at sign and the name
    characters that follow it, 5 at least and the first 32 at most *)
Definition username_at (s m : string) : Prop :=
  exists name rest,
    s = "@" +:+ name +:+ rest /\ m = "@" +:+ name
    /\ all_chars name_char name = true
    /\ (5 <= String.length name <= 32)%nat
    /\ (String.length name = 32%nat \/ ~ begins_in name_char rest).

(** [m] is the link at the head of [s]: "t.me/" and all the path
    characters that follow it, one at least *)
Definition link_at (s m : string) : Prop :=
  exists path rest,
    s = "t.me/" +:+ path +:+ rest /\ m = "t.me/" +:+ path
    /\ all_chars path_char path = true
    /\ (1 <= String.length path)%nat
    /\ ~ begins_in path_char rest.

(** [m] is the phone number at the head of [s]: a plus sign if there is
    one, and all the number characters that follow, 8 at least *)
Definition phone_at (s m : string) : Prop :=
  exists plus body rest,
    s = plus +:+ body +:+ rest /\ m = plus +:+ body
    /\ (plus = EmptyString \/ plus = "+")
    /\ all_chars number_char body = true
    /\ (8 <= String.length body)%nat
    /\ ~ begins_in number_char rest.

Definition item_at (extract_type : string) (s m : string) : Prop :=
  (extract_type = "usernames" /\ username_at s m)
  \/ (extract_type = "links" /\ link_at s m)
  \/ (extract_type = "phones" /\ phone_at s m).

(** The items of a text.  The text is read from left to right: where an
    item begins it is taken and reading resumes behind it; elsewhere one
    character is passed. *)
Inductive items_of (extract_type : string) : string -> list string -> Prop :=
| items_end : items_of extract_type EmptyString []
| items_pass (c : ascii) (s : string) (items : list string) :
    (forall m, ~ item_at extract_type (String c s) m) ->
    items_of extract_type s items ->
    items_of extract_type (String c s) items
| items_take (s m rest : string) (items : list string) :
    item_at extract_type s m -> s = m +:+ rest ->
    items_of extract_type rest items ->
    items_of extract_type s (m :: items).

End Kinds.

(** the kind is one of the three *)
Definition supported (extract_type : string) : Prop :=
  extract_type = "usernames" \/ extract_type = "links" \/ extract_type = "phones".

(** a remote whose channel holds the given messages *)
Definition channel_with (messages : list Message) : Script := {|
  on_start := Ok tt;
  on_forward_to := fun _ => Ok tt;
  on_reply := Ok tt;
  inbound := [];
  on_disconnect := Ok tt;
  on_join := fun _ => Ok tt;
  channel_messages := Ok messages;
  stored_message := Ok None;
  on_deliver := fun _ => Ok tt
|}.

(** * Properties *)

(** ** Text *)

Lemma prefix_spec (k s : string) :
  String.prefix k s = true <-> exists post, s = k +:+ post.
Proof.
  revert s. induction k as [|c k IH]; intros s.
  - split; [intros _; exists s; reflexivity | intros _; by destruct s].
  - destruct s as [|d s]; cbn.
    + split; [done | intros [post Hp]; discriminate].
    + destruct (ascii_dec c d) as [->|Hne].
      * rewrite IH. split; intros [post Hp]; exists post.
        -- cbn. by rewrite Hp.
        -- cbn in Hp. by injection Hp.
      * split; [done | intros [post Hp]; cbn in Hp; injection Hp; congruence].
Qed.

Lemma contains_spec (k s : string) :
  Py.contains k s = true <-> is_substring k s.
Proof.
  induction s as [|c s IH]; cbn [Py.contains].
  - rewrite orb_false_r, prefix_spec. split.
    + intros [post Hp]. by exists EmptyString, post.
    + intros [[|d pre] [post Hp]]; [by exists post | discriminate].
  - rewrite orb_true_iff, prefix_spec, IH. split.
    + intros [[post Hp] | (pre & post & Hp)].
      * by exists EmptyString, post.
      * exists (String c pre), post. cbn. by rewrite Hp.
    + intros ([|d pre] & post & Hp).
      * left. by exists post.
      * right. cbn in Hp. injection Hp as -> ->. by exists pre, post.
Qed.

Lemma existsb_contains (keywords : list string) (s : string) :
  existsb (fun k => Py.contains k s) keywords = true
  <-> exists k, k ∈ keywords /\ is_substring k s.
Proof.
  rewrite existsb_exists. split; intros (k & Hin & Hk); exists k.
  - by rewrite list_elem_of_In, <- contains_spec.
  - by rewrite <- list_elem_of_In, contains_spec.
Qed.

Lemma forallb_contains (keywords : list string) (s : string) :
  forallb (fun k => Py.contains k s) keywords = true
  <-> forall k, k ∈ keywords -> is_substring k s.
Proof.
  rewrite forallb_forall. split; intros Hall k Hin.
  - apply contains_spec, Hall. by apply list_elem_of_In.
  - apply contains_spec, Hall. by apply list_elem_of_In.
Qed.

(** the parsed keywords: the pieces between commas, trimmed and
    lower-cased, blank pieces dropped *)
Lemma parse_keywords_elem (field : option string) (k : string) :
  k ∈ parse_keywords field
  <-> exists piece, piece ∈ Py.split "," (Py.or_empty field)
                    /\ Py.strip piece <> EmptyString
                    /\ k = Py.lower (Py.strip piece).
Proof.
  unfold parse_keywords. rewrite list_elem_of_In, in_map_iff. split.
  - intros (piece & <- & Hin). apply list_elem_of_In, list_elem_of_filter in Hin.
    destruct Hin as [Hne Hin]. exists piece. split; [done|]. split; [|done].
    intros Hempty. by rewrite Hempty in Hne.
  - intros (piece & Hin & Hne & ->). exists piece. split; [done|].
    apply list_elem_of_In, list_elem_of_filter. split; [|done].
    by destruct (Py.strip piece).
Qed.

Example findall_usernames :
  Re.findall Re.usernames "contact @foo_bar or @ab" = ["foo_bar"].
Proof. reflexivity. Qed.

Example findall_links :
  Re.findall Re.links "join https://t.me/joinchat/AbC+d or t.me/x_y." = ["joinchat/AbC+d"; "x_y"].
Proof. reflexivity. Qed.

Example findall_phones :
  Re.findall Re.phones "call +1 (555) 123-4567, not 12345" = ["+1 (555) 123-4567"].
Proof. reflexivity. Qed.

Example int_literals :
  map Py.int [" -12_3 "; "+5"; "007"; "--5"; "5_"; "@news"; "- 5"]
  = [Some (-123); Some 5; Some 7; None; None; None; None].
Proof. reflexivity. Qed.

Lemma replies_app (t1 t2 : list effect) :
  replies (t1 ++ t2) = (replies t1 ++ replies t2)%list.
Proof. apply omap_app. Qed.

Lemma app_one_ne {A} (l : list A) (x : A) : (l ++ [x])%list <> l.
Proof.
  intros Heq. apply (f_equal length) in Heq.
  rewrite length_app in Heq. simpl in Heq. lia.
Qed.

(** ** The reply handlers *)

Section ReplyHandlers.
Context {R : Type} `{Remote R}.

(** what a private inbound message does to the trace when the handler
    replies with [msg] and logs [n] lines *)
Lemma reply_then_logs (event : NewMessage) (msg : string)
    (k : M R unit) (w : World R) :
  (forall w1, replies (trace (k w1).2) = replies (trace w1)) ->
  replies (trace ((call (Reply event msg) (r_reply event msg) ;;; k) w).2)
  = (replies (trace w) ++ [msg])%list.
Proof.
  intros Hk. unfold bind, call.
  destruct (r_reply event msg (remote w)) as [[[]|e] s]; simpl.
  - rewrite Hk. simpl. by rewrite replies_app.
  - by rewrite replies_app.
Qed.

Lemma log_no_reply (parts : list fragment) (w : World R) :
  replies (trace (log (R := R) parts w).2) = replies (trace w).
Proof. simpl. rewrite replies_app. simpl. by rewrite app_nil_r. Qed.

Lemma log_log_no_reply (p1 p2 : list fragment) (w : World R) :
  replies (trace ((log (R := R) p1 ;;; log p2) w).2) = replies (trace w).
Proof. simpl. rewrite !replies_app. simpl. by rewrite !app_nil_r. Qed.

(** The callback on its own.  On a private, inbound message, with a
    configured non-empty reply text: when the parsed keyword list is
    non-empty the auto-reply handler sends the text if and only if some
    keyword occurs in the lower-cased message text, and otherwise does
    nothing; when the list is empty it sends the text, once, to every such
    message. *)
Lemma auto_reply_handler_iff_keyword (settings : AutoReplySettings) (msg : string)
    (event : NewMessage) (w : World R) :
  ar_message settings = Some msg -> Py.truthy msg = true ->
  is_private event = true -> out event = false ->
  let keywords := parse_keywords (ar_keywords settings) in
  let w' := (auto_reply_handler settings keywords event w).2 in
  let replied := replies (trace w') = (replies (trace w) ++ [msg])%list in
  let silent := trace w' = trace w in
  (keywords <> [] ->
     (replied <-> exists k, k ∈ keywords /\ is_substring k (Py.lower (raw_text event)))
     /\ (replied \/ silent))
  /\ (keywords = [] -> replied).
Proof.
  intros Hmsg _ Hpriv Hout keywords.
  unfold auto_reply_handler, ar_reply_text. rewrite Hmsg, Hpriv, Hout. simpl.
  split.
  - intros Hne. destruct keywords as [|k0 ks] eqn:Hk; [done|].
    rewrite <- existsb_contains.
    destruct (existsb _ (k0 :: ks)) eqn:Hex.
    + assert (Hr : replies (trace (auto_reply_handler settings (k0 :: ks) event w).2)
                   = (replies (trace w) ++ [msg])%list).
      { unfold auto_reply_handler, ar_reply_text. rewrite Hmsg, Hpriv, Hout. cbn -[existsb].
        rewrite Hex. apply reply_then_logs. intros w1. apply log_log_no_reply. }
      unfold auto_reply_handler, ar_reply_text in Hr.
      rewrite Hmsg, Hpriv, Hout in Hr. cbn -[existsb] in Hr. rewrite Hex in Hr.
      split; [split; [done | intros _; exact Hr] | left; exact Hr].
    + split; [|by right]. split; [|done].
      simpl. intros Heq. symmetry in Heq. by apply app_one_ne in Heq.
  - intros ->. apply reply_then_logs. intros w1. apply log_log_no_reply.
Qed.

(** The callback on its own.  On a private, inbound message, with smart
    selling enabled and a non-empty reply text, the handler replies exactly when
    the lower-cased text satisfies the table: both lists non-empty, every
    must-keyword and some maybe-keyword occur; only the must-list
    non-empty, every must-keyword occurs; only the maybe-list non-empty,
    some maybe-keyword occurs; both empty, never.  When it does not reply
    it does nothing. *)
Lemma smart_selling_handler_truth_table (smart_settings : SmartSellingSettings)
    (msg : string) (event : NewMessage) (w : World R) :
  ss_enabled smart_settings = true ->
  ss_message smart_settings = Some msg -> Py.truthy msg = true ->
  is_private event = true -> out event = false ->
  let must_contain := parse_keywords (ss_must_contain smart_settings) in
  let maybe_contain := parse_keywords (ss_maybe_contain smart_settings) in
  let message_text := Py.lower (raw_text event) in
  let w' := (smart_selling_handler smart_settings must_contain maybe_contain event w).2 in
  let replied := replies (trace w') = (replies (trace w) ++ [msg])%list in
  let all_must := forall k, k ∈ must_contain -> is_substring k message_text in
  let some_maybe := exists k, k ∈ maybe_contain /\ is_substring k message_text in
  (replied <->
     match must_contain, maybe_contain with
     | _ :: _, _ :: _ => all_must /\ some_maybe
     | _ :: _, [] => all_must
     | [], _ :: _ => some_maybe
     | [], [] => False
     end)
  /\ (replied \/ trace w' = trace w).
Proof.
  intros _ Hmsg _ Hpriv Hout must_contain maybe_contain message_text.
  unfold smart_selling_handler, ss_reply_text. rewrite Hmsg, Hpriv, Hout. simpl.
  fold message_text.
  assert (Hdec : should_reply must_contain maybe_contain message_text = true <->
     match must_contain, maybe_contain with
     | _ :: _, _ :: _ =>
         (forall k, k ∈ must_contain -> is_substring k message_text)
         /\ (exists k, k ∈ maybe_contain /\ is_substring k message_text)
     | _ :: _, [] => forall k, k ∈ must_contain -> is_substring k message_text
     | [], _ :: _ => exists k, k ∈ maybe_contain /\ is_substring k message_text
     | [], [] => False
     end).
  { clearbody must_contain maybe_contain message_text. unfold should_reply.
    destruct must_contain as [|m ms], maybe_contain as [|y ys];
      rewrite <- ?forallb_contains, <- ?existsb_contains; cbn [nonempty andb].
    - done.
    - by destruct (existsb _ (y :: ys)).
    - by destruct (forallb _ (m :: ms)).
    - destruct (forallb _ (m :: ms)), (existsb _ (y :: ys)); simpl; intuition. }
  destruct (should_reply must_contain maybe_contain message_text) eqn:Hs.
  - assert (Hr : replies (trace ((call (Reply event msg) (r_reply event msg) ;;;
                     log [Lit "      -> Smart reply sent to "; FInt (sender_id event)]) w).2)
                 = (replies (trace w) ++ [msg])%list).
    { apply reply_then_logs. intros w1. apply log_no_reply. }
    split; [|by left]. split; [intros _; by apply Hdec | intros _; exact Hr].
  - split; [|by right]. split.
    + simpl. intros Heq. symmetry in Heq. by apply app_one_ne in Heq.
    + intros Ht. apply Hdec in Ht. discriminate.
Qed.

End ReplyHandlers.

(** ** The forwarding handler *)

Lemma forwards_app (t1 t2 : list effect) :
  forwards (t1 ++ t2) = (forwards t1 ++ forwards t2)%list.
Proof. apply omap_app. Qed.

Section ForwardingHandler.
Context {R : Type} `{Remote R}.

(** When every rule has an integer literal as source, the handler runs to
    its end and attempts one forward per matching rule with an integer
    destination, in rule order; failed deliveries and malformed
    destinations do not stop it. *)
Lemma handler_forwards (phone : string) (rules : list ForwardingRule)
    (event : NewMessage) (w : World R) :
  (forall rule, rule ∈ rules -> is_Some (Py.int (source_chat rule))) ->
  (handler phone rules event w).1 = Ok tt
  /\ forwards (trace (handler phone rules event w).2)
     = (forwards (trace w) ++ omap (rule_target event) rules)%list.
Proof.
  intros Hsrc. unfold handler.
  set (body := fun rule : ForwardingRule => _).
  assert (Hloop : forall w0 : World R,
            (for_each rules body w0).1 = Ok tt
            /\ forwards (trace (for_each rules body w0).2)
               = (forwards (trace w0) ++ omap (rule_target event) rules)%list).
  { induction rules as [|rule rules IH]; intros w0.
    - simpl. by rewrite app_nil_r.
    - assert (Hone : exists w1, body rule w0 = (Ok tt, w1)
                /\ forwards (trace w1)
                   = (forwards (trace w0) ++ option_list (rule_target event rule))%list).
      { destruct (Hsrc rule) as [src Hs]; [by left|].
        unfold body, rule_target, bind, int_, try_except, call, log, emit, ret, raise.
        rewrite Hs. simpl. destruct (Z.eqb src (chat_id event)).
        - destruct (Py.int (destination_chat rule)) as [dest|] eqn:Hd; simpl.
          + destruct (r_forward_to event dest (remote w0)) as [[[]|e] s]; simpl.
            * eexists; split; [reflexivity|]. simpl.
              rewrite !forwards_app. simpl. by rewrite !app_nil_r.
            * destruct e; eexists; (split; [reflexivity|]); simpl;
                rewrite !forwards_app; simpl; by rewrite !app_nil_r.
          + eexists; split; [reflexivity|]. simpl.
            rewrite !forwards_app. simpl. by rewrite !app_nil_r.
        - eexists; split; [reflexivity|]. simpl. by rewrite app_nil_r. }
      destruct Hone as (w1 & Hb & Hf).
      destruct (IH (fun r Hr => Hsrc r (list_elem_of_further _ _ _ Hr)) w1) as [IH1 IH2].
      cbn [for_each]. unfold bind at 1. rewrite Hb. split; [exact IH1|].
      unfold bind at 1. rewrite Hb. rewrite IH2, Hf.
      rewrite <- app_assoc. f_equal. simpl.
      by destruct (rule_target event rule). }
  unfold bind, log, emit. simpl.
  match goal with |- context [for_each rules body ?w0] => destruct (Hloop w0) as [H1 H2] end.
  split; [exact H1|]. rewrite H2. simpl. rewrite !forwards_app. simpl.
  by rewrite !app_nil_r.
Qed.

End ForwardingHandler.

(** C1, at an input where it fails.  The account has two active rules; the
    first names its source by user name, the second forwards chat 100 to
    chat 200.  A message arrives in chat 100, which the session listens
    to.  The handler stops at the first rule with [ValueError] and nothing
    is forwarded, in the handler called on its own and in a whole run of
    the supervisor, where the handler is entered and the run goes on to
    its end. *)
Theorem forward_handler_stops_at_named_source :
  let rules := [sample_rule "@news" "1"; sample_rule "100" "200"] in
  let event := group_message 100 "hello" in
  let script := {| on_start := Ok tt; on_forward_to := fun _ => Ok tt;
                   on_reply := Ok tt; inbound := [event]; on_disconnect := Ok tt;
                   on_join := fun _ => Ok tt; channel_messages := Ok [];
                   stored_message := Ok None; on_deliver := fun _ => Ok tt |} in
  let w := world_of ∅ (db_with_rules rules) script in
  (exists rule, rule ∈ rules
                /\ Py.int (source_chat rule) = Some (chat_id event)
                /\ Py.int (destination_chat rule) = Some 200)
  /\ (handler "+15550001" rules event w).1 = Raise (ValueError (int_error "@news"))
  /\ forwards (trace (handler "+15550001" rules event w).2) = []
  /\ active_rules "+15550001" (db w) = rules
  /\ (source_chat_ids rules w).1 = Ok {[ 100 ]}
  /\ trace (_run_client "+15550001" "session" w).2
     = [Start "+15550001"; DbSetStatus "+15550001" "Online";
        Log [Lit "✅ Client for "; FStr "+15550001";
             Lit " connected and status set to Online."];
        Log [Lit "   -> "; FStr "+15550001"; Lit " is listening to "; FInt 1;
             Lit " source chats."];
        RunUntilDisconnected;
        Log [Lit "   -> New message in "; FInt 100; Lit " for client ";
             FStr "+15550001"];
        Log [Lit "[FORWARD] New message in "; FInt 100; Lit " for client ";
             FStr "+15550001"];
        DbSetStatus "+15550001" "Offline";
        Log [Lit "[INFO] Client for "; FStr "+15550001"; Lit " disconnected."]].
Proof.
  cbv zeta. split; [|split; [|split; [|split; [|split]]]].
  - exists (sample_rule "100" "200"). split; [|by vm_compute].
    apply list_elem_of_further, list_elem_of_here.
  - by vm_compute.
  - by vm_compute.
  - by vm_compute.
  - by vm_compute.
  - by vm_compute.
Qed.

(** With the two rules in the other order the forward to 200 is attempted
    before the handler stops. *)
Example forward_handler_rule_order :
  forwards (trace (handler (R := Script) "+15550001"
                     [sample_rule "100" "200"; sample_rule "@news" "1"]
                     (group_message 100 "hello")
                     (world_of ∅ empty_db quiet)).2) = [200].
Proof. by vm_compute. Qed.

(** ** The supervisor's status writes *)

Lemma status_writes_app (phone : string) (t1 t2 : list effect) :
  status_writes phone (t1 ++ t2)
  = (status_writes phone t1 ++ status_writes phone t2)%list.
Proof. apply omap_app. Qed.

Section SupervisorFacts.
Context {R : Type} `{Remote R}.

(** When [client.start] raises, the run writes status Error and then, in
    its [finally] block, status Offline: the account document ends Offline
    and the phone is not in the registry. *)
Lemma run_client_connect_failure (phone session : string) (w : World R)
    (e : exn) (s : R) :
  r_start phone (remote w) = (Raise e, s) ->
  let w' := (_run_client phone session w).2 in
  (_run_client phone session w).1 = Ok tt
  /\ status_writes phone (trace w')
     = (status_writes phone (trace w) ++ ["Error"; "Offline"])%list
  /\ clients w' !! phone = None
  /\ status <$> (accounts (db w') !! phone)
     = (fun _ => "Offline") <$> (accounts (db w) !! phone).
Proof.
  intros Hstart.
  unfold _run_client, try_finally, try_except, bind, call. rewrite Hstart.
  cbn -[status_writes]. 
  destruct (decide (is_Some (clients w !! phone))) as [Hin|Hout];
    cbn -[status_writes];
    rewrite !status_writes_app; cbn; rewrite !String.eqb_refl; cbn;
    rewrite ?app_nil_r, <- ?app_assoc; cbn.
  - split; [done|]. split; [done|]. split; [by rewrite lookup_delete_eq|].
    rewrite !lookup_alter_eq.
    by destruct (accounts (db w) !! phone).
  - split; [done|]. split; [done|].
    split; [by apply eq_None_not_Some|].
    rewrite !lookup_alter_eq.
    by destruct (accounts (db w) !! phone).
Qed.

End SupervisorFacts.

(** C4, at an input where it fails.  The connection of an account that is
    stored as Online cannot be established.  The run writes Error and then
    Offline; the account is stored as Offline at the end, and is not in the
    registry. *)
Theorem connect_failure_is_stored_as_offline :
  let script := {| on_start := Raise (RPCError "connection refused");
                   on_forward_to := fun _ => Ok tt; on_reply := Ok tt;
                   inbound := []; on_disconnect := Ok tt;
                   on_join := fun _ => Ok tt; channel_messages := Ok [];
                   stored_message := Ok None; on_deliver := fun _ => Ok tt |} in
  let w := world_of ∅ (db_with_rules []) script in
  let w' := (_run_client "+15550001" "session" w).2 in
  status_writes "+15550001" (trace w') = ["Error"; "Offline"]
  /\ status <$> (accounts (db w') !! "+15550001") = Some "Offline"
  /\ clients w' !! "+15550001" = None.
Proof.
  cbv zeta.
  pose proof (run_client_connect_failure (R := Script) "+15550001" "session"
                (world_of ∅ (db_with_rules [])
                   {| on_start := Raise (RPCError "connection refused");
                      on_forward_to := fun _ => Ok tt; on_reply := Ok tt;
                      inbound := []; on_disconnect := Ok tt;
                      on_join := fun _ => Ok tt; channel_messages := Ok [];
                      stored_message := Ok None; on_deliver := fun _ => Ok tt |})
                (RPCError "connection refused") _ eq_refl) as (_ & Hw & Hc & Hs).
  split; [exact Hw|]. split; [|exact Hc].
  rewrite Hs. cbn. by rewrite lookup_singleton_eq.
Qed.

(** ** Group joining *)

Lemma pacing_app (t1 t2 : list effect) :
  pacing (t1 ++ t2) = (pacing t1 ++ pacing t2)%list.
Proof. apply filter_app. Qed.

Section GroupJoinFacts.
Context {R : Type} `{Remote R}.

(** C7. When the account has no session in the registry, the call returns
    one result per requested link, in order, each with status error and
    reason "Account is not online"; the world is left as it was: no join
    was attempted, no delay was taken, nothing was logged. *)
Theorem join_offline_account (phone : string) (group_links : list string)
    (w : World R) :
  clients w !! phone = None ->
  join_groups_for_account phone group_links w
  = (Ok (map not_online group_links), w).
Proof.
  intros Hoff. unfold join_groups_for_account, bind, get_clients.
  by rewrite Hoff.
Qed.

Lemma join_one_pacing (phone link : string) (w : World R) :
  exists r w1, join_one phone link w = (Ok r, w1)
    /\ jr_link r = link
    /\ pacing (trace w1) = (pacing (trace w) ++ [JoinChannel link; Sleep 5])%list.
Proof.
  unfold join_one, bind, try_except, call, log, emit, sleep, ret. cbn.
  destruct (r_join link (remote w)) as [[[]|e] s]; cbn.
  - eexists _, _. split; [reflexivity|]. split; [done|]. cbn.
    rewrite !pacing_app. cbn. by rewrite ?app_nil_r, <- ?app_assoc.
  - destruct e; cbn; eexists _, _; (split; [reflexivity|]); (split; [done|]); cbn;
      rewrite !pacing_app; cbn; by rewrite ?app_nil_r, <- ?app_assoc.
Qed.

Lemma join_loop_pacing (phone : string) (group_links : list string)
    (results : list JoinResult) (w : World R) :
  exists rs w1, join_loop phone group_links results w = (Ok rs, w1)
    /\ pacing (trace w1)
       = (pacing (trace w)
          ++ flat_map (fun link => [JoinChannel link; Sleep 5])
                      (filter non_blank group_links))%list.
Proof.
  revert results w. induction group_links as [|link rest IH]; intros results w.
  - eexists _, _. split; [reflexivity|]. cbn. by rewrite app_nil_r.
  - cbn [join_loop]. destruct (decide (non_blank link)) as [Hb|Hb].
    + rewrite filter_cons_True by done. unfold non_blank in Hb. rewrite Hb.
      cbn [negb].
      destruct (join_one_pacing phone link w) as (r & w1 & Hj & _ & Hp).
      unfold bind at 1. rewrite Hj.
      destruct (IH (results ++ [r])%list w1) as (rs & w2 & Hl & Hq).
      eexists _, _. split; [exact Hl|]. rewrite Hq, Hp.
      cbn. by rewrite <- app_assoc.
    + rewrite filter_cons_False by done. unfold non_blank in Hb.
      apply not_true_is_false in Hb. rewrite Hb. cbn [negb].
      destruct (IH results w) as (rs & w2 & Hl & Hq).
      eexists _, _. split; [exact Hl|]. by rewrite Hq.
Qed.

(** C6, as the code has it.  For an account with a session in the
    registry, the joins and sleeps of the call are, in order: for every
    non-blank link one join attempt followed by one sleep of 5 seconds,
    whatever the outcome of the attempt; so a delay separates any two
    consecutive attempts, and one delay follows the last attempt too. *)
Theorem join_sleeps_after_every_attempt (phone : string) (client : Client)
    (group_links : list string) (w : World R) :
  clients w !! phone = Some client ->
  (exists results, (join_groups_for_account phone group_links w).1 = Ok results)
  /\ pacing (trace (join_groups_for_account phone group_links w).2)
     = (pacing (trace w)
        ++ flat_map (fun link => [JoinChannel link; Sleep 5])
                    (filter non_blank group_links))%list.
Proof.
  intros Hon. unfold join_groups_for_account, bind, get_clients. rewrite Hon.
  destruct (join_loop_pacing phone group_links [] w) as (rs & w1 & Hl & Hp).
  rewrite Hl. split; [by exists rs | exact Hp].
Qed.

End GroupJoinFacts.

Lemma join_offline_account_witness :
  clients (world_of ∅ empty_db quiet) !! "+15550001" = None
  /\ join_groups_for_account "+15550001" ["a"; "b"] (world_of ∅ empty_db quiet)
     = (Ok [not_online "a"; not_online "b"], world_of ∅ empty_db quiet).
Proof.
  split; [reflexivity|].
  exact (join_offline_account "+15550001" ["a"; "b"]
           (world_of ∅ empty_db quiet) eq_refl).
Defined.

Lemma join_sleeps_after_every_attempt_witness :
  clients (world_of one_session empty_db quiet) !! "+15550001"
  = Some {| client_session := "session" |}
  /\ pacing (trace (join_groups_for_account "+15550001" ["a"; " "; "b"]
                      (world_of one_session empty_db quiet)).2)
     = [JoinChannel "a"; Sleep 5; JoinChannel "b"; Sleep 5].
Proof.
  split; [reflexivity|].
  exact (proj2 (join_sleeps_after_every_attempt "+15550001"
                  {| client_session := "session" |} ["a"; " "; "b"]
                  (world_of one_session empty_db quiet) eq_refl)).
Defined.

(** C6 as stated fails: with a single link the only attempt is the last
    one, and a sleep follows it. *)
Lemma join_single_link_trailing_delay :
  trace (join_groups_for_account "+15550001" ["a"]
           (world_of one_session empty_db quiet)).2
  = [Log [Lit "   -> Client "; FStr "+15550001"; Lit " attempting to join ";
          FStr "a"; Lit "..."];
     JoinChannel "a"; Log [Lit "      -> Success."]; Sleep 5]
  /\ ~ delay_only_before_next_attempt
         (trace (join_groups_for_account "+15550001" ["a"]
                   (world_of one_session empty_db quiet)).2).
Proof.
  assert (Ht : trace (join_groups_for_account "+15550001" ["a"]
                        (world_of one_session empty_db quiet)).2
               = [Log [Lit "   -> Client "; FStr "+15550001";
                       Lit " attempting to join "; FStr "a"; Lit "..."];
                  JoinChannel "a"; Log [Lit "      -> Success."]; Sleep 5])
    by (by vm_compute).
  split; [exact Ht|]. rewrite Ht. intros Hclaim.
  destruct (Hclaim 3%nat 5 eq_refl) as (j & link & Hj & Hl).
  do 4 (destruct j as [|j]; [lia|]). discriminate Hl.
Qed.

(** ** Broadcast jobs *)

Lemma attempted_app (t1 t2 : list effect) :
  attempted (t1 ++ t2) = (attempted t1 ++ attempted t2)%list.
Proof. apply omap_app. Qed.

Lemma bind_ok {R A B} (m : M R A) (k : A -> M R B) (w w1 : World R) (a : A) :
  m w = (Ok a, w1) -> bind m k w = k a w1.
Proof. intros Hm. unfold bind. by rewrite Hm. Qed.

Lemma bind_raise {R A B} (m : M R A) (k : A -> M R B) (w w1 : World R) (e : exn) :
  m w = (Raise e, w1) -> bind m k w = (Raise e, w1).
Proof. intros Hm. unfold bind. by rewrite Hm. Qed.

Section BroadcastFacts.
Context {R : Type} `{Remote R}.

Lemma deliver_attempted (chat : string) (message_id : Z) (hide_sender : bool)
    (target : string) (w : World R) :
  attempted (trace (deliver chat message_id hide_sender target w).2)
  = attempted (trace w).
Proof.
  unfold deliver, bind, call, ret. destruct hide_sender.
  - destruct (r_get_messages chat message_id (remote w)) as [[[m|]|e] s]; cbn.
    + destruct (r_send_message target m s) as [r s']; cbn.
      rewrite !attempted_app. cbn. by rewrite !app_nil_r.
    + rewrite !attempted_app. cbn. by rewrite !app_nil_r.
    + rewrite !attempted_app. cbn. by rewrite !app_nil_r.
  - destruct (r_forward_messages target message_id chat (remote w)) as [r s]; cbn.
    rewrite !attempted_app. cbn. by rewrite !app_nil_r.
Qed.

(** One target: the attempt is logged and the delivery is tried; if the
    delivery raises nothing, success is logged and the runner sleeps the
    cycle delay; if it raises, the failure is logged and there is no
    sleep.  Either way the iteration ends normally. *)
Lemma forward_one_outcome (chat : string) (message_id cycle_delay : Z)
    (hide_sender : bool) (target : string) (w : World R) :
  forward_one chat message_id cycle_delay hide_sender target w
  = match deliver chat message_id hide_sender target (add_trace w [attempt_log target]) with
    | (Ok _, w1) =>
        (Ok tt, add_trace w1 [Log [Lit "      -> Success. Waiting for cycle delay of ";
                                   FInt cycle_delay; Lit "s."];
                              Sleep cycle_delay])
    | (Raise e, w1) =>
        (Ok tt, add_trace w1 [Log [Lit "      -> Failed to forward to "; FStr target;
                                   Lit ": "; FExn e]])
    end.
Proof.
  unfold forward_one, try_except, bind, log, sleep, emit, add_trace, attempt_log.
  cbn.
  destruct (deliver chat message_id hide_sender target _) as [[[]|e] w1]; cbn.
  - by rewrite <- app_assoc.
  - done.
Qed.

Lemma forward_loop_attempts_all (chat : string) (message_id cycle_delay : Z)
    (hide_sender : bool) (targets : list string) (w : World R) :
  (for_each targets (forward_one chat message_id cycle_delay hide_sender) w).1 = Ok tt
  /\ attempted (trace (for_each targets
                         (forward_one chat message_id cycle_delay hide_sender) w).2)
     = (attempted (trace w) ++ targets)%list.
Proof.
  revert w. induction targets as [|target rest IH]; intros w.
  - cbn. by rewrite app_nil_r.
  - cbn [for_each].
    pose proof (forward_one_outcome chat message_id cycle_delay hide_sender target w) as Hone.
    pose proof (deliver_attempted chat message_id hide_sender target
                  (add_trace w [attempt_log target])) as Hd.
    destruct (deliver chat message_id hide_sender target _) as [[[]|e] w1];
      cbn [fst snd] in *; rewrite (bind_ok _ _ _ _ _ Hone);
      match goal with |- context [for_each rest _ ?w2] =>
        destruct (IH w2) as [IH1 IH2] end;
      (split; [exact IH1|]); rewrite IH2; cbn; rewrite attempted_app, Hd; cbn;
      rewrite attempted_app; cbn; by rewrite app_nil_r, <- app_assoc.
Qed.


Lemma index_from_end_short {A} (parts : list A) (k : nat) (w : World R) :
  (length parts < k)%nat -> index_from_end parts k w = (Raise IndexError, w).
Proof.
  intros Hlen. unfold index_from_end.
  by rewrite (proj2 (Nat.leb_gt k (length parts)) Hlen).
Qed.

Lemma index_from_end_ok {A} (parts : list A) (k : nat) (w : World R) :
  (1 <= k <= length parts)%nat ->
  exists a, parts !! (length parts - k)%nat = Some a
            /\ index_from_end parts k w = (Ok a, w).
Proof.
  intros Hk. unfold index_from_end.
  rewrite (proj2 (Nat.leb_le k (length parts))) by lia.
  destruct (parts !! (length parts - k)%nat) as [a|] eqn:Ha.
  - by exists a.
  - apply lookup_ge_None in Ha. lia.
Qed.

(** C8. When the message reference cannot be parsed (after dropping
    trailing slashes it has fewer than two segments, or its last segment is
    no integer), the runner ends normally, and all it has done is log one
    line reporting the error: no delivery call, no sleep. *)
Theorem unparsable_reference_delivers_nothing (client : Client)
    (message_link : string) (delay cycle_delay : Z) (targets : list string)
    (hide_sender : bool) (w : World R) :
  unparsable message_link ->
  exists e,
    (e = IndexError \/ exists last_part, e = ValueError (int_error last_part))
    /\ _forwarding_job_runner client message_link delay cycle_delay targets hide_sender w
       = (Ok tt, add_trace w [Log [Lit "❌ Error in forwarding job runner: "; FExn e]]).
Proof.
  unfold unparsable, _forwarding_job_runner.
  set (parts := Py.split "/" (Py.rstrip_char "/" message_link)).
  intros Hbad. unfold try_except.
  destruct (decide (length parts < 2)%nat) as [Hshort|Hlong].
  - rewrite (bind_raise _ _ _ _ _ (index_from_end_short parts 2 w Hshort)).
    exists IndexError. split; [by left|done].
  - destruct Hbad as [Hshort | (last_part & Hlast & Hint)]; [done|].
    destruct (index_from_end_ok parts 2 w) as (chat & _ & Hchat); [lia|].
    destruct (index_from_end_ok parts 1 w) as (lp & Hlp & Hpart); [lia|].
    rewrite last_lookup in Hlast.
    replace (pred (length parts)) with (length parts - 1)%nat in Hlast by lia.
    rewrite Hlast in Hlp. injection Hlp as <-.
    rewrite (bind_ok _ _ _ _ _ Hchat), (bind_ok _ _ _ _ _ Hpart).
    assert (Hraise : int_ (R := R) last_part w = (Raise (ValueError (int_error last_part)), w))
      by (unfold int_; by rewrite Hint).
    rewrite (bind_raise _ _ _ _ _ Hraise).
    exists (ValueError (int_error last_part)). split; [right; by exists last_part|done].
Qed.

End BroadcastFacts.

Lemma unparsable_reference_delivers_nothing_witness :
  unparsable "https://t.me/somechannel/abc"
  /\ exists e,
       (e = IndexError \/ exists last_part, e = ValueError (int_error last_part))
       /\ _forwarding_job_runner {| client_session := "session" |}
            "https://t.me/somechannel/abc" 0 5 ["@one"; "@two"] false
            (world_of one_session empty_db quiet)
          = (Ok tt, add_trace (world_of one_session empty_db quiet)
                      [Log [Lit "❌ Error in forwarding job runner: "; FExn e]]).
Proof.
  assert (Hbad : unparsable "https://t.me/somechannel/abc").
  { right. exists "abc". split; reflexivity. }
  split; [exact Hbad|].
  exact (unparsable_reference_delivers_nothing {| client_session := "session" |}
           "https://t.me/somechannel/abc" 0 5 ["@one"; "@two"] false
           (world_of one_session empty_db quiet) Hbad).
Defined.


(** ** Extraction *)

Lemma foldl_add_elem {A} (f : A -> string) (l : list A) (acc : gset string)
    (x : string) :
  x ∈ foldl (fun acc y => acc ∪ {[ f y ]}) acc l
  <-> x ∈ acc \/ exists y, y ∈ l /\ x = f y.
Proof.
  revert acc. induction l as [|y l IH]; intros acc; cbn [foldl].
  - split; [by left | intros [?|(y & Hy & _)]; [done | by apply elem_of_nil in Hy]].
  - rewrite IH, elem_of_union, elem_of_singleton. split.
    + intros [[Hacc | ->] | (z & Hz & ->)].
      * by left.
      * right. exists y. split; [apply list_elem_of_here | done].
      * right. exists z. split; [by apply list_elem_of_further | done].
    + intros [Hacc | (z & Hz & ->)].
      * by left; left.
      * apply elem_of_cons in Hz as [-> | Hz]; [by left; right | right; by exists z].
Qed.

Lemma scan_message_elem (extract_type : string) (regex : Re.pattern)
    (acc : gset string) (message : Message) (x : string) :
  x ∈ scan_message extract_type regex acc message
  <-> x ∈ acc \/ found_in extract_type regex message x.
Proof.
  unfold scan_message, found_in. destruct message as [[txt|]]; cbn.
  - destruct txt as [|c txt]; cbn [Py.truthy].
    + split; [by left | intros [?|(t & m & Ht & Hne & _)]; [done|]].
      by injection Ht as <-.
    + rewrite foldl_add_elem. split.
      * intros [?|(m & Hm & ->)]; [by left|]. right. by exists (String c txt), m.
      * intros [?|(t & m & Ht & _ & Hm & ->)]; [by left|].
        injection Ht as <-. right. by exists m.
  - split; [by left | intros [?|(t & m & Ht & _)]; [done | discriminate]].
Qed.

Lemma scan_fold_elem (extract_type : string) (regex : Re.pattern)
    (messages : list Message) (acc : gset string) (x : string) :
  x ∈ foldl (scan_message extract_type regex) acc messages
  <-> x ∈ acc \/ exists m, m ∈ messages /\ found_in extract_type regex m x.
Proof.
  revert acc. induction messages as [|m ms IH]; intros acc; cbn [foldl].
  - split; [by left | intros [?|(m & Hm & _)]; [done | by apply elem_of_nil in Hm]].
  - rewrite IH, scan_message_elem. split.
    + intros [[?|Hf] | (m' & Hm' & Hf')].
      * by left.
      * right. exists m. split; [apply list_elem_of_here | done].
      * right. exists m'. split; [by apply list_elem_of_further | done].
    + intros [?|(m' & Hm' & Hf')]; [by left; left|].
      apply elem_of_cons in Hm' as [-> | Hm']; [by left; right | right; by exists m'].
Qed.

Lemma scan_messages_elem (extract_type : string) (regex : Re.pattern)
    (messages : list Message) (x : string) :
  x ∈ scan_messages extract_type regex messages
  <-> exists m, m ∈ messages /\ found_in extract_type regex m x.
Proof.
  unfold scan_messages. rewrite scan_fold_elem. split; [|by right].
  intros [Hempty|?]; [|done]. by apply not_elem_of_empty in Hempty.
Qed.

Lemma scan_messages_perm (extract_type : string) (regex : Re.pattern)
    (messages messages' : list Message) :
  messages' ≡ₚ messages ->
  scan_messages extract_type regex messages'
  = scan_messages extract_type regex messages.
Proof.
  intros Hperm. apply set_eq. intros x. rewrite !scan_messages_elem.
  split; intros (m & Hm & Hf); exists m; (split; [|done]).
  - by rewrite <- Hperm.
  - by rewrite Hperm.
Qed.

Lemma sorted_Sorted (results : gset string) : Sorted String.le (sorted results).
Proof. apply Sorted_merge_sort; apply _. Qed.

Lemma sorted_perm (results : gset string) : sorted results ≡ₚ elements results.
Proof. apply merge_sort_Permutation. Qed.

Lemma sorted_NoDup (results : gset string) : NoDup (sorted results).
Proof. rewrite sorted_perm. apply NoDup_elements. Qed.

Lemma sorted_elem (results : gset string) (x : string) :
  x ∈ sorted results <-> x ∈ results.
Proof. by rewrite sorted_perm, elem_of_elements. Qed.

Section ExtractorFacts.
Context {R : Type} `{Remote R}.

(** The result of a successful scan, in terms of the matcher: the list is
    sorted, has no duplicates, and holds what [findall] reports for the
    texts of the scanned messages, with the prefix of the kind put back;
    the order of the messages does not matter. *)
Lemma extract_scan (phone channel_link extract_type : string)
    (limit : Z) (client : Client) (regex : Re.pattern)
    (messages : list Message) (s : R) (w : World R) :
  clients w !! phone = Some client ->
  patterns extract_type = Some regex ->
  r_iter_messages channel_link limit (remote w) = (Ok messages, s) ->
  let items := sorted (scan_messages extract_type regex messages) in
  (extract_from_channel phone channel_link extract_type limit w).1
  = Ok {| er_status := "success"; er_data := DataItems items |}
  /\ Sorted String.le items
  /\ NoDup items
  /\ (forall x, x ∈ items <->
                exists m, m ∈ messages /\ found_in extract_type regex m x)
  /\ (forall messages', messages' ≡ₚ messages ->
        sorted (scan_messages extract_type regex messages') = items)
  /\ (extract_type = "usernames" ->
      messages = [ {| text := Some "contact @foo_bar or @ab" |} ] ->
      items = ["@foo_bar"]).
Proof.
  intros Hon Hpat Hscan items.
  split; [|split; [|split; [|split; [|split]]]].
  - unfold extract_from_channel, bind, get_clients. rewrite Hon, Hpat.
    unfold try_except, bind, call, log, emit. cbn. rewrite Hscan. by cbn.
  - apply sorted_Sorted.
  - apply sorted_NoDup.
  - intros x. unfold items. by rewrite sorted_elem, scan_messages_elem.
  - intros messages' Hperm. unfold items. by rewrite (scan_messages_perm _ _ _ _ Hperm).
  - intros -> ->. unfold items.
    assert (Hp : patterns "usernames" = Some Re.usernames) by reflexivity.
    rewrite Hp in Hpat. injection Hpat as <-. by vm_compute.
Qed.

End ExtractorFacts.

(** ** Onboarding *)

Section OnboardingFacts.
Context {R : Type} `{Remote R}.

(** C10. The endpoint accepts the websocket and calls
    [start_interactive_session] with the websocket alone; the method has
    two parameters after [self], so binding the arguments raises
    [TypeError] before the body runs.  The error is not a
    [WebSocketDisconnect], so it leaves the endpoint.  Every invocation
    therefore ends with an exception (that of [accept] if accepting
    failed); nothing was sent to the peer, no connection was opened, and
    the registry and the account store are as before. *)
Theorem add_account_endpoint_always_fails (w : World R) :
  websocket_add_account w
  = (match (r_ws_accept (remote w)).1 with
     | Ok _ =>
         Raise (TypeError "WorkerManager.start_interactive_session() missing 1 required positional argument: 'owner_user'")
     | Raise e => Raise e
     end,
     {| clients := clients w; db := db w; remote := (r_ws_accept (remote w)).2;
        trace := (trace w ++ [WsAccept])%list |})
  /\ prompts (trace (websocket_add_account w).2) = prompts (trace w)
  /\ db (websocket_add_account w).2 = db w
  /\ clients (websocket_add_account w).2 = clients w.
Proof.
  assert (Hrun : websocket_add_account w
    = (match (r_ws_accept (remote w)).1 with
       | Ok _ =>
           Raise (TypeError "WorkerManager.start_interactive_session() missing 1 required positional argument: 'owner_user'")
       | Raise e => Raise e
       end,
       {| clients := clients w; db := db w; remote := (r_ws_accept (remote w)).2;
          trace := (trace w ++ [WsAccept])%list |})).
  { unfold websocket_add_account, bind, call, try_except.
    destruct (r_ws_accept (remote w)) as [[[]|e] s]; reflexivity. }
  rewrite Hrun. split; [done|]. split; [|done].
  cbn. unfold prompts. rewrite omap_app. cbn. by rewrite app_nil_r.
Qed.

End OnboardingFacts.

(** With both arguments the method does run: on the scripted remote, where
    every step succeeds, it prompts twice, stores the account and
    acknowledges. *)
Lemma start_interactive_session_runs_when_called_in_full :
  let run := py_call (R := Script) start_interactive_session_method
               [PWebSocket; PUser {| username := "alice" |}]
               (world_of ∅ empty_db quiet) in
  run.1 = Ok tt
  /\ prompts (trace run.2)
     = ["Please enter your phone number (e.g., +15551234567):";
        "Enter the code you received in Telegram:";
        "Successfully logged in and saved account +15551234567!"]
  /\ accounts (db run.2) !! "+15551234567"
     = Some {| session_string := "session"; status := "Online";
               owner := Some "alice" |}.
Proof. by vm_compute. Qed.

(** * Further properties *)

(** ** What leaves the registry and the store alone *)

Lemma keeps_ret {R A} (a : A) : keeps_store (ret (R := R) a).
Proof. by intros w. Qed.

Lemma keeps_raise {R A} (e : exn) : keeps_store (raise (R := R) (A := A) e).
Proof. by intros w. Qed.

Lemma keeps_emit {R} (e : effect) : keeps_store (emit (R := R) e).
Proof. by intros w. Qed.

Lemma keeps_log {R} (parts : list fragment) : keeps_store (log (R := R) parts).
Proof. by intros w. Qed.

Lemma keeps_sleep {R} (seconds : Z) : keeps_store (sleep (R := R) seconds).
Proof. by intros w. Qed.

Lemma keeps_call {R A} (e : effect) (f : R -> result A * R) :
  keeps_store (call e f).
Proof. intros w. unfold call. by destruct (f (remote w)). Qed.

Lemma keeps_int {R} (s : string) : keeps_store (int_ (R := R) s).
Proof. intros w. unfold int_. by destruct (Py.int s). Qed.

Lemma keeps_get_db {R} : keeps_store (get_db (R := R)).
Proof. by intros w. Qed.

Lemma keeps_get_clients {R} : keeps_store (get_clients (R := R)).
Proof. by intros w. Qed.

Lemma keeps_read {R A} (f : World R -> A) :
  keeps_store (fun w : World R => (Ok (f w), w)).
Proof. by intros w. Qed.

Lemma keeps_bind {R A B} (m : M R A) (k : A -> M R B) :
  keeps_store m -> (forall a, keeps_store (k a)) -> keeps_store (bind m k).
Proof.
  intros Hm Hk w. unfold bind. destruct (Hm w) as [Hc Hd].
  destruct (m w) as [[a|e] w1]; cbn in *.
  - destruct (Hk a w1) as [Hc' Hd']. split; congruence.
  - done.
Qed.

Lemma keeps_try_except {R A B} (body : M R A) (sel : exn -> option B)
    (handler : B -> M R A) :
  keeps_store body -> (forall b, keeps_store (handler b)) ->
  keeps_store (try_except body sel handler).
Proof.
  intros Hm Hk w. unfold try_except. destruct (Hm w) as [Hc Hd].
  destruct (body w) as [[a|e] w1]; cbn in *.
  - done.
  - destruct (sel e) as [b|]; [|done].
    destruct (Hk b w1) as [Hc' Hd']. split; congruence.
Qed.

Lemma keeps_for_each {R A} (xs : list A) (body : A -> M R unit) :
  (forall x, keeps_store (body x)) -> keeps_store (for_each xs body).
Proof.
  intros Hb. induction xs as [|x xs IH]; cbn [for_each].
  - apply keeps_ret.
  - apply keeps_bind; [apply Hb | intros _; exact IH].
Qed.

Create HintDb keeps.

#[local] Hint Resolve keeps_ret keeps_raise keeps_emit keeps_log keeps_sleep
  keeps_call keeps_int keeps_get_db keeps_get_clients : keeps.

Ltac keeps :=
  repeat first
    [ progress intros
    | apply keeps_bind
    | apply keeps_try_except
    | apply keeps_for_each
    | solve [auto with keeps]
    | match goal with
      | |- keeps_store (match ?x with _ => _ end) => destruct x
      | |- keeps_store (if ?b then _ else _) => destruct b
      | |- keeps_store (let _ := _ in _) => cbv zeta
      end ].

Section HandlersKeepStore.
Context {R : Type} `{Remote R}.

Lemma handler_keeps_store (phone : string) (rules : list ForwardingRule)
    (event : NewMessage) : keeps_store (handler phone rules event).
Proof. unfold handler. keeps. Qed.

Lemma auto_reply_handler_keeps_store (settings : AutoReplySettings)
    (keywords : list string) (event : NewMessage) :
  keeps_store (auto_reply_handler settings keywords event).
Proof. unfold auto_reply_handler. keeps. Qed.

Lemma smart_selling_handler_keeps_store (smart_settings : SmartSellingSettings)
    (must_contain maybe_contain : list string) (event : NewMessage) :
  keeps_store (smart_selling_handler smart_settings must_contain maybe_contain event).
Proof. unfold smart_selling_handler. keeps. Qed.

(** The three event handlers never change the session registry or the
    document store, whatever the event, the configuration and the
    outcome of their remote calls. *)
Theorem handlers_keep_registry_and_store (phone : string)
    (rules : list ForwardingRule) (settings : AutoReplySettings)
    (keywords : list string) (smart_settings : SmartSellingSettings)
    (must_contain maybe_contain : list string) (event : NewMessage) :
  keeps_store (handler phone rules event)
  /\ keeps_store (auto_reply_handler settings keywords event)
  /\ keeps_store (smart_selling_handler smart_settings must_contain maybe_contain event).
Proof.
  split; [apply handler_keeps_store|].
  split; [apply auto_reply_handler_keeps_store | apply smart_selling_handler_keeps_store].
Qed.

Lemma dispatch_keeps_store (handlers : list (@Handler R)) (event : NewMessage) :
  (forall h ev, h ∈ handlers -> keeps_store (h_callback h ev)) ->
  keeps_store (dispatch handlers event).
Proof.
  intros Hh. unfold dispatch.
  induction handlers as [|h hs IH]; cbn [for_each]; [apply keeps_ret|].
  apply keeps_bind.
  - destruct (h_filter h event); [|apply keeps_ret].
    apply keeps_try_except; [apply Hh, list_elem_of_here | intros; apply keeps_ret].
  - intros _. apply IH. intros h' ev Hin. apply Hh. by apply list_elem_of_further.
Qed.

Lemma run_until_disconnected_keeps_store (handlers : list (@Handler R)) :
  (forall h ev, h ∈ handlers -> keeps_store (h_callback h ev)) ->
  keeps_store (run_until_disconnected handlers).
Proof.
  intros Hh. unfold run_until_disconnected.
  apply keeps_bind; [apply keeps_read|]. intros updates.
  apply keeps_bind; [apply keeps_emit|]. intros _.
  apply keeps_bind.
  - apply keeps_for_each. intros ev. by apply dispatch_keeps_store.
  - intros _ w. by destruct (r_run_until_disconnected (remote w)).
Qed.

Lemma source_chat_ids_keeps_store (rules : list ForwardingRule) :
  keeps_store (source_chat_ids (R := R) rules).
Proof. induction rules as [|rule rules IH]; cbn [source_chat_ids]; keeps. Qed.

End HandlersKeepStore.

Lemma keeps_bind_post {R A B} (m : M R A) (k : A -> M R B) (P : A -> Prop) :
  keeps_store m -> (forall w a, (m w).1 = Ok a -> P a) ->
  (forall a, P a -> keeps_store (k a)) -> keeps_store (bind m k).
Proof.
  intros Hm HP Hk w. unfold bind. destruct (Hm w) as [Hc Hd].
  pose proof (HP w) as HPw.
  destruct (m w) as [[a|e] w1]; cbn in *.
  - destruct (Hk a (HPw a eq_refl) w1) as [Hc' Hd']. split; congruence.
  - done.
Qed.

Lemma alter_with_status_twice (a b phone : string) (m : gmap string AccountDoc) :
  alter (with_status a) phone (alter (with_status b) phone m)
  = alter (with_status a) phone m.
Proof.
  apply map_eq. intros q. destruct (decide (phone = q)) as [->|Hne].
  - rewrite !lookup_alter_eq. by destruct (m !! q).
  - by rewrite !lookup_alter_ne.
Qed.

Lemma put_accounts_twice (a b : gmap string AccountDoc) (d : Db) :
  put_accounts a (put_accounts b d) = put_accounts a d.
Proof. done. Qed.

Lemma stored_offline_after_status (phone st : string) (d : Db) :
  stored_offline phone (put_accounts (alter (with_status st) phone (accounts d)) d)
  = stored_offline phone d.
Proof.
  unfold stored_offline. cbn. by rewrite alter_with_status_twice.
Qed.

Lemma try_finally_eq {R A} (body : M R A) (fin : M R unit) (w w1 w2 : World R)
    (r : result A) :
  body w = (r, w1) -> fin w1 = (Ok tt, w2) -> try_finally body fin w = (r, w2).
Proof. intros Hb Hf. unfold try_finally. by rewrite Hb, Hf. Qed.

Section SupervisorInvariant.
Context {R : Type} `{Remote R}.

(** the [finally] block of [_run_client] *)
Lemma run_client_finally (phone : string) (w : World R) :
  (cs <- get_clients ;;
   (if decide (is_Some (cs !! phone)) then del_client phone else ret tt) ;;;
   db_set_status phone "Offline" ;;;
   log [Lit "[INFO] Client for "; FStr phone; Lit " disconnected."]) w
  = (Ok tt,
     {| clients := delete phone (clients w);
        db := stored_offline phone (db w);
        remote := remote w;
        trace := (trace w ++ [DbSetStatus phone "Offline";
                              Log [Lit "[INFO] Client for "; FStr phone;
                                   Lit " disconnected."]])%list |}).
Proof.
  unfold bind, get_clients, del_client, db_set_status, log, emit, stored_offline.
  destruct (decide (is_Some (clients w !! phone))) as [Hin|Hout]; cbn.
  - by rewrite <- app_assoc.
  - rewrite <- app_assoc. f_equal. f_equal.
    symmetry. apply delete_id. by apply eq_None_not_Some.
Qed.

(** the [try]/[except] of [_run_client]: it ends normally; the registry is
    as before or has the phone added; the store is as before or has the
    status of the account rewritten *)
Lemma run_client_guarded (phone session : string) (w : World R) :
  exists w1,
    try_except
      (call (Start phone) (r_start phone) ;;;
       set_client phone {| client_session := session |} ;;;
       db_set_status phone "Online" ;;;
       log [Lit "✅ Client for "; FStr phone;
            Lit " connected and status set to Online."] ;;;
       d <- get_db ;;
       let rules := active_rules phone d in
       h1 <- match rules with
             | [] =>
                 log [Lit "   -> No active rules for "; FStr phone; Lit "."] ;;;
                 ret []
             | _ :: _ =>
                 ids <- source_chat_ids rules ;;
                 log [Lit "   -> "; FStr phone; Lit " is listening to ";
                      FInt (Z.of_nat (size ids)); Lit " source chats."] ;;;
                 ret [ {| h_filter := r_in_chats ids;
                          h_callback := handler phone rules |} ]
             end ;;
       h2 <- match auto_reply_settings d !! phone with
             | Some settings =>
                 if Py.truthy_opt (ar_message settings) then
                   log [Lit "   -> Auto-reply enabled for "; FStr phone; Lit "."] ;;;
                   log [Lit "[INFO] Auto-reply enabled for "; FStr phone; Lit "."] ;;;
                   let keywords := parse_keywords (ar_keywords settings) in
                   ret [ {| h_filter := fun ev => negb (out ev);
                            h_callback := auto_reply_handler settings keywords |} ]
                 else ret []
             | None => ret []
             end ;;
       h3 <- match smart_selling_settings d !! phone with
             | Some smart_settings =>
                 if ss_enabled smart_settings
                    && Py.truthy_opt (ss_message smart_settings) then
                   log [Lit "   -> Smart Selling enabled for "; FStr phone; Lit "."] ;;;
                   let must_contain := parse_keywords (ss_must_contain smart_settings) in
                   let maybe_contain := parse_keywords (ss_maybe_contain smart_settings) in
                   ret [ {| h_filter := fun ev => negb (out ev);
                            h_callback :=
                              smart_selling_handler smart_settings
                                must_contain maybe_contain |} ]
                 else ret []
             | None => ret []
             end ;;
       run_until_disconnected (h1 ++ h2 ++ h3))
      any_exception
      (fun e =>
         db_set_status phone "Error" ;;;
         log [Lit "[ERROR] Client "; FStr phone;
              Lit " failed to connect: "; FExn e]) w
    = (Ok tt, w1)
    /\ delete phone (clients w1) = delete phone (clients w)
    /\ stored_offline phone (db w1) = stored_offline phone (db w).
Proof.
  unfold try_except.
  destruct (r_start phone (remote w)) as [[[]|e] s] eqn:Hs.
  - assert (Hcall : call (Start phone) (r_start phone) w
                    = (Ok tt, {| clients := clients w; db := db w; remote := s;
                                 trace := (trace w ++ [Start phone])%list |}))
      by (unfold call; by rewrite Hs).
    rewrite (bind_ok _ _ _ _ _ Hcall).
    unfold bind at 1, set_client at 1. cbn [fst snd].
    unfold bind at 1, db_set_status at 1. cbn [clients db remote trace].
    set (w3 := Build_World _ _ _ _ _).
    set (rest := bind (log _) _).
    assert (Hrest : keeps_store rest).
    { unfold rest. apply keeps_bind; [apply keeps_log | intros _].
      apply keeps_bind; [apply keeps_get_db | intros d].
      apply (keeps_bind_post _ _
               (fun hs : list (@Handler R) =>
                  forall h ev, h ∈ hs -> keeps_store (h_callback h ev))).
      { keeps. apply source_chat_ids_keeps_store. }
      { intros w0 hs. destruct (active_rules phone d) as [|rule rules].
        - cbn. intros [= <-] h ev Hin. by apply elem_of_nil in Hin.
        - unfold bind. destruct (source_chat_ids (rule :: rules) w0) as [[ids|e] w1];
            cbn; [|done].
          intros [= <-] h ev Hin. apply list_elem_of_singleton in Hin as ->.
          apply handler_keeps_store. }
      intros h1 Hh1.
      apply (keeps_bind_post _ _
               (fun hs : list (@Handler R) =>
                  forall h ev, h ∈ hs -> keeps_store (h_callback h ev))).
      { keeps. }
      { intros w0 hs. destruct (auto_reply_settings d !! phone) as [settings|].
        - destruct (Py.truthy_opt (ar_message settings)); cbn.
          + intros [= <-] h ev Hin. apply list_elem_of_singleton in Hin as ->.
            apply auto_reply_handler_keeps_store.
          + intros [= <-] h ev Hin. by apply elem_of_nil in Hin.
        - cbn. intros [= <-] h ev Hin. by apply elem_of_nil in Hin. }
      intros h2 Hh2.
      apply (keeps_bind_post _ _
               (fun hs : list (@Handler R) =>
                  forall h ev, h ∈ hs -> keeps_store (h_callback h ev))).
      { keeps. }
      { intros w0 hs. destruct (smart_selling_settings d !! phone) as [settings|].
        - destruct (ss_enabled settings && Py.truthy_opt (ss_message settings)); cbn.
          + intros [= <-] h ev Hin. apply list_elem_of_singleton in Hin as ->.
            apply smart_selling_handler_keeps_store.
          + intros [= <-] h ev Hin. by apply elem_of_nil in Hin.
        - cbn. intros [= <-] h ev Hin. by apply elem_of_nil in Hin. }
      intros h3 Hh3.
      apply run_until_disconnected_keeps_store. intros h ev Hin.
      rewrite !elem_of_app in Hin. destruct Hin as [?|[?|?]]; auto. }
    destruct (Hrest w3) as [Hc Hd].
    destruct (rest w3) as [[[]|e] w4]; cbn [fst snd] in *;
      unfold w3 in Hc, Hd; cbn [clients db] in Hc, Hd.
    + exists w4. split; [done|]. rewrite Hc, Hd.
      split; [apply delete_insert_eq | apply stored_offline_after_status].
    + cbn. eexists. split; [reflexivity|]. cbn. rewrite Hc, Hd.
      split; [apply delete_insert_eq|].
      rewrite put_accounts_twice. cbn.
      rewrite alter_with_status_twice. apply stored_offline_after_status.
  - assert (Hcall : call (Start phone) (r_start phone) w
                    = (Raise e, {| clients := clients w; db := db w; remote := s;
                                   trace := (trace w ++ [Start phone])%list |}))
      by (unfold call; by rewrite Hs).
    rewrite (bind_raise _ _ _ _ _ Hcall). cbn.
    eexists. split; [reflexivity|]. cbn.
    split; [done | apply stored_offline_after_status].
Qed.

Lemma run_client_end_state (phone session : string) (w : World R) :
  (_run_client phone session w).1 = Ok tt
  /\ clients (_run_client phone session w).2 = delete phone (clients w)
  /\ db (_run_client phone session w).2 = stored_offline phone (db w).
Proof.
  destruct (run_client_guarded phone session w) as (w1 & Hbody & Hc & Hd).
  pose proof (try_finally_eq _ _ _ _ _ _ Hbody (run_client_finally phone w1)) as Hrun.
  change (try_finally _ _ w) with (_run_client phone session w) in Hrun.
  rewrite Hrun. cbn. by rewrite Hc, Hd.
Qed.

Lemma stored_offline_same_but_status (phone : string) (d : Db) :
  same_but_status phone d (stored_offline phone d).
Proof.
  unfold same_but_status, stored_offline. cbn. split; [|split; [|done]].
  - intros other Hne. by apply lookup_alter_ne.
  - rewrite lookup_alter_eq. destruct (accounts d !! phone) as [doc|]; [|done].
    by exists "Offline".
Qed.

(** A run of the supervisor touches nothing but its own account.  The
    registry entries of the other phones are as before.  In the document
    store the other account documents, the rules and the reply settings
    are as before; the document of this account, if there is one, differs
    at most in its status, and if there is none, none is created. *)
Theorem run_client_touches_only_its_account (phone session : string)
    (w : World R) :
  let ended := (_run_client phone session w).2 in
  (forall other, other <> phone -> clients ended !! other = clients w !! other)
  /\ same_but_status phone (db w) (db ended).
Proof.
  cbv zeta. destruct (run_client_end_state phone session w) as (_ & Hc & Hd).
  rewrite Hc, Hd. split.
  - intros other Hne. by apply lookup_delete_ne.
  - apply stored_offline_same_but_status.
Qed.

End SupervisorInvariant.

Section MisreadSource.
Context {R : Type} `{Remote R}.

Lemma source_chat_ids_misread (rules : list ForwardingRule) (w : World R) :
  (exists rule, rule ∈ rules /\ misread_source rule) ->
  exists bad, bad ∈ rules /\ misread_source bad
    /\ source_chat_ids rules w
       = (Raise (ValueError (int_error (source_chat bad))), w).
Proof.
  induction rules as [|rule rules IH]; intros (r & Hin & Hbad).
  - by apply elem_of_nil in Hin.
  - cbn [source_chat_ids].
    destruct (Py.isdigit (Py.lstrip_char "-" (source_chat rule))) eqn:Hg.
    + destruct (Py.int (source_chat rule)) as [z|] eqn:Hz.
      * apply elem_of_cons in Hin as [-> | Hin].
        { destruct Hbad as [_ Hnone]. congruence. }
        destruct (IH (ex_intro _ r (conj Hin Hbad))) as (bad & Hb & Hm & Hraise).
        exists bad. split; [by apply list_elem_of_further|]. split; [done|].
        unfold bind, int_. rewrite Hz. cbn. by rewrite Hraise.
      * exists rule. split; [apply list_elem_of_here|]. split; [done|].
        unfold bind, int_. by rewrite Hz.
    + apply elem_of_cons in Hin as [-> | Hin].
      { destruct Hbad as [Hdig _]. congruence. }
      destruct (IH (ex_intro _ r (conj Hin Hbad))) as (bad & Hb & Hm & Hraise).
      exists bad. split; [by apply list_elem_of_further | done].
Qed.

(** A rule source made of two or more dashes and digits passes the digit
    test of the listen set but is no integer.  When the account has such
    an active rule, a run whose connection succeeded never waits for
    updates: the conversion raises while the listen set is built, the
    account is reported as failed to connect, and the run ends. *)
Theorem misread_source_ends_the_session (phone session : string) (w : World R)
    (s : R) :
  r_start phone (remote w) = (Ok tt, s) ->
  (exists rule, rule ∈ active_rules phone (db w) /\ misread_source rule) ->
  exists bad,
    bad ∈ active_rules phone (db w) /\ misread_source bad
    /\ trace (_run_client phone session w).2
       = (trace w ++
          [Start phone; DbSetStatus phone "Online";
           Log [Lit "✅ Client for "; FStr phone;
                Lit " connected and status set to Online."];
           DbSetStatus phone "Error";
           Log [Lit "[ERROR] Client "; FStr phone; Lit " failed to connect: ";
                FExn (ValueError (int_error (source_chat bad)))];
           DbSetStatus phone "Offline";
           Log [Lit "[INFO] Client for "; FStr phone; Lit " disconnected."]])%list.
Proof.
  intros Hs Hex.
  unfold _run_client, try_finally, try_except, bind, call, set_client,
    db_set_status, log, emit, get_db, get_clients. rewrite Hs.
  cbn -[source_chat_ids active_rules].
  change (active_rules phone (put_accounts _ (db w))) with (active_rules phone (db w)).
  destruct (active_rules phone (db w)) as [|rule rules] eqn:Hrules.
  { destruct Hex as (r & Hin & _). by apply elem_of_nil in Hin. }
  match goal with |- context [source_chat_ids (rule :: rules) ?w0] =>
    destruct (source_chat_ids_misread (rule :: rules) w0 Hex) as (bad & Hb & Hm & Hraise)
  end.
  exists bad. split; [done|]. split; [done|].
  rewrite Hraise. cbn -[source_chat_ids active_rules]. rewrite lookup_insert_eq.
  destruct (decide (is_Some (Some {| client_session := session |})))
    as [_|Hno]; [|by destruct Hno]. cbn.
  by rewrite <- !app_assoc.
Qed.

End MisreadSource.

Lemma misread_source_ends_the_session_witness :
  let rules := [sample_rule "100" "200"; sample_rule "--5" "300"] in
  let w := world_of ∅ (db_with_rules rules) quiet in
  r_start "+15550001" (remote w) = (Ok tt, quiet)
  /\ (exists rule, rule ∈ active_rules "+15550001" (db w) /\ misread_source rule)
  /\ exists bad,
       bad ∈ active_rules "+15550001" (db w) /\ misread_source bad
       /\ trace (_run_client "+15550001" "session" w).2
          = (trace w ++
             [Start "+15550001"; DbSetStatus "+15550001" "Online";
              Log [Lit "✅ Client for "; FStr "+15550001";
                   Lit " connected and status set to Online."];
              DbSetStatus "+15550001" "Error";
              Log [Lit "[ERROR] Client "; FStr "+15550001";
                   Lit " failed to connect: ";
                   FExn (ValueError (int_error (source_chat bad)))];
              DbSetStatus "+15550001" "Offline";
              Log [Lit "[INFO] Client for "; FStr "+15550001";
                   Lit " disconnected."]])%list.
Proof.
  cbv zeta.
  assert (Hex : exists rule,
            rule ∈ active_rules "+15550001"
                     (db (world_of (R := Script) ∅
                            (db_with_rules [sample_rule "100" "200";
                                            sample_rule "--5" "300"]) quiet))
            /\ misread_source rule).
  { exists (sample_rule "--5" "300"). split; [|split; reflexivity].
    apply list_elem_of_further, list_elem_of_here. }
  split; [reflexivity|]. split; [exact Hex|].
  exact (misread_source_ends_the_session "+15550001" "session"
           (world_of ∅ (db_with_rules [sample_rule "100" "200";
                                        sample_rule "--5" "300"]) quiet)
           quiet eq_refl Hex).
Defined.

Lemma launched_app (t1 t2 : list effect) :
  launched (t1 ++ t2) = (launched t1 ++ launched t2)%list.
Proof. apply omap_app. Qed.

Lemma online_accounts_elem (d : Db) (phone : string) :
  phone ∈ (online_accounts d).*1
  <-> exists doc, accounts d !! phone = Some doc /\ status doc = "Online".
Proof.
  unfold online_accounts. rewrite list_elem_of_fmap. split.
  - intros ([p doc] & -> & Hin). apply list_elem_of_filter in Hin as [Hst Hin].
    apply elem_of_map_to_list in Hin. exists doc. split; [done|].
    by apply String.eqb_eq.
  - intros (doc & Hdoc & Hst). exists (phone, doc). split; [done|].
    apply list_elem_of_filter. split.
    + cbn. by apply String.eqb_eq.
    + by apply elem_of_map_to_list.
Qed.

Lemma online_accounts_NoDup (d : Db) : NoDup (online_accounts d).*1.
Proof.
  unfold online_accounts.
  assert (Hsub : sublist (filter (fun kv : string * AccountDoc =>
                                    String.eqb (status kv.2) "Online" = true)
                                 (map_to_list (accounts d))).*1
                         (map_to_list (accounts d)).*1).
  { apply fmap_sublist, sublist_filter. }
  exact (sublist_NoDup _ _ (NoDup_fst_map_to_list (accounts d)) Hsub).
Qed.

Section ManagerFacts.
Context {R : Type} `{Remote R}.

Lemma startup_loop (accounts_found : list (string * AccountDoc)) (w : World R) :
  let run := for_each accounts_found (fun account =>
               log [Lit "   -> Launching client for "; FStr account.1] ;;;
               emit (Spawn "_run_client" account.1)) w in
  run.1 = Ok tt
  /\ clients run.2 = clients w /\ db run.2 = db w /\ remote run.2 = remote w
  /\ launched (trace run.2) = (launched (trace w) ++ accounts_found.*1)%list.
Proof.
  revert w. induction accounts_found as [|[phone doc] rest IH]; intros w.
  - cbn. by rewrite app_nil_r.
  - cbn [for_each].
    assert (Hstep : (log [Lit "   -> Launching client for "; FStr (phone, doc).1] ;;;
                     emit (Spawn "_run_client" (phone, doc).1)) w
                    = (Ok tt, add_trace w [Log [Lit "   -> Launching client for ";
                                                FStr phone];
                                           Spawn "_run_client" phone])).
    { unfold bind, log, emit, add_trace. cbn. by rewrite <- app_assoc. }
    rewrite (bind_ok _ _ _ _ _ Hstep).
    destruct (IH (add_trace w [Log [Lit "   -> Launching client for "; FStr phone];
                               Spawn "_run_client" phone]))
      as (I1 & I2 & I3 & I4 & I5).
    cbv zeta in I1, I2, I3, I4, I5 |- *.
    split; [exact I1|]. split; [by rewrite I2|]. split; [by rewrite I3|].
    split; [by rewrite I4|]. rewrite I5. cbn.
    rewrite !launched_app. cbn. by rewrite <- app_assoc.
Qed.

Lemma startup_launched (w : World R) :
  launched (trace (startup w).2)
  = (launched (trace w) ++ (online_accounts (db w)).*1)%list.
Proof.
  unfold startup.
  rewrite (bind_ok _ _ w (add_trace w [Log [Lit "🤖 WorkerManager starting up..."]]) tt)
    by reflexivity.
  rewrite (bind_ok _ _ _ (add_trace w [Log [Lit "🤖 WorkerManager starting up..."]])
             (db w)) by reflexivity.
  destruct (startup_loop (online_accounts (db w))
              (add_trace w [Log [Lit "🤖 WorkerManager starting up..."]]))
    as (_ & _ & _ & _ & I5).
  cbv zeta in I5. rewrite I5. cbn. rewrite launched_app. cbn. by rewrite app_nil_r.
Qed.

(** [startup] launches one supervisor per account that is stored with
    status "Online", and no other: every launched phone is such an
    account, every such account is launched, none twice.  It starts
    nothing itself: the registry, the store and the remote service are
    untouched. *)
Theorem startup_launches_the_online_accounts (w : World R) :
  (startup w).1 = Ok tt
  /\ clients (startup w).2 = clients w
  /\ db (startup w).2 = db w
  /\ remote (startup w).2 = remote w
  /\ exists phones,
       launched (trace (startup w).2) = (launched (trace w) ++ phones)%list
       /\ NoDup phones
       /\ forall phone,
            phone ∈ phones
            <-> exists doc, accounts (db w) !! phone = Some doc
                            /\ status doc = "Online".
Proof.
  unfold startup.
  assert (Hlog : log (R := R) [Lit "🤖 WorkerManager starting up..."] w
                 = (Ok tt, add_trace w [Log [Lit "🤖 WorkerManager starting up..."]]))
    by reflexivity.
  rewrite (bind_ok _ _ _ _ _ Hlog).
  assert (Hdb : get_db (add_trace w [Log [Lit "🤖 WorkerManager starting up..."]])
                = (Ok (db w), add_trace w [Log [Lit "🤖 WorkerManager starting up..."]]))
    by reflexivity.
  rewrite (bind_ok _ _ _ _ _ Hdb).
  destruct (startup_loop (online_accounts (db w))
              (add_trace w [Log [Lit "🤖 WorkerManager starting up..."]]))
    as (I1 & I2 & I3 & I4 & I5).
  cbv zeta in I1, I2, I3, I4, I5.
  split; [exact I1|]. split; [by rewrite I2|]. split; [by rewrite I3|].
  split; [by rewrite I4|].
  exists (online_accounts (db w)).*1. split.
  - rewrite I5. cbn. rewrite launched_app. cbn. by rewrite app_nil_r.
  - split; [apply online_accounts_NoDup | intros phone; apply online_accounts_elem].
Qed.

End ManagerFacts.

Section DisconnectFacts.
Context {R : Type} `{Remote R}.

Lemma disconnect_client_cases (phone : string) (w : World R) :
  match clients w !! phone with
  | None => disconnect_client phone w = (Ok false, w)
  | Some _ =>
      match r_disconnect (remote w) with
      | (Ok _, s) =>
          disconnect_client phone w
          = (Ok true,
             {| clients := delete phone (clients w);
                db := stored_offline phone (db w);
                remote := s;
                trace := (trace w ++
                          [Disconnect; DbSetStatus phone "Offline";
                           Log [Lit "[INFO] Client "; FStr phone;
                                Lit " manually disconnected."]])%list |})
      | (Raise e, s) =>
          disconnect_client phone w
          = (Ok false,
             {| clients := clients w; db := db w; remote := s;
                trace := (trace w ++
                          [Disconnect;
                           Log [Lit "[ERROR] Failed to disconnect client ";
                                FStr phone; Lit ": "; FExn e]])%list |})
      end
  end.
Proof.
  unfold disconnect_client, bind, get_clients.
  destruct (clients w !! phone) as [c|]; [|done].
  unfold try_except, bind, call, del_client, _update_account_status, try_except,
    db_set_status, log, emit, ret, stored_offline.
  destruct (r_disconnect (remote w)) as [[[]|e] s]; cbn.
  - by rewrite <- !app_assoc.
  - by rewrite <- !app_assoc.
Qed.


(** After a disconnection that answered true, the account counts as not
    online everywhere: a join request gets one "Account is not online"
    error per link, an extraction and a broadcast job are refused, and a
    second disconnection answers false; none of these calls changes
    anything. *)
Theorem after_disconnect_account_is_offline (phone : string) (w : World R)
    (group_links : list string) (channel_link extract_type message_link : string)
    (limit delay cycle_delay : Z) (targets : list string) (hide_sender : bool) :
  (disconnect_client phone w).1 = Ok true ->
  let w' := (disconnect_client phone w).2 in
  join_groups_for_account phone group_links w'
  = (Ok (map not_online group_links), w')
  /\ extract_from_channel phone channel_link extract_type limit w'
     = (Ok {| er_status := "error"; er_data := DataText "Account is not online." |}, w')
  /\ start_forwarding_job phone message_link delay cycle_delay targets hide_sender w'
     = (Ok {| ack_status := "error"; ack_message := "Account is not online." |}, w')
  /\ disconnect_client phone w' = (Ok false, w').
Proof.
  intros Htrue w'.
  assert (Hoff : clients w' !! phone = None).
  { unfold w'. pose proof (disconnect_client_cases phone w) as Hcases.
    destruct (clients w !! phone) as [c|].
    - destruct (r_disconnect (remote w)) as [[[]|e] s]; rewrite Hcases in Htrue |- *.
      + cbn. apply lookup_delete_eq.
      + discriminate Htrue.
    - rewrite Hcases in Htrue. discriminate Htrue. }
  unfold join_groups_for_account, extract_from_channel, start_forwarding_job,
    disconnect_client, bind, get_clients.
  by rewrite Hoff.
Qed.

End DisconnectFacts.

Lemma after_disconnect_account_is_offline_witness :
  let w := world_of one_session (db_with_rules []) quiet in
  let w' := (disconnect_client "+15550001" w).2 in
  (disconnect_client "+15550001" w).1 = Ok true
  /\ join_groups_for_account "+15550001" ["a"; "b"] w'
     = (Ok [not_online "a"; not_online "b"], w')
  /\ extract_from_channel "+15550001" "t.me/somechannel" "usernames" 100 w'
     = (Ok {| er_status := "error"; er_data := DataText "Account is not online." |}, w')
  /\ start_forwarding_job "+15550001" "https://t.me/somechannel/1234" 0 5 ["@one"] false w'
     = (Ok {| ack_status := "error"; ack_message := "Account is not online." |}, w')
  /\ disconnect_client "+15550001" w' = (Ok false, w').
Proof.
  cbv zeta. split; [reflexivity|].
  exact (after_disconnect_account_is_offline "+15550001"
           (world_of one_session (db_with_rules []) quiet)
           ["a"; "b"] "t.me/somechannel" "usernames" "https://t.me/somechannel/1234"
           100 0 5 ["@one"] false eq_refl).
Defined.

(** ** Join results *)

Section JoinResults.
Context {R : Type} `{Remote R}.

(** One attempt: the result names the link; it says success when the
    request raised nothing, skipped when it raised
    [UserAlreadyParticipantError], and error with the text of the
    exception otherwise.  The attempt never raises, and ends with the
    pacing sleep in every case. *)
Theorem join_attempt_classification (phone link : string) (w : World R) :
  let outcome := (r_join link (remote w)).1 in
  let attempt :=
    [Log [Lit "   -> Client "; FStr phone; Lit " attempting to join ";
          FStr link; Lit "..."];
     JoinChannel link] in
  join_one phone link w
  = (Ok match outcome with
        | Ok _ => {| jr_link := link; jr_status := "success";
                     jr_reason := "Successfully joined" |}
        | Raise UserAlreadyParticipantError =>
            {| jr_link := link; jr_status := "skipped";
               jr_reason := "Already a member" |}
        | Raise e => {| jr_link := link; jr_status := "error";
                        jr_reason := exn_str e |}
        end,
     {| clients := clients w; db := db w;
        remote := (r_join link (remote w)).2;
        trace := (trace w ++ attempt ++
                  [match outcome with
                   | Ok _ => Log [Lit "      -> Success."]
                   | Raise UserAlreadyParticipantError =>
                       Log [Lit "      -> Skipped (already a member)."]
                   | Raise e => Log [Lit "      -> Error: "; FStr (exn_str e)]
                   end;
                   Sleep 5])%list |}).
Proof.
  cbv zeta. unfold join_one, bind, try_except, call, log, emit, sleep, ret. cbn.
  destruct (r_join link (remote w)) as [[[]|e] s]; cbn.
  - rewrite <- !app_assoc. reflexivity.
  - destruct e; cbn; rewrite <- !app_assoc; reflexivity.
Qed.

Lemma join_one_shape (phone link : string) (w : World R) :
  exists r w1, join_one phone link w = (Ok r, w1)
    /\ jr_link r = link /\ join_result_shape r.
Proof.
  unfold join_one, bind, try_except, call, log, emit, sleep, ret, join_result_shape.
  cbn -[exn_str]. destruct (r_join link (remote w)) as [[[]|e] s]; cbn -[exn_str].
  - eexists _, _. split; [reflexivity|]. split; [done|]. by left.
  - destruct e; cbn -[exn_str]; eexists _, _; (split; [reflexivity|]);
      (split; [done|]); cbn -[exn_str];
      first [ right; left; split; reflexivity
            | right; right; split; [reflexivity|]; eexists;
              (split; [|reflexivity]); discriminate ].
Qed.

Lemma join_loop_results (phone : string) (group_links : list string)
    (results : list JoinResult) (w : World R) :
  exists new w1,
    join_loop phone group_links results w = (Ok (results ++ new)%list, w1)
    /\ map jr_link new = filter non_blank group_links
    /\ Forall join_result_shape new.
Proof.
  revert results w. induction group_links as [|link rest IH]; intros results w.
  - exists [], w. cbn. by rewrite app_nil_r.
  - cbn [join_loop]. destruct (decide (non_blank link)) as [Hb|Hb].
    + rewrite filter_cons_True by done. unfold non_blank in Hb. rewrite Hb.
      cbn [negb].
      destruct (join_one_shape phone link w) as (r & w1 & Hj & Hlink & Hshape).
      rewrite (bind_ok _ _ _ _ _ Hj).
      destruct (IH (results ++ [r])%list w1) as (new & w2 & Hl & Hlinks & Hall).
      exists (r :: new), w2. split.
      * rewrite Hl. by rewrite <- app_assoc.
      * split; [cbn; by rewrite Hlink, Hlinks | by constructor].
    + rewrite filter_cons_False by done. unfold non_blank in Hb.
      apply not_true_is_false in Hb. rewrite Hb. cbn [negb]. apply IH.
Qed.

(** For an account with a session in the registry, the join call never
    raises and returns one result per non-blank link, in the order of the
    request; blank links get no result.  Every result says success,
    skipped ("Already a member"), or error with the text of an exception
    other than [UserAlreadyParticipantError]. *)
Theorem join_results_follow_the_links (phone : string) (client : Client)
    (group_links : list string) (w : World R) :
  clients w !! phone = Some client ->
  exists results,
    (join_groups_for_account phone group_links w).1 = Ok results
    /\ map jr_link results = filter non_blank group_links
    /\ Forall join_result_shape results.
Proof.
  intros Hon. unfold join_groups_for_account, bind, get_clients. rewrite Hon.
  destruct (join_loop_results phone group_links [] w) as (new & w1 & Hl & Hlinks & Hall).
  rewrite Hl. by exists new.
Qed.

End JoinResults.

Lemma join_results_follow_the_links_witness :
  let w := world_of one_session empty_db mixed_joins in
  clients w !! "+15550001" = Some {| client_session := "session" |}
  /\ (join_groups_for_account "+15550001" ["@new"; "  "; "@mine"; EmptyString; "@gone"] w).1
     = Ok [ {| jr_link := "@new"; jr_status := "success";
               jr_reason := "Successfully joined" |};
            {| jr_link := "@mine"; jr_status := "skipped";
               jr_reason := "Already a member" |};
            {| jr_link := "@gone"; jr_status := "error";
               jr_reason := "USERNAME_INVALID" |} ]
  /\ exists results,
       (join_groups_for_account "+15550001" ["@new"; "  "; "@mine"; EmptyString; "@gone"] w).1
       = Ok results
       /\ map jr_link results = filter non_blank ["@new"; "  "; "@mine"; EmptyString; "@gone"]
       /\ Forall join_result_shape results.
Proof.
  cbv zeta. split; [reflexivity|]. split; [reflexivity|].
  exact (join_results_follow_the_links "+15550001" {| client_session := "session" |}
           ["@new"; "  "; "@mine"; EmptyString; "@gone"]
           (world_of one_session empty_db mixed_joins) eq_refl).
Defined.

(** ** The matcher *)

Lemma append_cons (c : ascii) (s t : string) :
  String c s +:+ t = String c (s +:+ t).
Proof. reflexivity. Qed.

Lemma append_nil_r (s : string) : s +:+ EmptyString = s.
Proof.
  induction s as [|c s IH]; [reflexivity|]. by rewrite append_cons, IH.
Qed.

Lemma append_assoc (a b c : string) : (a +:+ b) +:+ c = a +:+ (b +:+ c).
Proof.
  induction a as [|x a IH]; [reflexivity|]. by rewrite !append_cons, IH.
Qed.

Lemma length_append (a b : string) :
  String.length (a +:+ b) = (String.length a + String.length b)%nat.
Proof.
  induction a as [|x a IH]; [reflexivity|]. rewrite append_cons. cbn. by rewrite IH.
Qed.

Lemma take_drop (k : nat) (s : string) : Re.take k s +:+ Re.drop k s = s.
Proof.
  revert s. induction k as [|k IH]; intros [|c s]; try reflexivity.
  cbn [Re.take Re.drop]. by rewrite append_cons, IH.
Qed.

Lemma span_take (p : ascii -> bool) (bound : option nat) (s : string) (k : nat) :
  (k <= Re.span p bound s)%nat ->
  String.length (Re.take k s) = k /\ all_chars p (Re.take k s) = true.
Proof.
  revert bound s. induction k as [|k IH]; intros bound s Hk.
  - by destruct s.
  - destruct s as [|c s]; cbn in Hk; [lia|].
    destruct (p c) eqn:Hc; [|lia].
    destruct bound as [[|b]|]; [lia | |].
    + destruct (IH (Some b) s) as [Hl Ha]; [lia|]. cbn. by rewrite Hl, Hc, Ha.
    + destruct (IH None s) as [Hl Ha]; [lia|]. cbn. by rewrite Hl, Hc, Ha.
Qed.

Lemma span_bound (p : ascii -> bool) (b : nat) (s : string) :
  (Re.span p (Some b) s <= b)%nat.
Proof.
  revert b. induction s as [|c s IH]; intros b; cbn; [lia|].
  destruct (p c); [|lia]. destruct b as [|b]; [lia|].
  specialize (IH b). lia.
Qed.

Lemma span_all (p : ascii -> bool) (s : string) :
  all_chars p s = true -> Re.span p None s = String.length s.
Proof.
  induction s as [|c s IH]; cbn; [done|].
  intros [Hc Hs]%andb_true_iff. rewrite Hc. by rewrite IH.
Qed.

Lemma backtrack_Some {A} (lo extra : nat) (k : nat -> option A) (a : A) :
  Re.backtrack lo extra k = Some a ->
  exists n, (lo <= n <= lo + extra)%nat /\ k n = Some a.
Proof.
  induction extra as [|extra IH]; cbn.
  - destruct (k (lo + 0)%nat) eqn:Hk; [|done].
    intros [= ->]. exists (lo + 0)%nat. split; [lia | done].
  - destruct (k (lo + S extra)%nat) eqn:Hk.
    + intros [= ->]. exists (lo + S extra)%nat. split; [lia | done].
    + intros Hb. destruct (IH Hb) as (n & Hn & Hkn). exists n. split; [lia | done].
Qed.

(** What the matcher returns is a match: each piece is an admissible
    repetition of its item, and the pieces, in order, are a prefix of the
    text. *)
Lemma match_here_sound (p : Re.pattern) (s : string) (pieces : list string) :
  Re.match_here p s = Some pieces ->
  Forall2 piece_ok p pieces
  /\ exists rest, s = Re.concat_pieces pieces +:+ rest.
Proof.
  revert s pieces. induction p as [|it p IH]; intros s pieces; cbn [Re.match_here].
  - intros [= <-]. split; [constructor | by exists s].
  - destruct (Re.span (Re.cls it) (Re.rmax it) s <? Re.rmin it)%nat eqn:Hmin; [done|].
    apply Nat.ltb_ge in Hmin. intros Hb.
    apply backtrack_Some in Hb as (n & Hn & Hk).
    destruct (Re.match_here p (Re.drop n s)) as [rest_pieces|] eqn:Hrest; [|done].
    injection Hk as <-.
    destruct (IH _ _ Hrest) as (Hall & rest & Hs).
    destruct (span_take (Re.cls it) (Re.rmax it) s n) as [Hlen Hcls]; [lia|].
    split.
    + constructor; [|done]. unfold piece_ok. rewrite Hlen. split; [lia|].
      split; [|done]. intros b Hmax. rewrite Hmax in Hn, Hmin.
      pose proof (span_bound (Re.cls it) b s). lia.
    + exists rest.
      change (Re.concat_pieces (Re.take n s :: rest_pieces))
        with (Re.take n s +:+ Re.concat_pieces rest_pieces).
      rewrite append_assoc, <- Hs. symmetry. apply take_drop.
Qed.

(** every reported item comes from a match at some position of the text *)
Lemma findall_from_elem (p : Re.pattern) (skip : nat) (s x : string) :
  x ∈ Re.findall_from p skip s ->
  exists pre s' pieces,
    s = pre +:+ s' /\ Re.match_here p s' = Some pieces /\ x = Re.report p pieces.
Proof.
  revert skip. induction s as [|c s IH]; intros skip; cbn [Re.findall_from].
  - destruct skip; [|by intros ?%elem_of_nil].
    destruct (Re.match_here p EmptyString) as [pieces|] eqn:Hm.
    + intros [-> | ?%elem_of_nil]%elem_of_cons; [|done].
      by exists EmptyString, EmptyString, pieces.
    + by intros ?%elem_of_nil.
  - assert (Htail : forall k, x ∈ Re.findall_from p k s ->
              exists pre s' pieces,
                String c s = pre +:+ s' /\ Re.match_here p s' = Some pieces
                /\ x = Re.report p pieces).
    { intros k Hx. destruct (IH k Hx) as (pre & s' & pieces & -> & Hm & ->).
      by exists (String c pre), s', pieces. }
    destruct skip as [|k]; [|apply Htail].
    destruct (Re.match_here p (String c s)) as [pieces|] eqn:Hm; [|apply Htail].
    intros [-> | Hx]%elem_of_cons; [|by eapply Htail].
    by exists EmptyString, (String c s), pieces.
Qed.

Lemma all_chars_lit (c : ascii) (piece : string) :
  String.length piece = 1%nat -> all_chars (Ascii.eqb c) piece = true ->
  piece = String c EmptyString.
Proof.
  destruct piece as [|d [|e piece]]; cbn; try done.
  intros _. rewrite andb_true_r. by intros ->%Ascii.eqb_eq.
Qed.

Lemma piece_ok_lit (c : ascii) (piece : string) :
  piece_ok (Re.lit c) piece -> piece = String c EmptyString.
Proof.
  intros (Hmin & Hmax & Hall). cbn in *.
  apply all_chars_lit; [|done]. specialize (Hmax 1%nat eq_refl). lia.
Qed.

(** ** The shape of extracted items *)

Lemma scan_item_from_match (extract_type : string) (regex : Re.pattern)
    (messages : list Message) (x : string) :
  x ∈ sorted (scan_messages extract_type regex messages) ->
  exists m txt pre s' pieces,
    m ∈ messages /\ text m = Some txt /\ txt = pre +:+ s'
    /\ Re.match_here regex s' = Some pieces
    /\ x = normalise extract_type (Re.report regex pieces).
Proof.
  rewrite sorted_elem, scan_messages_elem.
  intros (m & Hm & txt & match_ & Htxt & _ & Hfind & ->).
  apply findall_from_elem in Hfind as (pre & s' & pieces & -> & Hmatch & ->).
  by exists m, (pre +:+ s'), pre, s', pieces.
Qed.

Lemma username_no_at (name : string) :
  all_chars Re.word_char name = true -> Py.startswith name "@" = false.
Proof.
  unfold Py.startswith. intros Hall.
  destruct (String.prefix "@" name) eqn:Hp; [|done].
  apply prefix_spec in Hp as [post ->].
  change ("@" +:+ post) with (String "@" post) in Hall. discriminate Hall.
Qed.

(** Every item of a usernames extraction is an at sign followed by 5 to
    32 letters, digits or underscores, and occurs in the text of one of
    the scanned messages. *)
Theorem extracted_usernames_shape (messages : list Message) (x : string) :
  x ∈ sorted (scan_messages "usernames" Re.usernames messages) ->
  exists name,
    x = "@" +:+ name
    /\ (5 <= String.length name <= 32)%nat
    /\ all_chars Re.word_char name = true
    /\ occurs_in messages x.
Proof.
  intros Hx.
  apply scan_item_from_match in Hx
    as (m & txt & pre & s' & pieces & Hm & Htxt & -> & Hmatch & ->).
  apply match_here_sound in Hmatch as (Hall & rest & ->).
  apply Forall2_cons_inv_l in Hall as (a & ps & Ha & Hall & ->).
  apply Forall2_cons_inv_l in Hall as (name & ps' & Hname & Hall & ->).
  apply Forall2_nil_inv_l in Hall as ->.
  apply piece_ok_lit in Ha as ->.
  destruct Hname as (Hmin & Hmax & Hcls). cbn in Hmin, Hcls.
  specialize (Hmax 32%nat eq_refl).
  assert (Hreport : Re.report Re.usernames ["@"; name] = name).
  { cbn. apply append_nil_r. }
  rewrite Hreport.
  assert (Hnorm : normalise "usernames" name = "@" +:+ name).
  { unfold normalise. rewrite (username_no_at name Hcls). reflexivity. }
  rewrite Hnorm. exists name. split; [done|]. split; [lia|]. split; [done|].
  exists m, (pre +:+ Re.concat_pieces ["@"; name] +:+ rest).
  split; [done|]. split; [done|]. exists pre, rest.
  cbn. by rewrite append_nil_r.
Qed.

Lemma link_path_no_prefix (path : string) :
  all_chars Re.link_char path = true -> Py.startswith path "t.me/" = false.
Proof.
  unfold Py.startswith. intros Hall.
  destruct (String.prefix "t.me/" path) eqn:Hp; [|done].
  apply prefix_spec in Hp as [post ->].
  change ("t.me/" +:+ post) with (String "t" (String "." ("me/" +:+ post))) in Hall.
  discriminate Hall.
Qed.

(** Every item of a links extraction is "t.me/" followed by at least one
    letter, digit, underscore, plus sign or slash, and occurs in the text
    of one of the scanned messages. *)
Theorem extracted_links_shape (messages : list Message) (x : string) :
  x ∈ sorted (scan_messages "links" Re.links messages) ->
  exists path,
    x = "t.me/" +:+ path
    /\ (1 <= String.length path)%nat
    /\ all_chars Re.link_char path = true
    /\ occurs_in messages x.
Proof.
  intros Hx.
  apply scan_item_from_match in Hx
    as (m & txt & pre & s' & pieces & Hm & Htxt & -> & Hmatch & ->).
  apply match_here_sound in Hmatch as (Hall & rest & ->).
  apply Forall2_cons_inv_l in Hall as (p1 & ps1 & H1 & Hall & ->).
  apply Forall2_cons_inv_l in Hall as (p2 & ps2 & H2 & Hall & ->).
  apply Forall2_cons_inv_l in Hall as (p3 & ps3 & H3 & Hall & ->).
  apply Forall2_cons_inv_l in Hall as (p4 & ps4 & H4 & Hall & ->).
  apply Forall2_cons_inv_l in Hall as (p5 & ps5 & H5 & Hall & ->).
  apply Forall2_cons_inv_l in Hall as (path & ps6 & Hpath & Hall & ->).
  apply Forall2_nil_inv_l in Hall as ->.
  apply piece_ok_lit in H1 as ->. apply piece_ok_lit in H2 as ->.
  apply piece_ok_lit in H3 as ->. apply piece_ok_lit in H4 as ->.
  apply piece_ok_lit in H5 as ->.
  destruct Hpath as (Hmin & _ & Hcls). cbn in Hmin, Hcls.
  assert (Hreport : Re.report Re.links ["t"; "."; "m"; "e"; "/"; path] = path).
  { cbn. apply append_nil_r. }
  rewrite Hreport.
  assert (Hnorm : normalise "links" path = "t.me/" +:+ path).
  { unfold normalise. rewrite (link_path_no_prefix path Hcls). reflexivity. }
  rewrite Hnorm. exists path. split; [done|]. split; [lia|]. split; [done|].
  exists m, (pre +:+ Re.concat_pieces ["t"; "."; "m"; "e"; "/"; path] +:+ rest).
  split; [done|]. split; [done|]. exists pre, rest.
  cbn. by rewrite append_nil_r.
Qed.

(** Every item of a phones extraction is a run of at least eight digits,
    white-space characters, dashes and parentheses, with at most one plus
    sign in front, and occurs as it is in the text of one of the scanned
    messages. *)
Theorem extracted_phones_shape (messages : list Message) (x : string) :
  x ∈ sorted (scan_messages "phones" Re.phones messages) ->
  exists plus body,
    x = plus +:+ body
    /\ (plus = EmptyString \/ plus = "+")
    /\ (8 <= String.length body)%nat
    /\ all_chars Re.phone_char body = true
    /\ occurs_in messages x.
Proof.
  intros Hx.
  apply scan_item_from_match in Hx
    as (m & txt & pre & s' & pieces & Hm & Htxt & -> & Hmatch & ->).
  apply match_here_sound in Hmatch as (Hall & rest & ->).
  apply Forall2_cons_inv_l in Hall as (plus & ps7 & Hplus & Hall & ->).
  apply Forall2_cons_inv_l in Hall as (body & ps8 & Hbody & Hall & ->).
  apply Forall2_nil_inv_l in Hall as ->.
  destruct Hplus as (_ & Hpmax & Hpcls). cbn [Re.cls] in Hpcls.
  specialize (Hpmax 1%nat eq_refl).
  destruct Hbody as (Hmin & _ & Hcls). cbn in Hmin, Hcls.
  assert (Hreport : Re.report Re.phones [plus; body] = plus +:+ body).
  { cbn. by rewrite append_nil_r. }
  rewrite Hreport.
  assert (Hnorm : normalise "phones" (plus +:+ body) = plus +:+ body) by reflexivity.
  rewrite Hnorm. exists plus, body. split; [done|]. split.
  { destruct plus as [|c [|d plus]]; [by left | right | cbn in Hpmax; lia].
    by apply all_chars_lit. }
  split; [lia|]. split; [done|].
  exists m, (pre +:+ Re.concat_pieces [plus; body] +:+ rest).
  split; [done|]. split; [done|]. exists pre, rest.
  cbn. by rewrite append_nil_r.
Qed.

Lemma extracted_usernames_shape_witness :
  "@foo_bar" ∈ sorted (scan_messages "usernames" Re.usernames
                         (one_text "contact @foo_bar or @ab"))
  /\ exists name,
       "@foo_bar" = "@" +:+ name
       /\ (5 <= String.length name <= 32)%nat
       /\ all_chars Re.word_char name = true
       /\ occurs_in (one_text "contact @foo_bar or @ab") "@foo_bar".
Proof.
  assert (Hin : "@foo_bar" ∈ sorted (scan_messages "usernames" Re.usernames
                                       (one_text "contact @foo_bar or @ab"))).
  { vm_compute. apply list_elem_of_here. }
  split; [exact Hin|].
  exact (extracted_usernames_shape (one_text "contact @foo_bar or @ab") "@foo_bar" Hin).
Defined.

Lemma extracted_links_shape_witness :
  "t.me/joinchat/AbC+d" ∈ sorted (scan_messages "links" Re.links
                                    (one_text "join https://t.me/joinchat/AbC+d now"))
  /\ exists path,
       "t.me/joinchat/AbC+d" = "t.me/" +:+ path
       /\ (1 <= String.length path)%nat
       /\ all_chars Re.link_char path = true
       /\ occurs_in (one_text "join https://t.me/joinchat/AbC+d now")
                    "t.me/joinchat/AbC+d".
Proof.
  assert (Hin : "t.me/joinchat/AbC+d"
                ∈ sorted (scan_messages "links" Re.links
                            (one_text "join https://t.me/joinchat/AbC+d now"))).
  { vm_compute. apply list_elem_of_here. }
  split; [exact Hin|].
  exact (extracted_links_shape (one_text "join https://t.me/joinchat/AbC+d now")
           "t.me/joinchat/AbC+d" Hin).
Defined.

Lemma extracted_phones_shape_witness :
  "+1 (555) 123-4567" ∈ sorted (scan_messages "phones" Re.phones
                                  (one_text "call +1 (555) 123-4567, not 12345"))
  /\ exists plus body,
       "+1 (555) 123-4567" = plus +:+ body
       /\ (plus = EmptyString \/ plus = "+")
       /\ (8 <= String.length body)%nat
       /\ all_chars Re.phone_char body = true
       /\ occurs_in (one_text "call +1 (555) 123-4567, not 12345") "+1 (555) 123-4567".
Proof.
  assert (Hin : "+1 (555) 123-4567"
                ∈ sorted (scan_messages "phones" Re.phones
                            (one_text "call +1 (555) 123-4567, not 12345"))).
  { vm_compute. apply list_elem_of_here. }
  split; [exact Hin|].
  exact (extracted_phones_shape (one_text "call +1 (555) 123-4567, not 12345")
           "+1 (555) 123-4567" Hin).
Defined.

(** ** Phones need no digit *)

Lemma take_all (s : string) : Re.take (String.length s) s = s.
Proof. induction s as [|c s IH]; cbn; [done | by rewrite IH]. Qed.

Lemma drop_all (s : string) : Re.drop (String.length s) s = EmptyString.
Proof. induction s as [|c s IH]; cbn; [done | exact IH]. Qed.

Lemma backtrack_first {A} (lo extra : nat) (k : nat -> option A) (a : A) :
  k (lo + extra)%nat = Some a -> Re.backtrack lo extra k = Some a.
Proof. intros Hk. destruct extra; cbn; by rewrite Hk. Qed.

Lemma findall_from_skip_all (p : Re.pattern) (s : string) :
  Re.match_here p EmptyString = None ->
  Re.findall_from p (String.length s) s = [].
Proof.
  intros Hnone. induction s as [|c s IH]; cbn [String.length Re.findall_from].
  - by rewrite Hnone.
  - exact IH.
Qed.

(** A text of at least eight characters, all of them digits, white space,
    dashes or parentheses, is one phones match as a whole: the pattern
    asks for no digit, so a line of dashes or a run of blanks is reported
    as a phone number. *)
Theorem phones_pattern_needs_no_digit (body : string) :
  all_chars Re.phone_char body = true ->
  (8 <= String.length body)%nat ->
  Re.findall Re.phones body = [body]
  /\ sorted (scan_messages "phones" Re.phones (one_text body)) = [body].
Proof.
  intros Hall Hlen.
  assert (Hfind : Re.findall Re.phones body = [body]).
  { destruct body as [|c body']; [cbn in Hlen; lia|].
    set (body := String c body') in *.
    assert (Hplus : Re.span (Ascii.eqb "+") (Some 1%nat) body = 0%nat).
    { unfold body. cbn [Re.span]. destruct (Ascii.eqb "+" c) eqn:Hc; [|done].
      apply Ascii.eqb_eq in Hc as <-. discriminate Hall. }
    assert (Hmatch : Re.match_here Re.phones body = Some [EmptyString; body]).
    { unfold Re.phones. cbn [Re.match_here Re.cls Re.rmin Re.rmax].
      rewrite Hplus. cbn [Nat.ltb Nat.leb Nat.sub].
      apply backtrack_first. cbn [Nat.add Re.drop Re.take].
      rewrite (span_all _ _ Hall).
      assert (Hlt : (String.length body <=? 7)%nat = false) by (apply Nat.leb_gt; lia).
      rewrite Hlt.
      rewrite (backtrack_first 8 (String.length body - 8) _ [body]); [done|].
      replace (8 + (String.length body - 8))%nat with (String.length body) by lia.
      by rewrite take_all. }
    unfold Re.findall. unfold body at 1. cbn [Re.findall_from]. fold body.
    rewrite Hmatch.
    assert (Hreport : Re.report Re.phones [EmptyString; body] = body).
    { cbn. apply append_nil_r. }
    rewrite Hreport. f_equal.
    assert (Hskip : (String.length (Re.concat_pieces [EmptyString; body]) - 1)%nat
                    = String.length body').
    { change (Re.concat_pieces [EmptyString; body]) with (body +:+ EmptyString).
      rewrite append_nil_r. unfold body. cbn [String.length]. lia. }
    rewrite Hskip. by apply findall_from_skip_all. }
  split; [exact Hfind|].
  assert (Hscan : scan_messages "phones" Re.phones (one_text body)
                  = foldl (fun acc match_ => acc ∪ {[ normalise "phones" match_ ]})
                          ∅ (Re.findall Re.phones body)).
  { destruct body; [cbn in Hlen; lia | reflexivity]. }
  unfold sorted. rewrite Hscan, Hfind. cbn [foldl].
  assert (Hnorm : normalise "phones" body = body) by reflexivity.
  rewrite Hnorm.
  rewrite (left_id_L ∅ (∪)), elements_singleton. reflexivity.
Qed.

Lemma phones_pattern_needs_no_digit_witness :
  all_chars Re.phone_char "----------" = true
  /\ (8 <= String.length "----------")%nat
  /\ Re.findall Re.phones "----------" = ["----------"]
  /\ sorted (scan_messages "phones" Re.phones (one_text "----------")) = ["----------"].
Proof.
  split; [reflexivity|]. split; [cbn; lia|].
  exact (phones_pattern_needs_no_digit "----------" eq_refl ltac:(cbn; lia)).
Defined.

(** ** Refusals and failures of the extraction *)

Section ExtractionErrors.
Context {R : Type} `{Remote R}.

(** An extraction for a phone without a session, or of a kind other than
    usernames, links and phones, is refused with an error result and
    nothing else happens: no log line, no call to the service.  The
    missing session is reported first. *)
Theorem extract_refused_before_any_call (phone channel_link extract_type : string)
    (limit : Z) (w : World R) :
  clients w !! phone = None
  \/ (extract_type <> "usernames" /\ extract_type <> "links"
      /\ extract_type <> "phones") ->
  extract_from_channel phone channel_link extract_type limit w
  = (Ok {| er_status := "error";
           er_data := DataText (match clients w !! phone with
                                | None => "Account is not online."
                                | Some _ => "Invalid extraction type."
                                end) |}, w).
Proof.
  intros Hbad. unfold extract_from_channel, bind, get_clients.
  destruct (clients w !! phone) as [c|] eqn:Hc; [|done].
  destruct Hbad as [? | (Hu & Hl & Hp)]; [done|].
  unfold patterns.
  apply String.eqb_neq in Hu, Hl, Hp. by rewrite Hu, Hl, Hp.
Qed.

(** [extract_from_channel] never raises and never changes the registry or
    the store.  When the scan of the channel raises, the result is an
    error whose text is "An error occurred: " followed by the text of the
    exception. *)
Theorem extract_never_raises (phone channel_link extract_type : string)
    (limit : Z) (w : World R) :
  let run := extract_from_channel phone channel_link extract_type limit w in
  (exists res, run.1 = Ok res
               /\ (er_status res = "success" \/ er_status res = "error"))
  /\ clients run.2 = clients w /\ db run.2 = db w
  /\ match clients w !! phone, patterns extract_type,
           (r_iter_messages channel_link limit (remote w)).1 with
     | Some _, Some _, Raise e =>
         run.1 = Ok {| er_status := "error";
                       er_data := DataText ("An error occurred: " +:+ exn_str e) |}
     | _, _, _ => True
     end.
Proof.
  cbv zeta. unfold extract_from_channel, bind, get_clients.
  destruct (clients w !! phone) as [c|].
  2: { split; [eexists; split; [reflexivity | by right]|]. by split. }
  destruct (patterns extract_type) as [regex|].
  2: { split; [eexists; split; [reflexivity | by right]|]. by split. }
  unfold try_except, bind, call, log, emit, ret. cbn -[exn_str sorted scan_messages].
  destruct (r_iter_messages channel_link limit (remote w)) as [[messages|e] s];
    cbn -[exn_str sorted scan_messages].
  - split; [eexists; split; [reflexivity | by left]|]. by split.
  - split; [eexists; split; [reflexivity | by right]|]. by split.
Qed.

End ExtractionErrors.

Lemma extract_refused_before_any_call_witness :
  let w := world_of one_session empty_db quiet in
  (clients w !! "+15550001" = None
   \/ ("emails" <> "usernames" /\ "emails" <> "links" /\ "emails" <> "phones"))
  /\ extract_from_channel "+15550001" "t.me/somechannel" "emails" 100 w
     = (Ok {| er_status := "error";
              er_data := DataText "Invalid extraction type." |}, w).
Proof.
  assert (Hbad : clients (world_of (R := Script) one_session empty_db quiet)
                   !! "+15550001" = None
                 \/ ("emails" <> "usernames" /\ "emails" <> "links"
                     /\ "emails" <> "phones")).
  { right. repeat split; discriminate. }
  split; [exact Hbad|].
  exact (extract_refused_before_any_call "+15550001" "t.me/somechannel" "emails" 100
           (world_of one_session empty_db quiet) Hbad).
Defined.

(** ** Splitting and stripping *)

Lemma split_nonempty (sep : ascii) (s : string) : Py.split sep s <> [].
Proof.
  induction s as [|c s IH]; cbn; [done|].
  destruct (Ascii.eqb c sep); [done|]. by destruct (Py.split sep s).
Qed.

Lemma split_at_sep (sep : ascii) (a b : string) :
  Py.split sep (a +:+ String sep b) = (Py.split sep a ++ Py.split sep b)%list.
Proof.
  induction a as [|c a IH].
  - change (EmptyString +:+ String sep b) with (String sep b).
    cbn [Py.split]. by rewrite Ascii.eqb_refl.
  - rewrite append_cons. cbn [Py.split]. destruct (Ascii.eqb c sep); [by rewrite IH|].
    rewrite IH. pose proof (split_nonempty sep a) as Hne.
    by destruct (Py.split sep a).
Qed.

Lemma split_without_sep (sep : ascii) (s : string) :
  all_chars (fun c => negb (Ascii.eqb c sep)) s = true -> Py.split sep s = [s].
Proof.
  induction s as [|c s IH]; cbn; [done|].
  intros [Hc Hs]%andb_true_iff. apply negb_true_iff in Hc. rewrite Hc.
  by rewrite (IH Hs).
Qed.

Lemma rev_app_spec (a acc : string) :
  String.rev_app a acc = String.rev a +:+ acc.
Proof.
  revert acc. induction a as [|c a IH]; intros acc; [reflexivity|].
  unfold String.rev. cbn [String.rev_app].
  rewrite (IH (String c acc)), (IH (String c EmptyString)).
  by rewrite append_assoc.
Qed.

Lemma rev_snoc (a : string) (c : ascii) :
  String.rev (a +:+ String c EmptyString) = String c (String.rev a).
Proof.
  induction a as [|d a IH]; [reflexivity|].
  rewrite append_cons. unfold String.rev in *. cbn [String.rev_app].
  rewrite rev_app_spec. unfold String.rev. rewrite IH.
  rewrite append_cons. f_equal. symmetry. apply rev_app_spec.
Qed.

Lemma rev_cons (c : ascii) (a : string) :
  String.rev (String c a) = String.rev a +:+ String c EmptyString.
Proof. unfold String.rev. cbn [String.rev_app]. apply rev_app_spec. Qed.

Lemma rev_involutive (s : string) : String.rev (String.rev s) = s.
Proof.
  induction s as [|c s IH]; [reflexivity|].
  by rewrite rev_cons, rev_snoc, IH.
Qed.

Lemma rstrip_snoc_kept (p : ascii -> bool) (a : string) (c : ascii) :
  p c = false ->
  Py.rstrip_by p (a +:+ String c EmptyString) = a +:+ String c EmptyString.
Proof.
  intros Hc. unfold Py.rstrip_by. rewrite rev_snoc. cbn [Py.lstrip_by].
  rewrite Hc. by rewrite <- rev_snoc, rev_involutive.
Qed.

Lemma rstrip_snoc_dropped (p : ascii -> bool) (a : string) (c : ascii) :
  p c = true ->
  Py.rstrip_by p (a +:+ String c EmptyString) = Py.rstrip_by p a.
Proof.
  intros Hc. unfold Py.rstrip_by. rewrite rev_snoc. cbn [Py.lstrip_by].
  by rewrite Hc.
Qed.

Lemma last_char (s : string) :
  s <> EmptyString ->
  exists init c, s = init +:+ String c EmptyString.
Proof.
  induction s as [|d s IH]; [done|]. intros _.
  destruct s as [|e s].
  - by exists EmptyString, d.
  - destruct IH as (init & c & Hs); [done|].
    exists (String d init), c. by rewrite append_cons, <- Hs.
Qed.

Lemma all_chars_append (p : ascii -> bool) (a b : string) :
  all_chars p (a +:+ b) = all_chars p a && all_chars p b.
Proof.
  induction a as [|c a IH]; [reflexivity|].
  rewrite append_cons. cbn [all_chars]. by rewrite IH, andb_assoc.
Qed.

Lemma rstrip_slash_kept (a b : string) :
  b <> EmptyString -> no_slash b ->
  Py.rstrip_char "/" (a +:+ b) = a +:+ b.
Proof.
  intros Hne Hb. destruct (last_char b Hne) as (init & c & ->).
  unfold no_slash in Hb. rewrite all_chars_append in Hb.
  apply andb_true_iff in Hb as [_ Hc]. cbn in Hc. rewrite andb_true_r in Hc.
  apply negb_true_iff in Hc.
  rewrite <- append_assoc. apply rstrip_snoc_kept.
  by rewrite Ascii.eqb_sym.
Qed.

(** ** Broadcast jobs on well-formed references *)

Section BroadcastMore.
Context {R : Type} `{Remote R}.

(** A trailing slash of the message reference changes nothing. *)
Theorem trailing_slash_is_ignored (client : Client) (message_link : string)
    (delay cycle_delay : Z) (targets : list string) (hide_sender : bool)
    (w : World R) :
  _forwarding_job_runner client (message_link +:+ "/") delay cycle_delay
    targets hide_sender w
  = _forwarding_job_runner client message_link delay cycle_delay
      targets hide_sender w.
Proof.
  unfold _forwarding_job_runner.
  assert (Hstrip : Py.rstrip_char "/" (message_link +:+ "/")
                   = Py.rstrip_char "/" message_link).
  { unfold Py.rstrip_char. apply rstrip_snoc_dropped. reflexivity. }
  by rewrite Hstrip.
Qed.

Lemma deliver_extends (chat : string) (message_id : Z) (hide_sender : bool)
    (target : string) (w : World R) :
  exists tr, trace (deliver chat message_id hide_sender target w).2
             = (trace w ++ tr)%list.
Proof.
  unfold deliver, bind, call, ret. destruct hide_sender.
  - destruct (r_get_messages chat message_id (remote w)) as [[[m|]|e] s]; cbn.
    + destruct (r_send_message target m s) as [r s']; cbn.
      eexists. by rewrite <- app_assoc.
    + by eexists.
    + by eexists.
  - destruct (r_forward_messages target message_id chat (remote w)) as [r s]; cbn.
    by eexists.
Qed.

Lemma forward_loop_extends (chat : string) (message_id cycle_delay : Z)
    (hide_sender : bool) (targets : list string) (w : World R) :
  exists tr,
    trace (for_each targets
             (forward_one chat message_id cycle_delay hide_sender) w).2
    = (trace w ++ tr)%list.
Proof.
  revert w. induction targets as [|target rest IH]; intros w.
  - exists []. cbn. by rewrite app_nil_r.
  - cbn [for_each].
    pose proof (forward_one_outcome chat message_id cycle_delay hide_sender target w) as Hone.
    destruct (deliver_extends chat message_id hide_sender target
                (add_trace w [attempt_log target])) as [tr1 Htr1].
    destruct (deliver chat message_id hide_sender target _) as [[[]|e] w1];
      cbn [fst snd] in *; rewrite (bind_ok _ _ _ _ _ Hone);
      match goal with |- context [for_each rest _ ?w2] =>
        destruct (IH w2) as [tr2 Htr2] end;
      rewrite Htr2; cbn; rewrite Htr1; cbn; eexists; by rewrite <- !app_assoc.
Qed.

(** A reference that ends in [/<chat>/<id>], with a chat segment without
    slash and an integer as last segment, is read as that chat and that
    message, whatever comes before.  The job then logs its start, sleeps
    the initial delay once, turns to every target in the given order, logs
    its completion and ends normally, whatever the deliveries do. *)
Theorem well_formed_reference_runs_every_target (client : Client)
    (prefix chat last_part : string) (message_id delay cycle_delay : Z)
    (targets : list string) (hide_sender : bool) (w : World R) :
  no_slash chat -> no_slash last_part -> Py.int last_part = Some message_id ->
  let run := _forwarding_job_runner client
               (prefix +:+ "/" +:+ chat +:+ "/" +:+ last_part)
               delay cycle_delay targets hide_sender w in
  run.1 = Ok tt
  /\ attempted (trace run.2) = (attempted (trace w) ++ targets)%list
  /\ exists tr,
       trace run.2
       = (trace w ++
          [Log [Lit "   -> Starting forwarding job for message "; FInt message_id;
                Lit " from "; FStr chat];
           Sleep delay] ++ tr ++
          [Log [Lit "   -> Forwarding job for "; FInt message_id;
                Lit " completed."]])%list.
Proof.
  intros Hchat Hlast Hint run. unfold run, _forwarding_job_runner.
  assert (Hne : last_part <> EmptyString) by (intros ->; discriminate Hint).
  assert (Hstrip : Py.rstrip_char "/" (prefix +:+ "/" +:+ chat +:+ "/" +:+ last_part)
                   = prefix +:+ "/" +:+ chat +:+ "/" +:+ last_part).
  { rewrite <- !append_assoc. by apply rstrip_slash_kept. }
  rewrite Hstrip.
  assert (Hparts : Py.split "/" (prefix +:+ "/" +:+ chat +:+ "/" +:+ last_part)
                   = (Py.split "/" prefix ++ [chat; last_part])%list).
  { change (prefix +:+ "/" +:+ chat +:+ "/" +:+ last_part)
      with (prefix +:+ String "/" (chat +:+ String "/" last_part)).
    rewrite !split_at_sep.
    rewrite (split_without_sep "/" chat Hchat), (split_without_sep "/" last_part Hlast).
    reflexivity. }
  rewrite Hparts.
  set (parts := (Py.split "/" prefix ++ [chat; last_part])%list).
  assert (Hlen : length parts = (length (Py.split "/" prefix) + 2)%nat)
    by (unfold parts; by rewrite length_app).
  destruct (index_from_end_ok parts 2 w) as (c & Hc & Hchat_ok); [lia|].
  destruct (index_from_end_ok parts 1 w) as (l & Hl & Hlast_ok); [lia|].
  rewrite Hlen in Hc, Hl. unfold parts in Hc, Hl.
  rewrite lookup_app_r in Hc by lia. rewrite lookup_app_r in Hl by lia.
  replace (length (Py.split "/" prefix) + 2 - 2 - length (Py.split "/" prefix))%nat
    with 0%nat in Hc by lia.
  replace (length (Py.split "/" prefix) + 2 - 1 - length (Py.split "/" prefix))%nat
    with 1%nat in Hl by lia.
  cbn in Hc, Hl. injection Hc as <-. injection Hl as <-.
  unfold try_except.
  rewrite (bind_ok _ _ _ _ _ Hchat_ok), (bind_ok _ _ _ _ _ Hlast_ok).
  assert (Hid : int_ (R := R) last_part w = (Ok message_id, w))
    by (unfold int_; by rewrite Hint).
  rewrite (bind_ok _ _ _ _ _ Hid).
  set (start := Log [Lit "   -> Starting forwarding job for message "; FInt message_id;
                     Lit " from "; FStr chat]).
  rewrite (bind_ok _ _ w (add_trace w [start]) tt) by reflexivity.
  rewrite (bind_ok _ _ (add_trace w [start]) (add_trace w [start; Sleep delay]) tt)
    by (unfold sleep, emit, add_trace; cbn; by rewrite <- app_assoc).
  destruct (forward_loop_attempts_all chat message_id cycle_delay hide_sender targets
              (add_trace w [start; Sleep delay])) as [Hok Hatt].
  destruct (forward_loop_extends chat message_id cycle_delay hide_sender targets
              (add_trace w [start; Sleep delay])) as [tr Htr].
  destruct (for_each targets _ (add_trace w [start; Sleep delay])) as [r w1] eqn:Hloop.
  cbn [fst snd] in *. subst r. rewrite (bind_ok _ _ _ _ _ Hloop).
  unfold log, emit. cbn.
  split; [done|]. split.
  - rewrite attempted_app, Hatt. cbn. rewrite attempted_app. cbn.
    by rewrite !app_nil_r.
  - exists tr. rewrite Htr. cbn. by rewrite <- !app_assoc.
Qed.

(** In copy mode, when the message to copy cannot be fetched (the lookup
    answers with no message), nothing is sent to the target; the
    iteration still logs success and sleeps the cycle delay. *)
Theorem copy_of_missing_message_counts_as_success (chat : string)
    (message_id cycle_delay : Z) (target : string) (w : World R) (s : R) :
  r_get_messages chat message_id (remote w) = (Ok None, s) ->
  forward_one chat message_id cycle_delay true target w
  = (Ok tt,
     {| clients := clients w; db := db w; remote := s;
        trace := (trace w ++
                  [attempt_log target; GetMessages chat message_id;
                   Log [Lit "      -> Success. Waiting for cycle delay of ";
                        FInt cycle_delay; Lit "s."];
                   Sleep cycle_delay])%list |}).
Proof.
  intros Hget. unfold forward_one, try_except, deliver, bind, call, log, sleep,
    emit, ret, attempt_log. cbn. rewrite Hget. cbn. by rewrite <- !app_assoc.
Qed.

End BroadcastMore.

Lemma well_formed_reference_runs_every_target_witness :
  let w := world_of one_session empty_db quiet in
  let run := _forwarding_job_runner {| client_session := "session" |}
               ("https://t.me" +:+ "/" +:+ "somechannel" +:+ "/" +:+ "1234")
               0 5 ["@one"; "@two"] false w in
  no_slash "somechannel" /\ no_slash "1234" /\ Py.int "1234" = Some 1234
  /\ run.1 = Ok tt
  /\ attempted (trace run.2) = (attempted (trace w) ++ ["@one"; "@two"])%list
  /\ exists tr,
       trace run.2
       = (trace w ++
          [Log [Lit "   -> Starting forwarding job for message "; FInt 1234;
                Lit " from "; FStr "somechannel"];
           Sleep 0] ++ tr ++
          [Log [Lit "   -> Forwarding job for "; FInt 1234; Lit " completed."]])%list.
Proof.
  cbv zeta. split; [reflexivity|]. split; [reflexivity|]. split; [reflexivity|].
  exact (well_formed_reference_runs_every_target {| client_session := "session" |}
           "https://t.me" "somechannel" "1234" 1234 0 5 ["@one"; "@two"] false
           (world_of one_session empty_db quiet) eq_refl eq_refl eq_refl).
Defined.

Lemma copy_of_missing_message_counts_as_success_witness :
  let w := world_of one_session empty_db quiet in
  r_get_messages "somechannel" 1234 (remote w) = (Ok None, quiet)
  /\ forward_one "somechannel" 1234 5 true "@one" w
     = (Ok tt,
        {| clients := clients w; db := db w; remote := quiet;
           trace := (trace w ++
                     [attempt_log "@one"; GetMessages "somechannel" 1234;
                      Log [Lit "      -> Success. Waiting for cycle delay of ";
                           FInt 5; Lit "s."];
                      Sleep 5])%list |}).
Proof.
  cbv zeta. split; [reflexivity|].
  exact (copy_of_missing_message_counts_as_success "somechannel" 1234 5 "@one"
           (world_of one_session empty_db quiet) quiet eq_refl).
Defined.

(** ** The forwarding handler, rule by rule *)

Lemma for_each_app {R A} (xs ys : list A) (body : A -> M R unit) (w : World R) :
  for_each (xs ++ ys) body w = (for_each xs body ;;; for_each ys body) w.
Proof.
  revert w. induction xs as [|x xs IH]; intros w; cbn [for_each app].
  - reflexivity.
  - unfold bind in *. destruct (body x w) as [[[]|e] w1]; [|reflexivity].
    by rewrite IH.
Qed.

Section HandlerRules.
Context {R : Type} `{Remote R}.

Lemma handler_unfold (phone : string) (rules : list ForwardingRule)
    (event : NewMessage) :
  handler phone rules event
  = (log [Lit "   -> New message in "; FInt (chat_id event);
          Lit " for client "; FStr phone] ;;;
     log [Lit "[FORWARD] New message in "; FInt (chat_id event);
          Lit " for client "; FStr phone] ;;;
     for_each rules (forward_rule event)).
Proof. reflexivity. Qed.

Lemma forward_rule_readable (event : NewMessage) (rule : ForwardingRule)
    (w : World R) :
  is_Some (Py.int (source_chat rule)) ->
  exists w1, forward_rule event rule w = (Ok tt, w1)
    /\ forwards (trace w1)
       = (forwards (trace w) ++ option_list (rule_target event rule))%list.
Proof.
  intros [src Hs].
  unfold forward_rule, rule_target, bind, int_, try_except, call, log, emit, ret, raise.
  rewrite Hs. cbn. destruct (Z.eqb src (chat_id event)).
  - destruct (Py.int (destination_chat rule)) as [dest|] eqn:Hd; cbn.
    + destruct (r_forward_to event dest (remote w)) as [[[]|e] s]; cbn.
      * eexists; split; [reflexivity|]. cbn.
        rewrite !forwards_app. cbn. by rewrite !app_nil_r.
      * destruct e; eexists; (split; [reflexivity|]); cbn;
          rewrite !forwards_app; cbn; by rewrite !app_nil_r.
    + eexists; split; [reflexivity|]. cbn.
      rewrite !forwards_app. cbn. by rewrite !app_nil_r.
  - eexists; split; [reflexivity|]. cbn. by rewrite app_nil_r.
Qed.

Lemma forward_rules_readable (event : NewMessage) (rules : list ForwardingRule)
    (w : World R) :
  (forall rule, rule ∈ rules -> is_Some (Py.int (source_chat rule))) ->
  exists w1, for_each rules (forward_rule event) w = (Ok tt, w1)
    /\ forwards (trace w1)
       = (forwards (trace w) ++ omap (rule_target event) rules)%list.
Proof.
  revert w. induction rules as [|rule rules IH]; intros w Hsrc.
  - exists w. cbn. by rewrite app_nil_r.
  - destruct (forward_rule_readable event rule w) as (w1 & H1 & F1);
      [apply Hsrc, list_elem_of_here|].
    destruct (IH w1) as (w2 & H2 & F2);
      [intros r Hr; by apply Hsrc, list_elem_of_further|].
    exists w2. cbn [for_each]. rewrite (bind_ok _ _ _ _ _ H1). split; [done|].
    rewrite F2, F1, <- app_assoc. f_equal. cbn.
    by destruct (rule_target event rule).
Qed.

(** The handler evaluates the rules in order and stops at the first rule
    whose source is no integer: it raises [ValueError] there.  The
    forwards it has attempted are those of the matching rules before that
    rule; the rules after it are not evaluated. *)
Theorem handler_stops_at_unreadable_source (phone : string)
    (before : list ForwardingRule) (bad : ForwardingRule)
    (after : list ForwardingRule) (event : NewMessage) (w : World R) :
  (forall rule, rule ∈ before -> is_Some (Py.int (source_chat rule))) ->
  Py.int (source_chat bad) = None ->
  (handler phone (before ++ bad :: after) event w).1
  = Raise (ValueError (int_error (source_chat bad)))
  /\ forwards (trace (handler phone (before ++ bad :: after) event w).2)
     = (forwards (trace w) ++ omap (rule_target event) before)%list.
Proof.
  intros Hbefore Hbad. rewrite handler_unfold.
  set (w0 := add_trace w
               [Log [Lit "   -> New message in "; FInt (chat_id event);
                     Lit " for client "; FStr phone];
                Log [Lit "[FORWARD] New message in "; FInt (chat_id event);
                     Lit " for client "; FStr phone]]).
  assert (Hlogs : forall k : M R unit,
            (log [Lit "   -> New message in "; FInt (chat_id event);
                  Lit " for client "; FStr phone] ;;;
             log [Lit "[FORWARD] New message in "; FInt (chat_id event);
                  Lit " for client "; FStr phone] ;;; k) w = k w0).
  { intros k. unfold bind, log, emit, w0, add_trace. cbn. by rewrite <- app_assoc. }
  rewrite Hlogs, for_each_app.
  destruct (forward_rules_readable event before w0 Hbefore) as (w1 & Hloop & Hf).
  rewrite (bind_ok _ _ _ _ _ Hloop). cbn [for_each].
  assert (Hraise : forward_rule event bad w1
                   = (Raise (ValueError (int_error (source_chat bad))), w1)).
  { unfold forward_rule, bind, int_. by rewrite Hbad. }
  rewrite (bind_raise _ _ _ _ _ Hraise). cbn [fst snd].
  split; [done|]. rewrite Hf. unfold w0. cbn. rewrite forwards_app. cbn.
  by rewrite app_nil_r.
Qed.

End HandlerRules.

Lemma handler_forwards_witness :
  let w := world_of (R := Script) one_session empty_db quiet in
  let event := group_message 100 "hello" in
  (forall rule, rule ∈ four_rules -> is_Some (Py.int (source_chat rule)))
  /\ (handler "+15550001" four_rules event w).1 = Ok tt
  /\ forwards (trace (handler "+15550001" four_rules event w).2) = [200; 400].
Proof.
  cbv zeta.
  assert (Hsrc : forall rule, rule ∈ four_rules -> is_Some (Py.int (source_chat rule))).
  { intros rule Hin. unfold four_rules in Hin.
    repeat (apply elem_of_cons in Hin as [-> | Hin]; [by eexists|]).
    by apply elem_of_nil in Hin. }
  split; [exact Hsrc|].
  exact (handler_forwards "+15550001" four_rules (group_message 100 "hello")
           (world_of one_session empty_db quiet) Hsrc).
Defined.

Lemma handler_stops_at_unreadable_source_witness :
  let w := world_of (R := Script) one_session empty_db quiet in
  let event := group_message 100 "hello" in
  (forall rule, rule ∈ four_rules -> is_Some (Py.int (source_chat rule)))
  /\ Py.int (source_chat (sample_rule "@news" "1")) = None
  /\ (handler "+15550001" (four_rules ++ sample_rule "@news" "1"
                              :: [sample_rule "100" "500"]) event w).1
     = Raise (ValueError (int_error "@news"))
  /\ forwards (trace (handler "+15550001"
                        (four_rules ++ sample_rule "@news" "1"
                           :: [sample_rule "100" "500"]) event w).2)
     = [200; 400].
Proof.
  cbv zeta.
  assert (Hsrc : forall rule, rule ∈ four_rules -> is_Some (Py.int (source_chat rule))).
  { intros rule Hin. unfold four_rules in Hin.
    repeat (apply elem_of_cons in Hin as [-> | Hin]; [by eexists|]).
    by apply elem_of_nil in Hin. }
  split; [exact Hsrc|]. split; [reflexivity|].
  exact (handler_stops_at_unreadable_source "+15550001" four_rules
           (sample_rule "@news" "1") [sample_rule "100" "500"]
           (group_message 100 "hello")
           (world_of one_session empty_db quiet) Hsrc eq_refl).
Defined.

(** ** Parsed keywords *)

Lemma lower_char_idem (c : ascii) :
  Py.lower_char (Py.lower_char c) = Py.lower_char c.
Proof. by destruct c as [[] [] [] [] [] [] [] []]. Qed.

Lemma lower_char_comma (c : ascii) :
  Ascii.eqb (Py.lower_char c) "," = Ascii.eqb c ",".
Proof. by destruct c as [[] [] [] [] [] [] [] []]. Qed.

Lemma lower_idem (s : string) : Py.lower (Py.lower s) = Py.lower s.
Proof.
  induction s as [|c s IH]; cbn [Py.lower]; [done|].
  by rewrite lower_char_idem, IH.
Qed.

Lemma lower_no_comma (s : string) : no_comma s -> no_comma (Py.lower s).
Proof.
  unfold no_comma. induction s as [|c s IH]; cbn [Py.lower all_chars]; [done|].
  intros [Hc Hs]%andb_true_iff. by rewrite lower_char_comma, Hc, (IH Hs).
Qed.

Lemma all_chars_lstrip (p q : ascii -> bool) (s : string) :
  all_chars p s = true -> all_chars p (Py.lstrip_by q s) = true.
Proof.
  induction s as [|c s IH]; cbn [Py.lstrip_by]; [done|].
  intros Hall. destruct (q c); [|done].
  apply IH. cbn in Hall. by apply andb_true_iff in Hall as [_ ?].
Qed.

Lemma all_chars_rev (p : ascii -> bool) (s : string) :
  all_chars p (String.rev s) = all_chars p s.
Proof.
  induction s as [|c s IH]; [reflexivity|].
  rewrite rev_cons, all_chars_append, IH. cbn [all_chars].
  by rewrite andb_true_r, andb_comm.
Qed.

Lemma all_chars_strip (p : ascii -> bool) (s : string) :
  all_chars p s = true -> all_chars p (Py.strip s) = true.
Proof.
  intros Hall. unfold Py.strip, Py.rstrip_by.
  rewrite all_chars_rev. apply all_chars_lstrip.
  rewrite all_chars_rev. by apply all_chars_lstrip.
Qed.

Lemma split_pieces_without_sep (sep : ascii) (s piece : string) :
  piece ∈ Py.split sep s ->
  all_chars (fun c => negb (Ascii.eqb c sep)) piece = true.
Proof.
  revert piece. induction s as [|c s IH]; intros piece; cbn [Py.split].
  - by intros ->%list_elem_of_singleton.
  - destruct (Ascii.eqb c sep) eqn:Hc.
    + intros [-> | Hin]%elem_of_cons; [done | by apply IH].
    + pose proof (split_nonempty sep s) as Hne.
      destruct (Py.split sep s) as [|h t]; [done|].
      intros [-> | Hin]%elem_of_cons.
      * cbn [all_chars]. rewrite Hc. cbn. apply IH, list_elem_of_here.
      * apply IH. by apply list_elem_of_further.
Qed.

(** Every parsed keyword is non-empty, contains no comma and is its own
    lower-case form.  In particular the empty keyword, which is a
    substring of every message, is never in the list. *)
Theorem parsed_keywords_are_clean (field : option string) (k : string) :
  k ∈ parse_keywords field ->
  k <> EmptyString /\ no_comma k /\ Py.lower k = k.
Proof.
  intros (piece & Hin & Hne & ->)%parse_keywords_elem.
  split; [|split].
  - destruct (Py.strip piece); [done | discriminate].
  - apply lower_no_comma. unfold no_comma. apply all_chars_strip.
    by apply (split_pieces_without_sep "," (Py.or_empty field)).
  - apply lower_idem.
Qed.

Lemma parsed_keywords_are_clean_witness :
  "buy now" ∈ parse_keywords (Some " Price ,, Buy NOW , ")
  /\ "buy now" <> EmptyString /\ no_comma "buy now" /\ Py.lower "buy now" = "buy now".
Proof.
  assert (Hin : "buy now" ∈ parse_keywords (Some " Price ,, Buy NOW , ")).
  { vm_compute. apply list_elem_of_further, list_elem_of_here. }
  split; [exact Hin|].
  exact (parsed_keywords_are_clean (Some " Price ,, Buy NOW , ") "buy now" Hin).
Defined.

(** ** From the endpoints to the worker *)

Section EndpointFacts.
Context {R : Type} `{Remote R}.

(** A rule added through the API is stored with a status the worker takes
    as active: it is the last of the active rules of its account at the
    next connect, and the active rules of the other accounts are the same
    as before. *)
Theorem added_rule_is_active (rule : ForwardingRuleIn) (phone : string)
    (w : World R) :
  let rule_doc := {| account_phone := in_account_phone rule;
                     source_chat := in_source_chat rule;
                     destination_chat := in_destination_chat rule;
                     rule_status := "active" |} in
  active_rules phone (db (add_forwarding_rule rule w).2)
  = (active_rules phone (db w)
     ++ if String.eqb (in_account_phone rule) phone then [rule_doc] else [])%list.
Proof.
  cbv zeta. unfold add_forwarding_rule, bind, get_db, set_db, ret, active_rules.
  cbn [fst snd db forwarding_rules put_rules].
  rewrite filter_app. f_equal.
  destruct (String.eqb (in_account_phone rule) phone) eqn:Hp.
  - rewrite filter_cons_True; [done|]. cbn. by rewrite Hp.
  - rewrite filter_cons_False; [done|]. cbn. by rewrite Hp.
Qed.

End EndpointFacts.

Section FinallyBlock.
Context {R : Type} `{Remote R}.

(** the finally block never replies *)
Lemma try_finally_replies {A} (body : M R A) (phone : string) (w : World R) :
  replies (trace (try_finally body
                    (cs <- get_clients ;;
                     (if decide (is_Some (cs !! phone)) then del_client phone
                      else ret tt) ;;;
                     db_set_status phone "Offline" ;;;
                     log [Lit "[INFO] Client for "; FStr phone;
                          Lit " disconnected."]) w).2)
  = replies (trace (body w).2).
Proof.
  unfold try_finally. destruct (body w) as [r w1]. rewrite run_client_finally.
  cbn. rewrite replies_app. cbn. by rewrite app_nil_r.
Qed.

End FinallyBlock.

(** ** What never replies *)

Lemma nr_ret {R A} (a : A) : never_replies (ret (R := R) a).
Proof. by intros w. Qed.

Lemma nr_emit {R} (e : effect) : is_reply e = false -> never_replies (emit (R := R) e).
Proof.
  intros He w. cbn. rewrite replies_app. destruct e; try discriminate He;
    cbn; by rewrite app_nil_r.
Qed.

Lemma nr_log {R} (parts : list fragment) : never_replies (log (R := R) parts).
Proof. by apply nr_emit. Qed.

Lemma nr_call {R A} (e : effect) (f : R -> result A * R) :
  is_reply e = false -> never_replies (call e f).
Proof.
  intros He w. unfold call. destruct (f (remote w)) as [r s]. cbn.
  rewrite replies_app. destruct e; try discriminate He; cbn; by rewrite app_nil_r.
Qed.

Lemma nr_int {R} (s : string) : never_replies (int_ (R := R) s).
Proof. intros w. unfold int_. by destruct (Py.int s). Qed.

Lemma nr_read {R A} (f : World R -> A) :
  never_replies (fun w : World R => (Ok (f w), w)).
Proof. by intros w. Qed.

Lemma nr_bind_post {R A B} (m : M R A) (k : A -> M R B) (P : A -> Prop) :
  never_replies m -> (forall w a, (m w).1 = Ok a -> P a) ->
  (forall a, P a -> never_replies (k a)) -> never_replies (bind m k).
Proof.
  intros Hm HP Hk w. unfold bind. pose proof (Hm w) as Hw.
  pose proof (HP w) as HPw.
  destruct (m w) as [[a|e] w1]; cbn in *; [|done].
  by rewrite (Hk a (HPw a eq_refl) w1).
Qed.

Lemma nr_bind {R A B} (m : M R A) (k : A -> M R B) :
  never_replies m -> (forall a, never_replies (k a)) -> never_replies (bind m k).
Proof.
  intros Hm Hk. apply (nr_bind_post m k (fun _ => True)); auto.
Qed.

Lemma nr_try_except {R A B} (body : M R A) (sel : exn -> option B)
    (handler : B -> M R A) :
  never_replies body -> (forall b, never_replies (handler b)) ->
  never_replies (try_except body sel handler).
Proof.
  intros Hm Hk w. unfold try_except. pose proof (Hm w) as Hw.
  destruct (body w) as [[a|e] w1]; cbn in *; [done|].
  destruct (sel e) as [b|]; [|done]. by rewrite (Hk b w1).
Qed.

Lemma nr_for_each {R A} (xs : list A) (body : A -> M R unit) :
  (forall x, never_replies (body x)) -> never_replies (for_each xs body).
Proof.
  intros Hb. induction xs as [|x xs IH]; cbn [for_each].
  - apply nr_ret.
  - apply nr_bind; [apply Hb | intros _; exact IH].
Qed.

Section ForwardingNeverReplies.
Context {R : Type} `{Remote R}.

(** The forwarding handler never sends a reply. *)
Lemma handler_never_replies (phone : string) (rules : list ForwardingRule)
    (event : NewMessage) : never_replies (handler phone rules event).
Proof.
  unfold handler.
  apply nr_bind; [apply nr_log | intros _].
  apply nr_bind; [apply nr_log | intros _].
  apply nr_for_each. intros rule.
  apply nr_bind; [apply nr_int | intros src].
  destruct (Z.eqb src (chat_id event)); [|apply nr_ret].
  apply nr_try_except.
  - apply nr_bind; [apply nr_int | intros dest].
    apply nr_bind; [by apply nr_call | intros _].
    apply nr_bind; [apply nr_log | intros _; apply nr_log].
  - intros e. destruct e; apply nr_log.
Qed.

Lemma source_chat_ids_never_replies (rules : list ForwardingRule) :
  never_replies (source_chat_ids (R := R) rules).
Proof.
  induction rules as [|rule rules IH]; cbn [source_chat_ids]; [apply nr_ret|].
  destruct (Py.isdigit _); [|exact IH].
  apply nr_bind; [apply nr_int | intros z].
  apply nr_bind; [exact IH | intros ids; apply nr_ret].
Qed.

Lemma dispatch_never_replies (handlers : list (@Handler R)) (event : NewMessage) :
  (forall h ev, h ∈ handlers -> never_replies (h_callback h ev)) ->
  never_replies (dispatch handlers event).
Proof.
  intros Hh. unfold dispatch.
  induction handlers as [|h hs IH]; cbn [for_each]; [apply nr_ret|].
  apply nr_bind.
  - destruct (h_filter h event); [|apply nr_ret].
    apply nr_try_except; [apply Hh, list_elem_of_here | intros; apply nr_ret].
  - intros _. apply IH. intros h' ev Hin. apply Hh. by apply list_elem_of_further.
Qed.

Lemma run_until_disconnected_never_replies (handlers : list (@Handler R)) :
  (forall h ev, h ∈ handlers -> never_replies (h_callback h ev)) ->
  never_replies (run_until_disconnected handlers).
Proof.
  intros Hh. unfold run_until_disconnected.
  apply nr_bind; [apply nr_read | intros updates].
  apply nr_bind; [by apply nr_emit | intros _].
  apply nr_bind.
  - apply nr_for_each. intros ev. by apply dispatch_never_replies.
  - intros _ w. by destruct (r_run_until_disconnected (remote w)).
Qed.

(** An account without an effective reply configuration never answers:
    when its auto-reply document is missing or has an empty message, and
    its smart selling document is missing, switched off or has an empty
    message, a whole run of the supervisor sends no reply, whatever the
    forwarding rules are, whatever arrives and whatever fails. *)
Theorem no_reply_without_reply_settings (phone session : string) (w : World R) :
  match auto_reply_settings (db w) !! phone with
  | Some settings => Py.truthy_opt (ar_message settings) = false
  | None => True
  end ->
  match smart_selling_settings (db w) !! phone with
  | Some smart_settings =>
      ss_enabled smart_settings && Py.truthy_opt (ss_message smart_settings) = false
  | None => True
  end ->
  replies (trace (_run_client phone session w).2) = replies (trace w).
Proof.
  intros Hauto Hsmart. unfold _run_client. rewrite try_finally_replies.
  unfold try_except.
  destruct (r_start phone (remote w)) as [[[]|e] s] eqn:Hs.
  2: { unfold bind, call, db_set_status, log, emit. rewrite Hs. cbn.
       rewrite !replies_app. cbn. by rewrite !app_nil_r. }
  assert (Hcall : call (Start phone) (r_start phone) w
                  = (Ok tt, {| clients := clients w; db := db w; remote := s;
                               trace := (trace w ++ [Start phone])%list |}))
    by (unfold call; by rewrite Hs).
  rewrite (bind_ok _ _ _ _ _ Hcall).
  unfold bind at 1, set_client at 1. cbn [fst snd].
  unfold bind at 1, db_set_status at 1. cbn [clients db remote trace].
  unfold bind at 1, log at 1, emit at 1. cbn [fst snd clients db remote trace].
  unfold bind at 1, get_db at 1. cbn [fst snd clients db remote trace].
  change (active_rules phone (put_accounts _ (db w))) with (active_rules phone (db w)).
  change (auto_reply_settings (put_accounts _ (db w))) with (auto_reply_settings (db w)).
  change (smart_selling_settings (put_accounts _ (db w)))
    with (smart_selling_settings (db w)).
  set (w4 := Build_World _ _ _ _ _).
  assert (Hw4 : replies (trace w4) = replies (trace w)).
  { unfold w4. cbn. rewrite !replies_app. cbn. by rewrite !app_nil_r. }
  assert (Hexcept : forall (e : exn) (w5 : World R),
            replies (trace ((db_set_status phone "Error" ;;;
                             log [Lit "[ERROR] Client "; FStr phone;
                                  Lit " failed to connect: "; FExn e]) w5).2)
            = replies (trace w5)).
  { intros e w5. unfold bind, db_set_status, log, emit. cbn.
    rewrite !replies_app. cbn. by rewrite !app_nil_r. }
  set (h2 := match auto_reply_settings (db w) !! phone with
             | Some settings => _ | None => _ end).
  set (h3 := match smart_selling_settings (db w) !! phone with
             | Some settings => _ | None => _ end).
  assert (Hh2 : forall w5 : World R, h2 w5 = (Ok [], w5)).
  { intros w5. unfold h2. destruct (auto_reply_settings (db w) !! phone); [|done].
    by rewrite Hauto. }
  assert (Hh3 : forall w5 : World R, h3 w5 = (Ok [], w5)).
  { intros w5. unfold h3. destruct (smart_selling_settings (db w) !! phone); [|done].
    by rewrite Hsmart. }
  assert (Hrest : forall (h1 : list (@Handler R)) (w5 : World R),
            (forall h ev, h ∈ h1 -> never_replies (h_callback h ev)) ->
            replies (trace w5) = replies (trace w) ->
            replies (trace (let (r, w') :=
                              (h2' <- h2 ;; h3' <- h3 ;;
                               run_until_disconnected (h1 ++ h2' ++ h3')) w5 in
                            match r with
                            | Ok a => (Ok a, w')
                            | Raise e =>
                                (db_set_status phone "Error" ;;;
                                 log [Lit "[ERROR] Client "; FStr phone;
                                      Lit " failed to connect: "; FExn e]) w'
                            end).2)
            = replies (trace w)).
  { intros h1 w5 Hh1 Hw5.
    rewrite (bind_ok _ _ _ _ _ (Hh2 w5)), (bind_ok _ _ _ _ _ (Hh3 w5)).
    rewrite !app_nil_r.
    pose proof (run_until_disconnected_never_replies h1 Hh1 w5) as Hrun.
    destruct (run_until_disconnected h1 w5) as [[[]|e] w6]; cbn [fst snd] in *.
    - by rewrite Hrun.
    - by rewrite Hexcept, Hrun. }
  destruct (active_rules phone (db w)) as [|rule rules].
  - unfold bind at 1. unfold bind at 1, log at 1, emit at 1. cbn [fst snd ret].
    apply Hrest; [intros h ev Hin; by apply elem_of_nil in Hin|].
    unfold w4. cbn. rewrite !replies_app. cbn. by rewrite !app_nil_r.
  - unfold bind at 1. unfold bind at 1.
    pose proof (source_chat_ids_never_replies (rule :: rules) w4) as Hids.
    destruct (source_chat_ids (rule :: rules) w4) as [[ids|e] w5]; cbn [fst snd] in *.
    + unfold bind at 1, log at 1, emit at 1. cbn [fst snd ret].
      apply Hrest.
      * intros h ev Hin. apply list_elem_of_singleton in Hin as ->.
        apply handler_never_replies.
      * cbn. rewrite replies_app, Hids, Hw4. cbn. by rewrite app_nil_r.
    + cbv beta iota. change (any_exception e) with (Some e). cbv beta iota.
      by rewrite Hexcept, Hids.
Qed.

End ForwardingNeverReplies.

Lemma no_reply_without_reply_settings_witness :
  let w := world_of ∅ db_without_replies
             (hears [private_message "price?"; group_message 100 "buy now"]) in
  replies (trace (_run_client "+15550001" "session" w).2) = [].
Proof.
  exact (no_reply_without_reply_settings "+15550001" "session"
           (world_of ∅ db_without_replies
              (hears [private_message "price?"; group_message 100 "buy now"]))
           eq_refl eq_refl).
Defined.

Section DeletedAccounts.
Context {R : Type} `{Remote R}.

(** Deleting an account through the API does not touch the registry of
    live sessions, so a session of the account that is running goes on.
    When that session ends, its closing status update does not bring the
    deleted document back: the account is absent from the store after the
    deletion and after the run. *)
Theorem deleted_account_stays_deleted (phone session : string) (w : World R) :
  let deleted := (delete_account phone w).2 in
  let ended := (_run_client phone session deleted).2 in
  clients deleted = clients w
  /\ accounts (db deleted) !! phone = None
  /\ accounts (db ended) !! phone = None.
Proof.
  cbv zeta.
  assert (Hdel : clients (delete_account phone w).2 = clients w
                 /\ accounts (db (delete_account phone w).2) !! phone = None).
  { unfold delete_account, bind, get_db. cbn [fst snd].
    destruct (accounts (db w) !! phone) eqn:Hdoc; cbn; [|done].
    split; [done|]. apply lookup_delete_eq. }
  destruct Hdel as [Hc Hd]. split; [done|]. split; [done|].
  destruct (run_client_end_state phone session (delete_account phone w).2)
    as (_ & _ & ->).
  unfold stored_offline. cbn [accounts put_accounts]. by rewrite lookup_alter_eq, Hd.
Qed.

End DeletedAccounts.

(** ** Replies on a session *)

Section SessionReplies.
Context {R : Type} `{Remote R}.

Lemma answers_nothing (callback : NewMessage -> M R unit) :
  (forall event, never_replies (callback event)) -> answers callback (fun _ => []).
Proof. intros Hn event w. by rewrite Hn, app_nil_r. Qed.

Lemma auto_reply_handler_answers (settings : AutoReplySettings) :
  Py.truthy_opt (ar_message settings) = true ->
  answers (auto_reply_handler settings (parse_keywords (ar_keywords settings)))
          (auto_reply_answer (Some settings)).
Proof.
  intros Hmsg event w. unfold auto_reply_handler, auto_reply_answer.
  rewrite Hmsg. cbn [andb].
  destruct (is_private event && negb (out event)); cbn [andb];
    [|by rewrite app_nil_r].
  destruct (parse_keywords (ar_keywords settings)) as [|k ks]; cbn [nonempty negb orb].
  - apply reply_then_logs. intros w1. apply log_log_no_reply.
  - destruct (existsb _ (k :: ks)).
    + apply reply_then_logs. intros w1. apply log_log_no_reply.
    + by rewrite app_nil_r.
Qed.

Lemma smart_selling_handler_answers (smart_settings : SmartSellingSettings) :
  ss_enabled smart_settings && Py.truthy_opt (ss_message smart_settings) = true ->
  answers (smart_selling_handler smart_settings
             (parse_keywords (ss_must_contain smart_settings))
             (parse_keywords (ss_maybe_contain smart_settings)))
          (smart_selling_answer (Some smart_settings)).
Proof.
  intros Hon event w. unfold smart_selling_handler, smart_selling_answer.
  rewrite Hon. cbn [andb].
  destruct (is_private event && negb (out event)); cbn [andb];
    [|by rewrite app_nil_r].
  destruct (should_reply _ _ _).
  - apply reply_then_logs. intros w1. apply log_no_reply.
  - by rewrite app_nil_r.
Qed.

(** the dispatcher never raises; each registered callback adds its
    answers, in registration order *)
Lemma dispatch_answers (handlers : list (@Handler R))
    (answer_of : list (NewMessage -> list string)) (event : NewMessage) :
  Forall2 (fun h a => answers (h_callback h) a
                      /\ forall ev, h_filter h ev = false -> a ev = [])
          handlers answer_of ->
  forall w : World R,
    (dispatch handlers event w).1 = Ok tt
    /\ replies (trace (dispatch handlers event w).2)
       = (replies (trace w) ++ flat_map (fun a => a event) answer_of)%list.
Proof.
  unfold dispatch. induction 1 as [|h a hs as_ [Hans Hfilter] _ IH]; intros w.
  - cbn. by rewrite app_nil_r.
  - cbn [for_each flat_map].
    assert (Hhead : exists w1,
              (if h_filter h event
               then try_except (h_callback h event) any_exception (fun _ => ret tt)
               else ret tt) w = (Ok tt, w1)
              /\ replies (trace w1) = (replies (trace w) ++ a event)%list).
    { destruct (h_filter h event) eqn:Hf.
      - pose proof (Hans event w) as Hr. unfold try_except.
        destruct (h_callback h event w) as [[[]|e] w1]; cbn in *; by eexists.
      - exists w. split; [done|]. by rewrite (Hfilter event Hf), app_nil_r. }
    destruct Hhead as (w1 & Hrun & Hr).
    rewrite (bind_ok _ _ _ _ _ Hrun). destruct (IH w1) as [IH1 IH2].
    split; [done|]. by rewrite IH2, Hr, <- app_assoc.
Qed.

Lemma updates_answers (handlers : list (@Handler R))
    (answer_of : list (NewMessage -> list string)) (updates : list NewMessage) :
  Forall2 (fun h a => answers (h_callback h) a
                      /\ forall ev, h_filter h ev = false -> a ev = [])
          handlers answer_of ->
  forall w : World R,
    (for_each updates (dispatch handlers) w).1 = Ok tt
    /\ replies (trace (for_each updates (dispatch handlers) w).2)
       = (replies (trace w)
          ++ flat_map (fun event => flat_map (fun a => a event) answer_of) updates)%list.
Proof.
  intros Hh. induction updates as [|event updates IH]; intros w.
  - cbn. by rewrite app_nil_r.
  - cbn [for_each flat_map].
    destruct (dispatch_answers handlers answer_of event Hh w) as [H1 H2].
    destruct (dispatch handlers event w) as [r w1] eqn:Hd. cbn in H1, H2. subst r.
    rewrite (bind_ok _ _ _ _ _ Hd). destruct (IH w1) as [IH1 IH2].
    split; [done|]. by rewrite IH2, H2, <- app_assoc.
Qed.

(** a whole wait: the answers to the updates that arrive, in arrival
    order, whether the wait ends normally or with an error *)
Lemma run_until_disconnected_answers (handlers : list (@Handler R))
    (answer_of : list (NewMessage -> list string)) (w : World R) :
  Forall2 (fun h a => answers (h_callback h) a
                      /\ forall ev, h_filter h ev = false -> a ev = [])
          handlers answer_of ->
  replies (trace (run_until_disconnected handlers w).2)
  = (replies (trace w)
     ++ flat_map (fun event => flat_map (fun a => a event) answer_of)
                 (r_inbound (remote w)))%list.
Proof.
  intros Hh. unfold run_until_disconnected.
  rewrite (bind_ok _ _ w w (r_inbound (remote w))) by reflexivity.
  rewrite (bind_ok _ _ w (add_trace w [RunUntilDisconnected]) tt) by reflexivity.
  destruct (updates_answers handlers answer_of (r_inbound (remote w)) Hh
              (add_trace w [RunUntilDisconnected])) as [H1 H2].
  destruct (for_each _ _ (add_trace w [RunUntilDisconnected])) as [r w1] eqn:Hd.
  cbn [fst snd] in H1, H2. subst r. rewrite (bind_ok _ _ _ _ _ Hd).
  destruct (r_run_until_disconnected (remote w1)) as [r s]. cbn [snd trace].
  rewrite H2. cbn. rewrite replies_app. cbn. by rewrite app_nil_r.
Qed.

Lemma source_chat_ids_readable (rules : list ForwardingRule) (w : World R) :
  (forall rule, rule ∈ rules -> ~ misread_source rule) ->
  exists ids, source_chat_ids rules w = (Ok ids, w).
Proof.
  induction rules as [|rule rules IH]; intros Hr; cbn [source_chat_ids].
  - by eexists.
  - destruct IH as [ids Hids]; [intros r Hin; by apply Hr, list_elem_of_further|].
    destruct (Py.isdigit (Py.lstrip_char "-" (source_chat rule))) eqn:Hg;
      [|by eexists].
    destruct (Py.int (source_chat rule)) as [z|] eqn:Hz.
    + exists ({[ z ]} ∪ ids). unfold bind, int_. rewrite Hz. cbn. by rewrite Hids.
    + exfalso. apply (Hr rule); [apply list_elem_of_here | by split].
Qed.

(** A run that connects and builds its listen set answers the updates
    it receives, in arrival order: to each one the answer of the
    auto-reply configuration, then that of the smart selling
    configuration.  Nothing else in the run replies. *)
Lemma session_replies (phone session_string : string) (w : World R) (s : R) :
  r_start phone (remote w) = (Ok tt, s) ->
  listen_set_readable phone (db w) ->
  replies (trace (_run_client phone session_string w).2)
  = (replies (trace w)
     ++ flat_map (fun event =>
                    auto_reply_answer (auto_reply_settings (db w) !! phone) event
                    ++ smart_selling_answer (smart_selling_settings (db w) !! phone) event)
                 (r_inbound s))%list.
Proof.
  intros Hs Hread. unfold _run_client. rewrite try_finally_replies.
  unfold try_except.
  assert (Hcall : call (Start phone) (r_start phone) w
                  = (Ok tt, {| clients := clients w; db := db w; remote := s;
                               trace := (trace w ++ [Start phone])%list |}))
    by (unfold call; by rewrite Hs).
  rewrite (bind_ok _ _ _ _ _ Hcall).
  unfold bind at 1, set_client at 1. cbn [fst snd].
  unfold bind at 1, db_set_status at 1. cbn [clients db remote trace].
  unfold bind at 1, log at 1, emit at 1. cbn [fst snd clients db remote trace].
  unfold bind at 1, get_db at 1. cbn [fst snd clients db remote trace].
  change (active_rules phone (put_accounts _ (db w))) with (active_rules phone (db w)).
  change (auto_reply_settings (put_accounts _ (db w))) with (auto_reply_settings (db w)).
  change (smart_selling_settings (put_accounts _ (db w)))
    with (smart_selling_settings (db w)).
  set (w4 := Build_World _ _ _ _ _).
  assert (Hw4 : replies (trace w4) = replies (trace w)).
  { unfold w4. cbn. rewrite !replies_app. cbn. by rewrite !app_nil_r. }
  assert (Hexcept : forall (e : exn) (w5 : World R),
            replies (trace ((db_set_status phone "Error" ;;;
                             log [Lit "[ERROR] Client "; FStr phone;
                                  Lit " failed to connect: "; FExn e]) w5).2)
            = replies (trace w5)).
  { intros e w5. unfold bind, db_set_status, log, emit. cbn.
    rewrite !replies_app. cbn. by rewrite !app_nil_r. }
  set (h2 := match auto_reply_settings (db w) !! phone with
             | Some settings => _ | None => _ end).
  set (h3 := match smart_selling_settings (db w) !! phone with
             | Some settings => _ | None => _ end).
  assert (Hh2 : forall w5 : World R, exists hs2 a2 w6,
            h2 w5 = (Ok hs2, w6)
            /\ remote w6 = remote w5 /\ replies (trace w6) = replies (trace w5)
            /\ Forall2 (fun h a => answers (h_callback h) a
                          /\ forall ev, h_filter h ev = false -> a ev = []) hs2 a2
            /\ forall event, flat_map (fun a => a event) a2
                 = auto_reply_answer (auto_reply_settings (db w) !! phone) event).
  { intros w5. unfold h2.
    destruct (auto_reply_settings (db w) !! phone) as [settings|];
      [|exists [], [], w5; by repeat split].
    destruct (Py.truthy_opt (ar_message settings)) eqn:Hmsg.
    - eexists _, [auto_reply_answer (Some settings)], _.
      split; [reflexivity|]. split; [done|]. split.
      { cbn. rewrite !replies_app. cbn. by rewrite !app_nil_r. }
      split.
      + constructor; [|constructor]. split; [by apply auto_reply_handler_answers|].
        intros ev Hf. cbn in Hf. unfold auto_reply_answer.
        apply negb_false_iff in Hf. rewrite Hf. cbn.
        by rewrite !andb_false_r.
      + intros event. cbn. by rewrite app_nil_r.
    - exists [], [], w5. repeat split; try done.
      intros event. unfold auto_reply_answer. by rewrite Hmsg. }
  assert (Hh3 : forall w5 : World R, exists hs3 a3 w6,
            h3 w5 = (Ok hs3, w6)
            /\ remote w6 = remote w5 /\ replies (trace w6) = replies (trace w5)
            /\ Forall2 (fun h a => answers (h_callback h) a
                          /\ forall ev, h_filter h ev = false -> a ev = []) hs3 a3
            /\ forall event, flat_map (fun a => a event) a3
                 = smart_selling_answer (smart_selling_settings (db w) !! phone) event).
  { intros w5. unfold h3.
    destruct (smart_selling_settings (db w) !! phone) as [settings|];
      [|exists [], [], w5; by repeat split].
    destruct (ss_enabled settings && Py.truthy_opt (ss_message settings)) eqn:Hon.
    - eexists _, [smart_selling_answer (Some settings)], _.
      split; [reflexivity|]. split; [done|]. split.
      { cbn. rewrite !replies_app. cbn. by rewrite !app_nil_r. }
      split.
      + constructor; [|constructor]. split; [by apply smart_selling_handler_answers|].
        intros ev Hf. cbn in Hf. unfold smart_selling_answer.
        apply negb_false_iff in Hf. rewrite Hf. cbn.
        by rewrite !andb_false_r.
      + intros event. cbn. by rewrite app_nil_r.
    - exists [], [], w5. repeat split; try done.
      intros event. unfold smart_selling_answer. by rewrite Hon. }
  assert (Hrest : forall (h1 : list (@Handler R)) (w5 : World R),
            Forall (fun h => forall ev, never_replies (h_callback h ev)) h1 ->
            remote w5 = s ->
            replies (trace w5) = replies (trace w) ->
            replies (trace (let (r, w') :=
                              (h2' <- h2 ;; h3' <- h3 ;;
                               run_until_disconnected (h1 ++ h2' ++ h3')) w5 in
                            match r with
                            | Ok a => (Ok a, w')
                            | Raise e =>
                                (db_set_status phone "Error" ;;;
                                 log [Lit "[ERROR] Client "; FStr phone;
                                      Lit " failed to connect: "; FExn e]) w'
                            end).2)
            = (replies (trace w)
               ++ flat_map (fun event =>
                    auto_reply_answer (auto_reply_settings (db w) !! phone) event
                    ++ smart_selling_answer (smart_selling_settings (db w) !! phone) event)
                    (r_inbound s))%list).
  { intros h1 w5 Hh1 Hrem Hw5.
    destruct (Hh2 w5) as (hs2 & a2 & w6 & Hrun2 & Hrem2 & Hrep2 & Hans2 & Hflat2).
    destruct (Hh3 w6) as (hs3 & a3 & w7 & Hrun3 & Hrem3 & Hrep3 & Hans3 & Hflat3).
    rewrite (bind_ok _ _ _ _ _ Hrun2), (bind_ok _ _ _ _ _ Hrun3).
    assert (Hall : Forall2 (fun h a => answers (h_callback h) a
                      /\ forall ev, h_filter h ev = false -> a ev = [])
                     (h1 ++ hs2 ++ hs3)
                     (map (fun _ => fun _ : NewMessage => []) h1 ++ a2 ++ a3)).
    { apply Forall2_app; [|by apply Forall2_app].
      induction Hh1 as [|h h1 Hh Hh1 IH]; cbn; constructor; [|done].
      split; [by apply answers_nothing | done]. }
    pose proof (run_until_disconnected_answers _ _ w7 Hall) as Hrun.
    assert (Hflat : forall event,
              flat_map (fun a => a event)
                (map (fun _ => fun _ : NewMessage => []) h1 ++ a2 ++ a3)
              = (auto_reply_answer (auto_reply_settings (db w) !! phone) event
                 ++ smart_selling_answer (smart_selling_settings (db w) !! phone) event)%list).
    { intros event. rewrite !flat_map_app, Hflat2, Hflat3.
      assert (Hnil : flat_map (fun a : NewMessage -> list string => a event)
                       (map (fun _ => fun _ : NewMessage => []) h1) = []).
      { clear. induction h1 as [|h h1 IH]; [done | exact IH]. }
      by rewrite Hnil. }
    rewrite (flat_map_ext _ _ Hflat) in Hrun.
    rewrite Hrem3, Hrem2, Hrem, Hrep3, Hrep2, Hw5 in Hrun.
    destruct (run_until_disconnected (h1 ++ hs2 ++ hs3) w7) as [[[]|e] w8];
      cbn [fst snd] in *.
    - exact Hrun.
    - by rewrite Hexcept. }
  destruct (active_rules phone (db w)) as [|rule rules] eqn:Hrules.
  - unfold bind at 1. unfold bind at 1, log at 1, emit at 1. cbn [fst snd ret].
    apply Hrest; [constructor | done |].
    unfold w4. cbn. rewrite !replies_app. cbn. by rewrite !app_nil_r.
  - unfold bind at 1. unfold bind at 1.
    destruct (source_chat_ids_readable (rule :: rules) w4) as [ids Hids].
    { intros r Hin. apply Hread. unfold listen_set_readable. by rewrite Hrules. }
    rewrite Hids. unfold bind at 1, log at 1, emit at 1. cbn [fst snd ret].
    apply Hrest.
    + constructor; [|constructor]. intros ev. apply handler_never_replies.
    + done.
    + unfold w4. cbn. rewrite !replies_app. cbn. by rewrite !app_nil_r.
Qed.

End SessionReplies.

Lemma should_reply_table (must_contain maybe_contain : list string)
    (message_text : string) :
  should_reply must_contain maybe_contain message_text = true <->
  match must_contain, maybe_contain with
  | _ :: _, _ :: _ =>
      (forall k, k ∈ must_contain -> is_substring k message_text)
      /\ (exists k, k ∈ maybe_contain /\ is_substring k message_text)
  | _ :: _, [] => forall k, k ∈ must_contain -> is_substring k message_text
  | [], _ :: _ => exists k, k ∈ maybe_contain /\ is_substring k message_text
  | [], [] => False
  end.
Proof.
  unfold should_reply.
  destruct must_contain as [|m ms], maybe_contain as [|y ys];
    rewrite <- ?forallb_contains, <- ?existsb_contains; cbn [nonempty andb].
  - done.
  - by destruct (existsb _ (y :: ys)).
  - by destruct (forallb _ (m :: ms)).
  - destruct (forallb _ (m :: ms)), (existsb _ (y :: ys)); simpl; intuition.
Qed.

Lemma sample_listen_set : listen_set_readable "+15550001" db_with_replies.
Proof.
  intros rule Hin [_ Hint].
  apply list_elem_of_singleton in Hin. subst rule. discriminate Hint.
Qed.

Section SessionClaims.
Context {R : Type} `{Remote R}.

(** C3. On a session that has connected and built its listen set, with an
    auto-reply configuration whose message is non-empty: the replies of
    the run are, for each message that arrives and in arrival order, the
    answer of the auto-reply followed by that of smart selling.  To a
    private inbound message the auto-reply answers with the configured
    message, once, if and only if the parsed keyword list is empty or
    one of its keywords occurs in the lower-cased text; otherwise, and to
    every other message, it answers nothing. *)
Theorem auto_reply_iff_keyword (phone session_string : string)
    (settings : AutoReplySettings) (msg : string) (w : World R) (s : R) :
  r_start phone (remote w) = (Ok tt, s) ->
  listen_set_readable phone (db w) ->
  auto_reply_settings (db w) !! phone = Some settings ->
  ar_message settings = Some msg -> Py.truthy msg = true ->
  let keywords := parse_keywords (ar_keywords settings) in
  let auto_reply := auto_reply_answer (Some settings) in
  let smart_selling := smart_selling_answer (smart_selling_settings (db w) !! phone) in
  replies (trace (_run_client phone session_string w).2)
  = (replies (trace w)
     ++ flat_map (fun event => auto_reply event ++ smart_selling event)
                 (r_inbound s))%list
  /\ forall event,
       (is_private event = true /\ out event = false ->
          (keywords <> [] ->
             (auto_reply event = [msg]
              <-> exists k, k ∈ keywords
                            /\ is_substring k (Py.lower (raw_text event)))
             /\ (auto_reply event = [msg] \/ auto_reply event = []))
          /\ (keywords = [] -> auto_reply event = [msg]))
       /\ (is_private event = false \/ out event = true -> auto_reply event = []).
Proof.
  intros Hs Hread Hconf Hmsg Htruthy keywords auto_reply smart_selling.
  split.
  - unfold auto_reply, smart_selling. rewrite <- Hconf.
    by apply session_replies.
  - intros event. unfold auto_reply, auto_reply_answer, ar_reply_text.
    fold keywords. rewrite Hmsg. cbn [Py.truthy_opt default]. rewrite Htruthy.
    cbn [andb]. split.
    + intros [-> ->]. cbn [negb andb]. split.
      * intros Hne. destruct keywords as [|k0 ks] eqn:Hk; [done|].
        cbn [nonempty negb orb]. rewrite <- existsb_contains.
        destruct (existsb _ (k0 :: ks)); split; try (by left); try (by right); done.
      * by intros ->.
    + intros [-> | ->]; [done|]. by rewrite andb_false_r.
Qed.

(** C2. On a session that has connected and built its listen set, with a
    smart selling configuration that is enabled and has a non-empty
    message: the replies of the run are, for each message that arrives and
    in arrival order, the answer of the auto-reply followed by that of
    smart selling.  To a private inbound message smart selling answers
    with the configured message, once, exactly when the lower-cased text
    satisfies the table: both lists non-empty, every must-keyword and some
    maybe-keyword occur; only the must-list non-empty, every must-keyword
    occurs; only the maybe-list non-empty, some maybe-keyword occurs; both
    empty, never.  Otherwise, and to every other message, it answers
    nothing. *)
Theorem smart_selling_truth_table (phone session_string : string)
    (smart_settings : SmartSellingSettings) (msg : string) (w : World R) (s : R) :
  r_start phone (remote w) = (Ok tt, s) ->
  listen_set_readable phone (db w) ->
  smart_selling_settings (db w) !! phone = Some smart_settings ->
  ss_enabled smart_settings = true ->
  ss_message smart_settings = Some msg -> Py.truthy msg = true ->
  let must_contain := parse_keywords (ss_must_contain smart_settings) in
  let maybe_contain := parse_keywords (ss_maybe_contain smart_settings) in
  let auto_reply := auto_reply_answer (auto_reply_settings (db w) !! phone) in
  let smart_selling := smart_selling_answer (Some smart_settings) in
  replies (trace (_run_client phone session_string w).2)
  = (replies (trace w)
     ++ flat_map (fun event => auto_reply event ++ smart_selling event)
                 (r_inbound s))%list
  /\ forall event,
       let message_text := Py.lower (raw_text event) in
       let all_must := forall k, k ∈ must_contain -> is_substring k message_text in
       let some_maybe := exists k, k ∈ maybe_contain /\ is_substring k message_text in
       (is_private event = true /\ out event = false ->
          (smart_selling event = [msg] <->
             match must_contain, maybe_contain with
             | _ :: _, _ :: _ => all_must /\ some_maybe
             | _ :: _, [] => all_must
             | [], _ :: _ => some_maybe
             | [], [] => False
             end)
          /\ (smart_selling event = [msg] \/ smart_selling event = []))
       /\ (is_private event = false \/ out event = true -> smart_selling event = []).
Proof.
  intros Hs Hread Hconf Hon Hmsg Htruthy must_contain maybe_contain
    auto_reply smart_selling.
  split.
  - unfold auto_reply, smart_selling. rewrite <- Hconf.
    by apply session_replies.
  - intros event message_text all_must some_maybe.
    unfold smart_selling, smart_selling_answer, ss_reply_text.
    fold must_contain maybe_contain message_text.
    rewrite Hon, Hmsg. cbn [Py.truthy_opt default]. rewrite Htruthy.
    cbn [andb]. split.
    + intros [-> ->]. cbn [negb andb].
      pose proof (should_reply_table must_contain maybe_contain message_text) as Htab.
      destruct (should_reply must_contain maybe_contain message_text).
      * split; [|by left]. split; [intros _; by apply Htab | done].
      * split; [|by right]. split; [done|]. intros Ht. apply Htab in Ht. discriminate.
    + intros [-> | ->]; [done|]. by rewrite andb_false_r.
Qed.

End SessionClaims.

Lemma auto_reply_iff_keyword_witness :
  let w := world_of ∅ db_with_replies (hears sample_updates) in
  let settings := {| ar_message := Some "We are open 9-5";
                     ar_keywords := Some "Price, hours ,," |} in
  r_start "+15550001" (remote w) = (Ok tt, hears sample_updates)
  /\ listen_set_readable "+15550001" (db w)
  /\ auto_reply_settings (db w) !! "+15550001" = Some settings
  /\ parse_keywords (ar_keywords settings) = ["price"; "hours"]
  /\ replies (trace (_run_client "+15550001" "session" w).2)
     = ["We are open 9-5"; "We are open 9-5"; "Here is our catalogue"]
  /\ (auto_reply_answer (Some settings) (private_message "What are your HOURS?")
      = ["We are open 9-5"]
      <-> exists k, k ∈ ["price"; "hours"]
                    /\ is_substring k (Py.lower "What are your HOURS?")).
Proof.
  cbv zeta.
  pose proof (auto_reply_iff_keyword (R := Script) "+15550001" "session"
                {| ar_message := Some "We are open 9-5";
                   ar_keywords := Some "Price, hours ,," |}
                "We are open 9-5"
                (world_of ∅ db_with_replies (hears sample_updates))
                (hears sample_updates)
                eq_refl sample_listen_set eq_refl eq_refl eq_refl) as [Hrun Hchar].
  split; [reflexivity|]. split; [exact sample_listen_set|].
  split; [reflexivity|]. split; [reflexivity|].
  split; [exact Hrun|].
  destruct (Hchar (private_message "What are your HOURS?")) as [Hpriv _].
  destruct (Hpriv (conj eq_refl eq_refl)) as [Hkw _].
  exact (proj1 (Hkw ltac:(discriminate))).
Defined.

Lemma smart_selling_truth_table_witness :
  let w := world_of ∅ db_with_replies (hears sample_updates) in
  let smart_settings := {| ss_enabled := true;
                           ss_message := Some "Here is our catalogue";
                           ss_must_contain := Some "buy";
                           ss_maybe_contain := Some "phone,laptop" |} in
  let event := private_message "I want to BUY a Laptop, what is the price?" in
  r_start "+15550001" (remote w) = (Ok tt, hears sample_updates)
  /\ listen_set_readable "+15550001" (db w)
  /\ smart_selling_settings (db w) !! "+15550001" = Some smart_settings
  /\ parse_keywords (ss_must_contain smart_settings) = ["buy"]
  /\ parse_keywords (ss_maybe_contain smart_settings) = ["phone"; "laptop"]
  /\ replies (trace (_run_client "+15550001" "session" w).2)
     = ["We are open 9-5"; "We are open 9-5"; "Here is our catalogue"]
  /\ (smart_selling_answer (Some smart_settings) event = ["Here is our catalogue"]
      <-> (forall k, k ∈ ["buy"] -> is_substring k (Py.lower (raw_text event)))
          /\ exists k, k ∈ ["phone"; "laptop"]
                       /\ is_substring k (Py.lower (raw_text event))).
Proof.
  cbv zeta.
  pose proof (smart_selling_truth_table (R := Script) "+15550001" "session"
                {| ss_enabled := true; ss_message := Some "Here is our catalogue";
                   ss_must_contain := Some "buy";
                   ss_maybe_contain := Some "phone,laptop" |}
                "Here is our catalogue"
                (world_of ∅ db_with_replies (hears sample_updates))
                (hears sample_updates)
                eq_refl sample_listen_set eq_refl eq_refl eq_refl eq_refl)
    as [Hrun Hchar].
  split; [reflexivity|]. split; [exact sample_listen_set|].
  split; [reflexivity|]. split; [reflexivity|]. split; [reflexivity|].
  split; [exact Hrun|].
  destruct (Hchar (private_message "I want to BUY a Laptop, what is the price?"))
    as [Hpriv _].
  exact (proj1 (Hpriv (conj eq_refl eq_refl))).
Defined.

Section SettingsTakeEffect.
Context {R : Type} `{Remote R}.

(** Auto-reply settings saved through the API with a non-empty message
    take effect at the account's next run that connects and builds its
    listen set, whatever the rules, the smart selling configuration and
    the messages are: the run answers each private inbound message that
    contains one of the saved keywords (every private inbound message
    when no keyword was saved) with the saved message, in arrival order,
    next to the answers of the smart selling configuration, which the
    endpoint left as it was. *)
Theorem saved_auto_reply_answers (settings : AutoReplyIn) (session : string)
    (w : World R) (s : R) :
  Py.truthy (ari_message settings) = true ->
  r_start (ari_account_phone settings) (remote w) = (Ok tt, s) ->
  listen_set_readable (ari_account_phone settings) (db w) ->
  let phone := ari_account_phone settings in
  let saved := (set_auto_reply_settings settings w).2 in
  let keywords := parse_keywords (ari_keywords settings) in
  let matches event :=
    match keywords with
    | [] => true
    | _ :: _ => existsb (fun k => Py.contains k (Py.lower (raw_text event))) keywords
    end in
  replies (trace (_run_client phone session saved).2)
  = (replies (trace w)
     ++ flat_map (fun event =>
                    (if is_private event && negb (out event) && matches event
                     then [ari_message settings] else [])
                    ++ smart_selling_answer (smart_selling_settings (db w) !! phone) event)
                 (r_inbound s))%list.
Proof.
  intros Hmsg Hstart Hread phone saved keywords matches.
  assert (Hsaved : saved = {| clients := clients w;
                              db := put_auto_reply
                                      (<[phone := {| ar_message := Some (ari_message settings);
                                                     ar_keywords := ari_keywords settings |}]>
                                         (auto_reply_settings (db w))) (db w);
                              remote := remote w; trace := trace w |}) by reflexivity.
  rewrite (session_replies phone session saved s).
  - rewrite Hsaved. cbn [db trace put_auto_reply auto_reply_settings
                          smart_selling_settings].
    rewrite lookup_insert_eq. f_equal. apply flat_map_ext. intros event. f_equal.
    unfold auto_reply_answer, ar_reply_text.
    cbn [ar_message ar_keywords Py.truthy_opt default]. fold keywords.
    rewrite Hmsg. cbn [andb]. unfold matches.
    by destruct keywords.
  - by rewrite Hsaved.
  - by rewrite Hsaved.
Qed.

End SettingsTakeEffect.

Lemma saved_auto_reply_answers_witness :
  let settings := {| ari_account_phone := "+15550001"; ari_message := "back soon";
                     ari_keywords := Some "hours" |} in
  let w := world_of ∅ db_with_replies (hears sample_updates) in
  let saved := (set_auto_reply_settings settings w).2 in
  Py.truthy "back soon" = true
  /\ r_start "+15550001" (remote w) = (Ok tt, hears sample_updates)
  /\ listen_set_readable "+15550001" (db w)
  /\ replies (trace (_run_client "+15550001" "session" saved).2)
     = ["back soon"; "Here is our catalogue"].
Proof.
  cbv zeta. split; [reflexivity|]. split; [reflexivity|].
  split; [exact sample_listen_set|].
  exact (saved_auto_reply_answers
           {| ari_account_phone := "+15550001"; ari_message := "back soon";
              ari_keywords := Some "hours" |}
           "session" (world_of ∅ db_with_replies (hears sample_updates))
           (hears sample_updates) eq_refl eq_refl sample_listen_set).
Defined.

(** ** The matcher against the specification of the kinds *)

Lemma name_char_class (c : ascii) : Kinds.name_char c = Re.word_char c.
Proof. destruct c as [[] [] [] [] [] [] [] []]; reflexivity. Qed.

Lemma path_char_class (c : ascii) : Kinds.path_char c = Re.link_char c.
Proof. destruct c as [[] [] [] [] [] [] [] []]; reflexivity. Qed.

Lemma number_char_class (c : ascii) : Kinds.number_char c = Re.phone_char c.
Proof. destruct c as [[] [] [] [] [] [] [] []]; reflexivity. Qed.

Lemma all_chars_ext (p q : ascii -> bool) (s : string) :
  (forall c, p c = q c) -> all_chars p s = all_chars q s.
Proof. intros Hpq. induction s as [|c s IH]; cbn; [done | by rewrite Hpq, IH]. Qed.

Lemma begins_in_ext (p q : ascii -> bool) (s : string) :
  (forall c, p c = q c) -> Kinds.begins_in p s <-> Kinds.begins_in q s.
Proof.
  intros Hpq. split; intros (c & rest & -> & Hc); exists c, rest;
    (split; [done|]); [by rewrite <- Hpq | by rewrite Hpq].
Qed.

Lemma span_zero (p : ascii -> bool) (s : string) : Re.span p (Some 0%nat) s = 0%nat.
Proof. destruct s as [|c s]; cbn; [done | by destruct (p c)]. Qed.

(** the span stops at the bound or before a character outside the class *)
Lemma span_stop (p : ascii -> bool) (bound : option nat) (s : string) :
  bound = Some (Re.span p bound s)
  \/ ~ Kinds.begins_in p (Re.drop (Re.span p bound s) s).
Proof.
  revert bound. induction s as [|c s IH]; intros bound.
  - right. cbn. intros (c & rest & Heq & _). discriminate.
  - cbn [Re.span]. destruct (p c) eqn:Hc.
    + destruct bound as [[|b]|].
      * by left.
      * destruct (IH (Some b)) as [Hb | Hn].
        -- left. by injection Hb as <-.
        -- right. exact Hn.
      * destruct (IH None) as [Hb | Hn]; [discriminate | by right].
    + right. cbn. intros (d & rest & [= <- <-] & Hd). congruence.
Qed.

Lemma span_exact (p : ascii -> bool) (bound : option nat) (run rest : string) :
  all_chars p run = true ->
  (forall b, bound = Some b -> (String.length run <= b)%nat) ->
  bound = Some (String.length run) \/ ~ Kinds.begins_in p rest ->
  Re.span p bound (run +:+ rest) = String.length run.
Proof.
  revert bound. induction run as [|c run IH]; intros bound Hall Hle Hstop.
  - change (EmptyString +:+ rest) with rest. cbn [String.length].
    destruct Hstop as [-> | Hn]; [apply span_zero|].
    destruct rest as [|d rest]; [done|]. cbn.
    destruct (p d) eqn:Hd; [|done]. exfalso. apply Hn. by exists d, rest.
  - rewrite append_cons. cbn in Hall. apply andb_true_iff in Hall as [Hc Hall].
    cbn [Re.span String.length]. rewrite Hc.
    destruct bound as [[|b]|].
    + specialize (Hle 0%nat eq_refl). cbn in Hle. lia.
    + f_equal. apply IH; [done | |].
      * intros b' [= <-]. specialize (Hle (S b) eq_refl). cbn in Hle. lia.
      * destruct Hstop as [[= ->] | Hn]; [by left | by right].
    + f_equal. apply IH; [done | done |].
      destruct Hstop as [? | Hn]; [done | by right].
Qed.

Lemma take_append (a b : string) : Re.take (String.length a) (a +:+ b) = a.
Proof.
  induction a as [|c a IH]; [by destruct b|].
  rewrite append_cons. cbn. by rewrite IH.
Qed.

Lemma drop_append (a b : string) : Re.drop (String.length a) (a +:+ b) = b.
Proof.
  induction a as [|c a IH]; [by destruct b|].
  rewrite append_cons. cbn. exact IH.
Qed.

(** the last item of a pattern takes the whole span *)
Lemma match_here_last (it : Re.item) (s : string) :
  Re.match_here [it] s
  = if (Re.span (Re.cls it) (Re.rmax it) s <? Re.rmin it)%nat then None
    else Some [Re.take (Re.span (Re.cls it) (Re.rmax it) s) s].
Proof.
  cbn [Re.match_here].
  destruct (_ <? _)%nat eqn:Hmin; [done|]. apply Nat.ltb_ge in Hmin.
  apply backtrack_first.
  replace (Re.rmin it + (Re.span (Re.cls it) (Re.rmax it) s - Re.rmin it))%nat
    with (Re.span (Re.cls it) (Re.rmax it) s) by lia.
  done.
Qed.

(** a literal takes its character or fails *)
Lemma match_here_lit (c : ascii) (p : Re.pattern) (s : string) :
  Re.match_here (Re.lit c :: p) s
  = match s with
    | String d s' =>
        if Ascii.eqb c d
        then match Re.match_here p s' with
             | Some pieces => Some (String c EmptyString :: pieces)
             | None => None
             end
        else None
    | EmptyString => None
    end.
Proof.
  destruct s as [|d s']; [done|].
  cbn [Re.match_here Re.lit Re.cls Re.rmax Re.rmin Re.span].
  destruct (Ascii.eqb c d) eqn:Hcd; [|done].
  apply Ascii.eqb_eq in Hcd as <-. rewrite span_zero. cbn.
  by destruct (Re.match_here p s').
Qed.

(** what the last item of a pattern takes: the longest admissible run *)
Lemma last_item_spec (it : Re.item) (s : string) (pieces : list string) :
  Re.match_here [it] s = Some pieces
  <-> exists piece rest,
        pieces = [piece] /\ s = piece +:+ rest
        /\ all_chars (Re.cls it) piece = true
        /\ (Re.rmin it <= String.length piece)%nat
        /\ (forall b, Re.rmax it = Some b -> (String.length piece <= b)%nat)
        /\ (Re.rmax it = Some (String.length piece)
            \/ ~ Kinds.begins_in (Re.cls it) rest).
Proof.
  rewrite match_here_last. split.
  - destruct (_ <? _)%nat eqn:Hmin; [done|]. apply Nat.ltb_ge in Hmin.
    intros [= <-].
    set (n := Re.span (Re.cls it) (Re.rmax it) s) in *.
    destruct (span_take (Re.cls it) (Re.rmax it) s n) as [Hlen Hall]; [done|].
    exists (Re.take n s), (Re.drop n s). rewrite Hlen.
    split; [done|]. split; [by rewrite take_drop|]. split; [done|].
    split; [done|]. split.
    + intros b Hb. unfold n. rewrite Hb. apply span_bound.
    + apply span_stop.
  - intros (piece & rest & -> & -> & Hall & Hmin & Hmax & Hstop).
    rewrite (span_exact _ _ _ _ Hall Hmax Hstop).
    apply Nat.ltb_ge in Hmin. rewrite Hmin. by rewrite take_append.
Qed.

Lemma usernames_head (s : string) :
  (forall m, Kinds.username_at s m ->
     exists pieces, Re.match_here Re.usernames s = Some pieces
                    /\ m = normalise "usernames" (Re.report Re.usernames pieces))
  /\ (forall pieces, Re.match_here Re.usernames s = Some pieces ->
        Kinds.username_at s (normalise "usernames" (Re.report Re.usernames pieces))
        /\ normalise "usernames" (Re.report Re.usernames pieces)
           = Re.concat_pieces pieces).
Proof.
  assert (Hitem : forall name : string,
            all_chars Re.word_char name = true ->
            normalise "usernames" (Re.report Re.usernames ["@"; name]) = "@" +:+ name
            /\ Re.concat_pieces ["@"; name] = "@" +:+ name).
  { intros name Hall.
    assert (Hrep : Re.report Re.usernames ["@"; name] = name)
      by (unfold Re.report, Re.concat_pieces; cbn; apply append_nil_r).
    assert (Hcat : Re.concat_pieces ["@"; name] = "@" +:+ name)
      by (unfold Re.concat_pieces; cbn; by rewrite append_nil_r).
    rewrite Hrep, Hcat. split; [|done].
    unfold normalise. by rewrite (username_no_at name Hall). }
  split.
  - intros m (name & rest & -> & -> & Hall & [Hmin Hmax] & Hstop).
    rewrite (all_chars_ext _ _ _ name_char_class) in Hall.
    exists ["@"; name]. destruct (Hitem name Hall) as [Hn Hc].
    split; [|by rewrite Hn].
    unfold Re.usernames. rewrite match_here_lit. rewrite append_cons.
    cbn [Ascii.eqb Bool.eqb].
    change (EmptyString +:+ (name +:+ rest)) with (name +:+ rest).
    assert (Hlast : Re.match_here
              [{| Re.cls := Re.word_char; Re.rmin := 5; Re.rmax := Some 32%nat;
                  Re.captured := true |}] (name +:+ rest) = Some [name]).
    { apply last_item_spec. exists name, rest. cbn.
      repeat split; try done.
      - by intros b [= <-].
      - destruct Hstop as [-> | Hn']; [by left | right].
        by rewrite <- (begins_in_ext _ _ _ name_char_class). }
    by rewrite Hlast.
  - intros pieces Hm. unfold Re.usernames in Hm.
    rewrite match_here_lit in Hm.
    destruct s as [|d s']; [done|].
    destruct (Ascii.eqb "@" d) eqn:Hd; [|done]. apply Ascii.eqb_eq in Hd as <-.
    destruct (Re.match_here _ s') as [pieces'|] eqn:Hlast; [|done].
    injection Hm as <-.
    apply last_item_spec in Hlast
      as (name & rest & -> & -> & Hall & Hmin & Hmax & Hstop). cbn in *.
    destruct (Hitem name Hall) as [-> ->]. split; [|done].
    exists name, rest. split; [done|]. split; [done|].
    split; [by rewrite (all_chars_ext _ _ _ name_char_class)|].
    split; [split; [done | by apply Hmax]|].
    destruct Hstop as [[= Hn] | Hn]; [by left | right].
    by rewrite (begins_in_ext _ _ _ name_char_class).
Qed.

Lemma match_here_lit_Some (c : ascii) (p : Re.pattern) (s : string)
    (pieces : list string) :
  Re.match_here (Re.lit c :: p) s = Some pieces
  <-> exists s' pieces',
        s = String c s' /\ pieces = String c EmptyString :: pieces'
        /\ Re.match_here p s' = Some pieces'.
Proof.
  rewrite match_here_lit. split.
  - destruct s as [|d s']; [done|].
    destruct (Ascii.eqb c d) eqn:Hd; [|done]. apply Ascii.eqb_eq in Hd as <-.
    destruct (Re.match_here p s') as [pieces'|] eqn:Hm; [|done].
    intros [= <-]. by exists s', pieces'.
  - intros (s' & pieces' & -> & -> & Hm). by rewrite Ascii.eqb_refl, Hm.
Qed.

Lemma links_head (s : string) :
  (forall m, Kinds.link_at s m ->
     exists pieces, Re.match_here Re.links s = Some pieces
                    /\ m = normalise "links" (Re.report Re.links pieces))
  /\ (forall pieces, Re.match_here Re.links s = Some pieces ->
        Kinds.link_at s (normalise "links" (Re.report Re.links pieces))
        /\ normalise "links" (Re.report Re.links pieces) = Re.concat_pieces pieces).
Proof.
  assert (Hitem : forall path : string,
            all_chars Re.link_char path = true ->
            normalise "links" (Re.report Re.links ["t"; "."; "m"; "e"; "/"; path])
            = "t.me/" +:+ path
            /\ Re.concat_pieces ["t"; "."; "m"; "e"; "/"; path] = "t.me/" +:+ path).
  { intros path Hall.
    assert (Hrep : Re.report Re.links ["t"; "."; "m"; "e"; "/"; path] = path)
      by (unfold Re.report, Re.concat_pieces; cbn; apply append_nil_r).
    assert (Hcat : Re.concat_pieces ["t"; "."; "m"; "e"; "/"; path] = "t.me/" +:+ path)
      by (unfold Re.concat_pieces; cbn; by rewrite append_nil_r).
    rewrite Hrep, Hcat. split; [|done].
    unfold normalise. by rewrite (link_path_no_prefix path Hall). }
  split.
  - intros m (path & rest & -> & -> & Hall & Hmin & Hstop).
    rewrite (all_chars_ext _ _ _ path_char_class) in Hall.
    exists ["t"; "."; "m"; "e"; "/"; path]. destruct (Hitem path Hall) as [Hn Hc].
    split; [|by rewrite Hn].
    unfold Re.links.
    do 5 (apply match_here_lit_Some; eexists _, _; split; [reflexivity|];
          split; [reflexivity|]).
    apply last_item_spec. exists path, rest. cbn.
    repeat split; try done. right.
    by rewrite <- (begins_in_ext _ _ _ path_char_class).
  - intros pieces Hm. unfold Re.links in Hm.
    apply match_here_lit_Some in Hm as (s1 & p1 & -> & -> & Hm).
    apply match_here_lit_Some in Hm as (s2 & p2 & -> & -> & Hm).
    apply match_here_lit_Some in Hm as (s3 & p3 & -> & -> & Hm).
    apply match_here_lit_Some in Hm as (s4 & p4 & -> & -> & Hm).
    apply match_here_lit_Some in Hm as (s5 & p5 & -> & -> & Hm).
    apply last_item_spec in Hm
      as (path & rest & -> & -> & Hall & Hmin & Hmax & Hstop). cbn in *.
    destruct (Hitem path Hall) as [-> ->]. split; [|done].
    exists path, rest. split; [done|]. split; [done|].
    split; [by rewrite (all_chars_ext _ _ _ path_char_class)|].
    split; [done|].
    destruct Hstop as [? | Hn]; [done|].
    by rewrite (begins_in_ext _ _ _ path_char_class).
Qed.

Lemma match_here_phones (s : string) :
  Re.match_here Re.phones s
  = match s with
    | String d s' =>
        if Ascii.eqb "+" d
        then match Re.match_here
                     [{| Re.cls := Re.phone_char; Re.rmin := 8; Re.rmax := None;
                         Re.captured := false |}] s' with
             | Some pieces => Some (String "+" EmptyString :: pieces)
             | None => None
             end
        else match Re.match_here
                     [{| Re.cls := Re.phone_char; Re.rmin := 8; Re.rmax := None;
                         Re.captured := false |}] s with
             | Some pieces => Some (EmptyString :: pieces)
             | None => None
             end
    | EmptyString => None
    end.
Proof.
  destruct s as [|d s']; [reflexivity|].
  unfold Re.phones. cbn [Re.match_here Re.cls Re.rmin Re.rmax Re.span].
  destruct (Ascii.eqb "+" d) eqn:Hd.
  - apply Ascii.eqb_eq in Hd as <-. rewrite span_zero.
    cbn [Nat.ltb Nat.leb Nat.sub Re.backtrack Nat.add Re.drop Re.take].
    change (Re.span Re.phone_char None (String "+" s')) with 0%nat.
    cbn [Nat.leb]. by repeat case_match.
  - cbn [Nat.ltb Nat.leb Nat.sub Re.backtrack Nat.add Re.drop Re.take].
    change (if Re.phone_char d then S (Re.span Re.phone_char None s') else 0%nat)
      with (Re.span Re.phone_char None (String d s')).
    by repeat case_match.
Qed.

Lemma phones_head (s : string) :
  (forall m, Kinds.phone_at s m ->
     exists pieces, Re.match_here Re.phones s = Some pieces
                    /\ m = normalise "phones" (Re.report Re.phones pieces))
  /\ (forall pieces, Re.match_here Re.phones s = Some pieces ->
        Kinds.phone_at s (normalise "phones" (Re.report Re.phones pieces))
        /\ normalise "phones" (Re.report Re.phones pieces) = Re.concat_pieces pieces).
Proof.
  assert (Hitem : forall plus body : string,
            normalise "phones" (Re.report Re.phones [plus; body]) = plus +:+ body
            /\ Re.concat_pieces [plus; body] = plus +:+ body).
  { intros plus body.
    assert (Hcat : Re.concat_pieces [plus; body] = plus +:+ body)
      by (unfold Re.concat_pieces; cbn; by rewrite append_nil_r).
    split; [|done]. unfold Re.report. cbn [existsb Re.phones Re.captured orb].
    by rewrite Hcat. }
  split.
  - intros m (plus & body & rest & -> & -> & Hplus & Hall & Hmin & Hstop).
    rewrite (all_chars_ext _ _ _ number_char_class) in Hall.
    exists [plus; body]. destruct (Hitem plus body) as [Hn Hc].
    split; [|by rewrite Hn].
    assert (Hlast : Re.match_here
              [{| Re.cls := Re.phone_char; Re.rmin := 8; Re.rmax := None;
                  Re.captured := false |}] (body +:+ rest) = Some [body]).
    { apply last_item_spec. exists body, rest. cbn.
      repeat split; try done. right.
      by rewrite <- (begins_in_ext _ _ _ number_char_class). }
    rewrite match_here_phones. destruct Hplus as [-> | ->].
    + change (EmptyString +:+ body +:+ rest) with (body +:+ rest).
      destruct body as [|d body]; [cbn in Hmin; lia|].
      rewrite append_cons in *. cbn in Hall. apply andb_true_iff in Hall as [Hd _].
      destruct (Ascii.eqb "+" d) eqn:Hplus.
      { apply Ascii.eqb_eq in Hplus as <-. discriminate Hd. }
      by rewrite Hlast.
    + change ("+" +:+ body +:+ rest) with (String "+" (body +:+ rest)).
      cbn [Ascii.eqb Bool.eqb]. by rewrite Hlast.
  - intros pieces Hm. rewrite match_here_phones in Hm.
    destruct s as [|d s']; [done|].
    destruct (Ascii.eqb "+" d) eqn:Hd.
    + apply Ascii.eqb_eq in Hd as <-.
      destruct (Re.match_here _ s') as [pieces'|] eqn:Hlast; [|done].
      injection Hm as <-.
      apply last_item_spec in Hlast
        as (body & rest & -> & -> & Hall & Hmin & Hmax & Hstop).
      cbn in Hall, Hmin, Hmax, Hstop.
      destruct (Hitem "+" body) as [Hi Hc]. rewrite Hi, Hc. split; [|done].
      exists "+", body, rest. split; [done|]. split; [done|]. split; [by right|].
      split; [by rewrite (all_chars_ext _ _ _ number_char_class)|].
      split; [done|].
      destruct Hstop as [? | Hn]; [done|].
      by rewrite (begins_in_ext _ _ _ number_char_class).
    + destruct (Re.match_here _ (String d s')) as [pieces'|] eqn:Hlast; [|done].
      injection Hm as <-.
      apply last_item_spec in Hlast
        as (body & rest & -> & Hs & Hall & Hmin & Hmax & Hstop).
      cbn in Hall, Hmin, Hmax, Hstop.
      destruct (Hitem EmptyString body) as [Hi Hc]. rewrite Hi, Hc. split; [|done].
      exists EmptyString, body, rest. split; [done|]. split; [done|].
      split; [by left|].
      split; [by rewrite (all_chars_ext _ _ _ number_char_class)|].
      split; [done|].
      destruct Hstop as [? | Hn]; [done|].
      by rewrite (begins_in_ext _ _ _ number_char_class).
Qed.

(** the matcher finds at the head of a text what the specification of the
    kind calls the item there, and reports it as that item *)
Lemma head_spec (extract_type : string) (regex : Re.pattern) (s : string) :
  patterns extract_type = Some regex ->
  (forall m, Kinds.item_at extract_type s m ->
     exists pieces, Re.match_here regex s = Some pieces
                    /\ m = normalise extract_type (Re.report regex pieces))
  /\ (forall pieces, Re.match_here regex s = Some pieces ->
        Kinds.item_at extract_type s (normalise extract_type (Re.report regex pieces))
        /\ normalise extract_type (Re.report regex pieces) = Re.concat_pieces pieces).
Proof.
  unfold patterns, Kinds.item_at.
  destruct (String.eqb extract_type "usernames") eqn:Hu.
  { apply String.eqb_eq in Hu as ->. intros [= <-].
    destruct (usernames_head s) as [H1 H2]. split.
    - intros m [[_ ?] | [[? _] | [? _]]]; [by apply H1 | done | done].
    - intros pieces Hm. destruct (H2 pieces Hm). split; [by left | done]. }
  destruct (String.eqb extract_type "links") eqn:Hl.
  { apply String.eqb_eq in Hl as ->. intros [= <-].
    destruct (links_head s) as [H1 H2]. split.
    - intros m [[? _] | [[_ ?] | [? _]]]; [done | by apply H1 | done].
    - intros pieces Hm. destruct (H2 pieces Hm). split; [by right; left | done]. }
  destruct (String.eqb extract_type "phones") eqn:Hp; [|done].
  apply String.eqb_eq in Hp as ->. intros [= <-].
  destruct (phones_head s) as [H1 H2]. split.
  - intros m [[? _] | [[? _] | [_ ?]]]; [done | done | by apply H1].
  - intros pieces Hm. destruct (H2 pieces Hm). split; [by right; right | done].
Qed.

Lemma item_nonempty (extract_type : string) (s m : string) :
  Kinds.item_at extract_type s m -> exists c m', m = String c m'.
Proof.
  intros [[_ (name & rest & _ & -> & _)]
         | [[_ (path & rest & _ & -> & _)]
           | [_ (plus & body & rest & _ & -> & Hplus & _ & Hmin & _)]]].
  - by eexists _, _.
  - by eexists _, _.
  - destruct Hplus as [-> | ->]; [|by eexists _, _].
    destruct body as [|d body]; [cbn in Hmin; lia | by eexists _, _].
Qed.

(** skipping is dropping *)
Lemma findall_from_skip (p : Re.pattern) (k : nat) (s : string) :
  Re.match_here p EmptyString = None ->
  Re.findall_from p k s = Re.findall_from p 0 (Re.drop k s).
Proof.
  intros Hnone. revert s. induction k as [|k IH]; intros s.
  - by destruct s.
  - destruct s as [|c s]; cbn [Re.findall_from Re.drop].
    + by rewrite Hnone.
    + apply IH.
Qed.

Lemma supported_pattern (extract_type : string) (regex : Re.pattern) :
  patterns extract_type = Some regex ->
  Re.match_here regex EmptyString = None.
Proof.
  unfold patterns. repeat case_match; try done; by intros [= <-].
Qed.

(** one step of [findall] at a match *)
Lemma findall_from_match (p : Re.pattern) (m rest : string) (pieces : list string)
    (c : ascii) (m' : string) :
  Re.match_here p EmptyString = None ->
  Re.match_here p (m +:+ rest) = Some pieces ->
  Re.concat_pieces pieces = m -> m = String c m' ->
  Re.findall_from p 0 (m +:+ rest)
  = Re.report p pieces :: Re.findall_from p 0 rest.
Proof.
  intros Hnone Hm Hcat ->. rewrite append_cons in *.
  cbn [Re.findall_from]. rewrite Hm, Hcat. f_equal.
  cbn [String.length Nat.sub]. rewrite Nat.sub_0_r.
  by rewrite (findall_from_skip _ _ _ Hnone), drop_append.
Qed.

(** [findall], with the prefix of the kind put back, gives the items of
    the text as the specification defines them, and only them *)
Lemma findall_items (extract_type : string) (regex : Re.pattern)
    (txt : string) (items : list string) :
  patterns extract_type = Some regex ->
  Kinds.items_of extract_type txt items
  <-> items = map (normalise extract_type) (Re.findall regex txt).
Proof.
  intros Hpat. pose proof (supported_pattern _ _ Hpat) as Hnone.
  unfold Re.findall. split.
  - induction 1 as [|c s items Hno _ IH|s m rest items Hat Hs _ IH].
    + cbn. by rewrite Hnone.
    + cbn [Re.findall_from].
      destruct (Re.match_here regex (String c s)) as [pieces|] eqn:Hm; [|exact IH].
      exfalso. destruct (head_spec _ _ (String c s) Hpat) as [_ H2].
      destruct (H2 pieces Hm) as [Hat _]. by apply Hno in Hat.
    + destruct (head_spec _ _ s Hpat) as [H1 H2].
      destruct (H1 m Hat) as (pieces & Hm & Hrep).
      destruct (H2 pieces Hm) as [_ Hcat]. rewrite <- Hrep in Hcat.
      destruct (item_nonempty _ _ _ Hat) as (c & m' & Hc).
      subst s. rewrite (findall_from_match _ _ _ pieces c m' Hnone Hm); [|done|done].
      cbn [map]. by rewrite <- Hrep, IH.
  - intros ->.
    assert (Hall : forall (n : nat) (s : string),
              (String.length s <= n)%nat ->
              Kinds.items_of extract_type s
                (map (normalise extract_type) (Re.findall_from regex 0 s))).
    { clear txt. induction n as [|n IH]; intros s Hlen.
      - destruct s; [|cbn in Hlen; lia]. cbn. rewrite Hnone. constructor.
      - destruct s as [|c s]; [cbn; rewrite Hnone; constructor|].
        destruct (head_spec _ _ (String c s) Hpat) as [H1 H2].
        destruct (Re.match_here regex (String c s)) as [pieces|] eqn:Hm.
        + destruct (H2 pieces eq_refl) as [Hat Hcat].
          destruct (match_here_sound _ _ _ Hm) as [_ [rest Hrest]].
          destruct (item_nonempty _ _ _ Hat) as (c' & m' & Hc).
          rewrite Hcat in Hc.
          rewrite Hrest at 2.
          rewrite (findall_from_match _ _ _ pieces c' m' Hnone); [|by rewrite <- Hrest|done|done].
          cbn [map]. rewrite Hcat.
          apply (Kinds.items_take _ _ _ rest); [by rewrite <- Hcat | done |].
          apply IH. apply (f_equal String.length) in Hrest.
          rewrite Hc, append_cons in Hrest. cbn in Hrest, Hlen.
          rewrite length_append in Hrest. lia.
        + cbn [Re.findall_from]. rewrite Hm. apply Kinds.items_pass.
          * intros m Hat. destruct (H1 m Hat) as (pieces & ? & _). done.
          * apply IH. cbn in Hlen. lia. }
    by apply (Hall (String.length txt)).
Qed.

Lemma supported_patterns (extract_type : string) :
  supported extract_type -> exists regex, patterns extract_type = Some regex.
Proof. intros [-> | [-> | ->]]; by eexists. Qed.

Section ExtractorSpec.
Context {R : Type} `{Remote R}.

(** C9. When the account is connected, the kind is one of the three and
    the scan of the channel succeeds, [extract_from_channel] reports
    success with a list that is sorted, has no duplicates, and contains
    exactly the items of the kind, as the specification defines them, of
    the texts of the scanned messages: for usernames an at sign and 5 to
    32 name characters, for links "t.me/" and its path, for phones an
    optional plus sign and at least 8 number characters.  A scan that
    returns the same messages in another order gives the same list.  For
    the kind usernames and the one text "contact @foo_bar or @ab" the
    list is ["@foo_bar"]. *)
Theorem extract_sorted_unique (phone channel_link extract_type : string)
    (limit : Z) (client : Client) (messages : list Message) (s : R) (w : World R) :
  clients w !! phone = Some client ->
  supported extract_type ->
  r_iter_messages channel_link limit (remote w) = (Ok messages, s) ->
  exists items,
    (extract_from_channel phone channel_link extract_type limit w).1
    = Ok {| er_status := "success"; er_data := DataItems items |}
    /\ Sorted String.le items
    /\ NoDup items
    /\ (forall x, x ∈ items <->
          exists message txt found,
            message ∈ messages /\ text message = Some txt
            /\ Kinds.items_of extract_type txt found /\ x ∈ found)
    /\ (forall (w' : World R) (client' : Client) (messages' : list Message) (s' : R),
          clients w' !! phone = Some client' ->
          r_iter_messages channel_link limit (remote w') = (Ok messages', s') ->
          messages' ≡ₚ messages ->
          (extract_from_channel phone channel_link extract_type limit w').1
          = Ok {| er_status := "success"; er_data := DataItems items |})
    /\ (extract_type = "usernames" ->
        messages = [ {| text := Some "contact @foo_bar or @ab" |} ] ->
        items = ["@foo_bar"]).
Proof.
  intros Hon Hkind Hscan.
  destruct (supported_patterns _ Hkind) as [regex Hpat].
  destruct (extract_scan phone channel_link extract_type limit client regex
              messages s w Hon Hpat Hscan)
    as (Hres & Hsorted & Hnodup & Helem & Hperm & Hexample).
  exists (sorted (scan_messages extract_type regex messages)).
  split; [done|]. split; [done|]. split; [done|]. split; [|split; [|done]].
  - intros x. rewrite Helem. split.
    + intros (message & Hin & txt & match_ & Htxt & _ & Hfind & ->).
      exists message, txt, (map (normalise extract_type) (Re.findall regex txt)).
      split; [done|]. split; [done|].
      split; [by apply (proj2 (findall_items _ _ _ _ Hpat))|].
      apply list_elem_of_fmap. by exists match_.
    + intros (message & txt & found & Hin & Htxt & Hitems & Hx).
      apply (proj1 (findall_items _ _ _ _ Hpat)) in Hitems. subst found.
      apply list_elem_of_fmap in Hx as (match_ & -> & Hfind).
      exists message. split; [done|]. exists txt, match_.
      split; [done|]. split; [|done].
      intros ->. unfold Re.findall in Hfind. cbn in Hfind.
      rewrite (supported_pattern _ _ Hpat) in Hfind. by apply elem_of_nil in Hfind.
  - intros w' client' messages' s' Hon' Hscan' Hp.
    destruct (extract_scan phone channel_link extract_type limit client' regex
                messages' s' w' Hon' Hpat Hscan') as (Hres' & _).
    rewrite Hres'. by rewrite (Hperm messages' Hp).
Qed.

End ExtractorSpec.

Lemma extract_sorted_unique_witness :
  let w := world_of one_session empty_db
             (channel_with (one_text "contact @foo_bar or @ab")) in
  clients w !! "+15550001" = Some {| client_session := "session" |}
  /\ supported "usernames"
  /\ r_iter_messages "t.me/somechannel" 100 (remote w)
     = (Ok (one_text "contact @foo_bar or @ab"),
        channel_with (one_text "contact @foo_bar or @ab"))
  /\ (extract_from_channel "+15550001" "t.me/somechannel" "usernames" 100 w).1
     = Ok {| er_status := "success"; er_data := DataItems ["@foo_bar"] |}
  /\ Kinds.items_of "usernames" "contact @foo_bar or @ab" ["@foo_bar"].
Proof.
  cbv zeta.
  assert (Hscan : r_iter_messages "t.me/somechannel" 100
                    (remote (world_of one_session empty_db
                               (channel_with (one_text "contact @foo_bar or @ab"))))
                  = (Ok (one_text "contact @foo_bar or @ab"),
                     channel_with (one_text "contact @foo_bar or @ab")))
    by reflexivity.
  split; [reflexivity|]. split; [by left|]. split; [exact Hscan|].
  destruct (extract_sorted_unique "+15550001" "t.me/somechannel" "usernames" 100
              {| client_session := "session" |}
              (one_text "contact @foo_bar or @ab")
              (channel_with (one_text "contact @foo_bar or @ab"))
              (world_of one_session empty_db
                 (channel_with (one_text "contact @foo_bar or @ab")))
              eq_refl (or_introl eq_refl) Hscan)
    as (items & Hres & _ & _ & Helem & _ & Hex).
  rewrite (Hex eq_refl eq_refl) in Hres, Helem.
  split; [exact Hres|].
  destruct (proj1 (Helem "@foo_bar")) as (message & txt & found & Hin & Htxt & Hitems & _);
    [apply list_elem_of_here|].
  apply list_elem_of_singleton in Hin. subst message. injection Htxt as <-.
  assert (Hfound : found = ["@foo_bar"]).
  { apply (proj1 (findall_items "usernames" Re.usernames _ _ eq_refl)) in Hitems.
    by subst found. }
  by rewrite <- Hfound.
Defined.
